(* ===== verification/_CoqProject ===== *)
-Q . S2P
Prelude.v
Mimetype.v
Json.v
Literal.v
Calendar.v
Query.v
Table.v
Server.v
Trace.v
Race.v
RaceMany.v
Bootstrap.v
