(* ===== verification/Prelude.v ===== *)
(** * Forserv: a verification development of the sensor-reading server

    The repository (InkonIo/forserv) is one Flask application,
    [src/server.py].  A NodeMCU water-level sensor POSTs
    [{"sensor_id": .., "water_percentage": ..}] to [/data]; the handler
    [receive_data] validates the payload, opens a PostgreSQL connection
    with [connect_db], and, inside one transaction, either updates the
    newest row of that sensor whose timestamp lies in the last minute or
    inserts a new row ("upsert by time window").  The parts and how they
    interact:

    - the request payload: Werkzeug's [request.is_json] (a test of the
      [Content-Type] header), [get_json] and Python's [dict.get] and
      truthiness, which decide the 400 branches;
    - the table [sensor_data(id, sensor_id, water_percentage, timestamp)]
      of the database, read by one SELECT (newest row of the sensor in the
      window) and written by one UPDATE or one INSERT;
    - the connection: [connect_db] (environment configuration, the
      connection attempt and its log lines), the cursor, the transaction
      ([commit], [rollback]) and the closing of both in [finally];
    - the handler [receive_data], which composes the three, and the Flask
      boundary that turns an uncaught exception into an error page.

    Files (in dependency order, see [_CoqProject]):

    - [Prelude.v] (this file): the exception-and-state monad [ESM] in
      which the handler is written (Python's [raise], [try/except],
      [try/finally] with their exact ordering), the stability calculus
      [stable] that proves invariants of composite handlers from
      invariants of the atomic operations, the hint database [py].
    - [Mimetype.v]: Python's whitespace, [strip] and [lower] on ASCII,
      and Werkzeug's [request.is_json]: a test of the [Content-Type]
      header (the part before [;], stripped and lowercased, is
      [application/json] or [application/*+json]); the string lemmas
      and the hint database [str] the other files share.
    - [Json.v]: the JSON/Python values of the payload ([json]), Python
      truthiness [truthy], [dict.get] with JSON's last-duplicate-wins
      ([obj_get]), the request record.
    - [Literal.v]: how a parameter reaches PostgreSQL.  psycopg2 writes
      each Python value as an SQL literal ([sql_literal]: Python's
      [str] of an [int], strings quoted with doubled quotes, a NUL
      refused, [NULL], [true]/[false], arrays); PostgreSQL's lexer reads
      the literal back ([lex_param]) and the column gives it a type
      ([adapt_text] for [sensor_id], [adapt_numeric] for
      [water_percentage], whose input skips surrounding whitespace),
      which is what the statements of [Server.v] bind; [numeric_rejected]
      names the values a numeric column refuses in every PostgreSQL
      version.
    - [Calendar.v]: the [datetime] of [datetime.now()] (line 49) as
      CPython stores it (year to microsecond, computed through the
      ordinal of the date: [_ymd2ord], [_ord2ymd]), [datetime +
      timedelta] with its [OverflowError] (line 59), and the
      [isoformat()] text psycopg2 sends for a [datetime];
      [to_datetime] maps the integer clock of the other files to it.
    - [Query.v]: the three query strings of src/server.py copied
      character for character, psycopg2's [%]-formatting ([format],
      [mogrify]), each [datetime] parameter written as its [isoformat()]
      text cast to [timestamp], and the reading of a query text against
      its template ([unformat]).
    - [Table.v]: rows, the committed table with its id sequence, the
      SELECT ... ORDER BY timestamp DESC LIMIT 1 query as an interface
      ([LatestSelect], whose law [is_latest] allows any tie-break, as
      PostgreSQL does) with a fold implementation proved to satisfy it,
      UPDATE by id, INSERT with [nextval], the transaction write log, the
      well-formedness invariant of the table (unique ids below the
      sequence).
    - [Server.v]: the world of one request (committed table, connection,
      the handler's local [cursor], the open transaction, the log),
      [connect_db], the database operations with their failure points, the
      handler [receive_data] line by line and the Flask boundary
      [flask_dispatch]; the relational specification [reconcile_spec] of
      spec section 4.1; the theorems about one request.
    - [Trace.v]: requests served one after another ([step_db],
      [reachable], [reachable_at] with a clock that does not go back);
      the spec's P1-P3; the invariant [spaced] (rows of one sensor more
      than a minute apart) and its consequence [one_live] (spec
      section 3); what a clock going back or a failed insert does; the
      type of what the [sensor_id] column holds.
    - [Race.v]: concurrent handlers.  A [thread] is the core of one
      handler between two SQL statements; [thread_step] runs its next
      statement with the operations of [Server.v] against the shared
      committed table (READ COMMITTED visibility) and meets the
      failures of its own connection, [run_sched] follows a schedule.
    - [RaceMany.v]: any number of handlers under the schedule that
      runs every SELECT, then every write, then every COMMIT, computed
      phase by phase ([run_sched_phase]).
    - [Bootstrap.v]: the entry point of lines 115-120: [PORT] read with
      Python's [int()] (default 5000), and the bind of [app.run] on
      [0.0.0.0], which refuses a port outside 0-65535 ([OverflowError])
      and a port the system refuses ([OSError]; which ports the system
      accepts is an input, [avail]).

    Time is the handler's [datetime.now()], an integer number of
    microseconds since 0001-01-01T00:00:00 ([Z]); [timedelta(minutes=1)]
    is [minute] = 60 000 000.  Calendar.v shows that this clock is exact
    for every datetime between years 1 and 9999: the subtraction of
    line 59 through CPython's calendar is the subtraction of [minute]
    (outside the first minute of year 1).
    Failures of the database are an input: [faults : dbop -> bool] says
    which call raises, so every theorem quantifies over all failure
    patterns or names the one it is about.  No fuel is needed: the
    handler has no loop, and the only recursions are structural (lists
    of rows, of schedule steps, strings, decimal digits);
    [format_unformat_n] recurses on a bound of the template's length
    because a placeholder consumes two characters.

    Theorem groups.  Server.v: the success path refines [reconcile_spec]
    ([serve_upsert]); validation answers 400 without contacting the
    database; all-or-nothing commit under every fault pattern; isolation
    between sensors; a 200 implies a committed write and a closed
    connection; release of the connection; the log of a failed
    [connect_db]; and the behaviours where the code differs from the
    spec (payloads that are not objects give 500, ill-typed fields pass
    validation and give 500, a NUL in [sensor_id] passes validation and
    gives 500, a failing [conn.cursor()] leaves [cursor] unbound in
    [finally], a failing close after the commit answers 500 for a
    committed write); the response of every branch as one decision
    table ([serve_response_table]), where a failing rollback gives
    Flask's 500 page instead of the fixed message.  The handler sees the
    [Content-Type] only through [is_json_mimetype]: [application/json]
    in any case, with whitespace and parameters, is served alike, and a
    reading sent as [text/plain] or without the header gets the 400
    "Request must be JSON" whatever its body.
    Trace.v: P1-P3 for two readings (the window is closed at 60 s, where
    the spec says two rows), the sensor names every reachable table
    holds (non-empty, without NUL), the spacing and one-live-row
    invariants under a monotone clock, and, for any readings, their
    failure when the clock goes back; ids consumed by failed inserts.
    Race.v: all twenty interleavings of two readings
    ([interleavings 3 3]) are classified: a duplicate exactly when each
    SELECT precedes the other handler's COMMIT ([racy]), which every
    non-serial schedule does; a handler whose COMMIT fails leaves, under
    every interleaving, exactly the other reading's row.
    RaceMany.v: [n] readings of one sensor in one window, every SELECT
    before any write, leave [n] rows of the sensor with the ids
    [seq + 1 .. seq + n], so the one-live-row invariant fails (the race
    of spec section 5).
    Query.v: for every sensor name without NUL, every scalar value and
    every pair of clocks, PostgreSQL reads each of the three statements
    as its template with exactly the parameters in place (no SQL
    injection).  Calendar.v: [_ord2ymd] inverts [_ymd2ord] on every
    ordinal (by the 400-year cycle and small finite checks, evaluated
    with [vm_compute]: the month estimate on the 366 days of a year and
    the leap years of one cycle), and [current_time -
    timedelta(minutes=1)] is the datetime of [t - minute], or
    [OverflowError] in the first minute of year 1.  Bootstrap.v: the
    process listens on [int(PORT)] (or 5000) within 0-65535 and accepted
    by the system, or stops with [ValueError], [OverflowError] or
    [OSError].

    Not modelled: the Flask routing and the Werkzeug server loop, JSON
    text parsing (the body is given as a parsed value or as
    unparseable), floating point values (JSON numbers are integers here;
    a float differs from an integer only in that 0.0 is falsy, which 0
    models), PostgreSQL's numeric input beyond integer spellings
    (decimals, exponents, [NaN], [Infinity]: [adapt_numeric] reads them
    as refused, and no theorem depends on it, the rejection theorem
    assuming [numeric_rejected], which holds of no text with a digit or
    a special word), the [OverflowError] of line 59 inside the handler
    (the handler subtracts [minute] from the integer clock; Calendar.v
    shows the two agree except in the first minute of year 1), the
    bound of the id sequence (the schema is not in the repository; for
    a [SERIAL] column [nextval] fails after 2147483647, while the
    model's sequence is unbounded), the reading of
    the system clock by [datetime.now()] (an input), PostgreSQL's
    reading of the timestamp text (the model stores the clock), row
    locks (an UPDATE of a row another open transaction has updated
    waits for it; the schedules run each statement atomically),
    [standard_conforming_strings] off (assumed on, the default since
    PostgreSQL 9.1), non-ASCII digits in [int()], the wording of the
    printed lines beyond which event they report, the mimetype parsing
    of Werkzeug before 2.3 (a regular expression that also stops at
    [,] and whitespace; it agrees on the headers clients send) and
    non-ASCII characters in the header. *)

From stdpp Require Import base list.
From Stdlib Require Import ZArith Lia.

(** ** The exception-and-state monad *)

(** A computation reads and writes a state [S] and either returns an
    [A] or raises an [E].  As in Python, the state changes made before
    an exception survive it. *)
Definition ESM (S E A : Type) : Type := S -> (E + A) * S.

Definition ret {S E A} (a : A) : ESM S E A := fun s => (inr a, s).

Definition raise {S E A} (e : E) : ESM S E A := fun s => (inl e, s).

Definition esm_bind {S E A B} (m : ESM S E A) (k : A -> ESM S E B) : ESM S E B :=
  fun s => match m s with
           | (inl e, s') => (inl e, s')
           | (inr a, s') => k a s'
           end.

Definition gets {S E A} (f : S -> A) : ESM S E A := fun s => (inr (f s), s).

Definition modify {S E} (f : S -> S) : ESM S E unit := fun s => (inr tt, f s).

(** [try: m except: h] *)
Definition try_except {S E A} (m : ESM S E A) (h : E -> ESM S E A) : ESM S E A :=
  fun s => match m s with
           | (inl e, s') => h e s'
           | (inr a, s') => (inr a, s')
           end.

(** [try: m finally: f]: [f] runs after [m] whatever [m] did; an
    exception raised by [f] replaces the outcome of [m] (a [return] of
    [m] included). *)
Definition try_finally {S E A} (m : ESM S E A) (f : ESM S E unit) : ESM S E A :=
  fun s => let '(r, s1) := m s in
           match f s1 with
           | (inl e, s2) => (inl e, s2)
           | (inr _, s2) => (r, s2)
           end.

Declare Scope py_scope.
Delimit Scope py_scope with py.
Notation "'do' x <- m ; k" := (esm_bind m (fun x => k))
  (at level 60, m at next level, right associativity) : py_scope.
Notation "'do' m ; k" := (esm_bind m (fun _ => k))
  (at level 60, right associativity) : py_scope.

Create HintDb py.

(** ** Running a composite computation step by step *)

Section Run.
Context {S E : Type}.

Lemma bind_inr {A B} (m : ESM S E A) (k : A -> ESM S E B) s a s' :
  m s = (inr a, s') -> esm_bind m k s = k a s'.
Proof. unfold esm_bind. intros ->. reflexivity. Qed.

Lemma bind_inl {A B} (m : ESM S E A) (k : A -> ESM S E B) s e s' :
  m s = (inl e, s') -> esm_bind m k s = (inl e, s').
Proof. unfold esm_bind. intros ->. reflexivity. Qed.

Lemma try_except_inr {A} (m : ESM S E A) h s a s' :
  m s = (inr a, s') -> try_except m h s = (inr a, s').
Proof. unfold try_except. intros ->. reflexivity. Qed.

Lemma try_except_inl {A} (m : ESM S E A) h s e s' :
  m s = (inl e, s') -> try_except m h s = h e s'.
Proof. unfold try_except. intros ->. reflexivity. Qed.

Lemma try_finally_run {A} (m : ESM S E A) f s r s1 :
  m s = (r, s1) ->
  try_finally m f s = match f s1 with
                      | (inl e, s2) => (inl e, s2)
                      | (inr _, s2) => (r, s2)
                      end.
Proof. unfold try_finally. intros ->. reflexivity. Qed.
End Run.

(** ** Stability: relational invariants of composite computations

    [stable R m] says that every run of [m] relates its initial and
    final states by [R].  For a preorder [R] stability is closed under
    every combinator of the monad, so an invariant of a whole handler
    follows from the invariants of its atomic operations. *)
Definition stable {S E A} (R : relation S) (m : ESM S E A) : Prop :=
  forall s, R s (snd (m s)).

Section Stable.
Context {S E : Type} (R : relation S) `{!PreOrder R}.

Lemma stable_ret {A} (a : A) : stable (E:=E) R (ret a).
Proof. intros s. simpl. reflexivity. Qed.

Lemma stable_raise {A} (e : E) : stable (A:=A) R (raise e).
Proof. intros s. simpl. reflexivity. Qed.

Lemma stable_gets {A} (f : S -> A) : stable (E:=E) R (gets f).
Proof. intros s. simpl. reflexivity. Qed.

Lemma stable_bind {A B} (m : ESM S E A) (k : A -> ESM S E B) :
  stable R m -> (forall a, stable R (k a)) -> stable R (esm_bind m k).
Proof.
  intros Hm Hk s. unfold esm_bind. specialize (Hm s).
  destruct (m s) as [[e|a] s']; simpl in *; [done|].
  etrans; [apply Hm|apply Hk].
Qed.

Lemma stable_try_except {A} (m : ESM S E A) h :
  stable R m -> (forall e, stable R (h e)) -> stable R (try_except m h).
Proof.
  intros Hm Hh s. unfold try_except. specialize (Hm s).
  destruct (m s) as [[e|a] s']; simpl in *; [|done].
  etrans; [apply Hm|apply Hh].
Qed.

Lemma stable_try_finally {A} (m : ESM S E A) f :
  stable R m -> stable R f -> stable R (try_finally m f).
Proof.
  intros Hm Hf s. unfold try_finally. specialize (Hm s).
  destruct (m s) as [r s1]; simpl in *.
  specialize (Hf s1). destruct (f s1) as [[e|u] s2]; simpl in *;
    etrans; eauto.
Qed.

Lemma stable_modify (f : S -> S) :
  (forall s, R s (f s)) -> stable (E:=E) R (modify f).
Proof. intros Hf s. apply Hf. Qed.

Lemma stable_if {A} (b : bool) (m1 m2 : ESM S E A) :
  stable R m1 -> stable R m2 -> stable R (if b then m1 else m2).
Proof. by destruct b. Qed.
End Stable.

#[export] Hint Resolve stable_ret stable_raise stable_gets stable_bind
  stable_try_except stable_try_finally stable_if stable_modify : py.

(** Decompose a stability goal along the combinators of the
    computation, case-splitting on the [match]es of the code; what is
    left are the obligations [R s (f s)] of the [modify] steps. *)
Ltac stable_step :=
  match goal with
  | |- stable ?R (esm_bind _ _) => apply (stable_bind R); [|intros ?]
  | |- stable ?R (try_except _ _) => apply (stable_try_except R); [|intros ?]
  | |- stable ?R (try_finally _ _) => apply (stable_try_finally R)
  | |- stable ?R (if _ then _ else _) => apply (stable_if R)
  | |- stable _ (match ?x with _ => _ end) => destruct x
  | |- stable ?R (ret _) => apply (stable_ret R)
  | |- stable ?R (raise _) => apply (stable_raise R)
  | |- stable ?R (gets _) => apply (stable_gets R)
  | |- stable ?R (modify _) => apply (stable_modify R); intros ?
  end.

Lemma stable_run {S E A} (R : relation S) (m : ESM S E A) s r s' :
  stable R m -> m s = (r, s') -> R s s'.
Proof. intros Hm Hrun. specialize (Hm s). by rewrite Hrun in Hm. Qed.

(** The invariant form of stability: [P] holds after [m] when it held
    before. *)
Definition preserving {S} (P : S -> Prop) : relation S :=
  fun s s' => P s -> P s'.

#[export] Instance preserving_preorder {S} (P : S -> Prop) :
  PreOrder (preserving P).
Proof. split; unfold preserving; red; auto. Qed.

(** The conjunction of two stable relations is stable. *)
Lemma stable_and {S E A} (R1 R2 : relation S) (m : ESM S E A) :
  stable R1 m -> stable R2 m -> stable (fun s s' => R1 s s' /\ R2 s s') m.
Proof. intros H1 H2 s. split; [apply H1|apply H2]. Qed.

#[export] Instance and_preorder {S} (R1 R2 : relation S)
  `{!PreOrder R1, !PreOrder R2} : PreOrder (fun s s' => R1 s s' /\ R2 s s').
Proof.
  split.
  - intros s. split; reflexivity.
  - intros s1 s2 s3 [? ?] [? ?]. split; etrans; eauto.
Qed.

(** ** Generic list lemmas *)

(** Under [NoDup (map f l)], [f] is injective on the elements of [l]. *)
Lemma NoDup_map_inj_in {A B} (f : A -> B) (l : list A) x y :
  NoDup (map f l) -> In x l -> In y l -> f x = f y -> x = y.
Proof.
  induction l as [|a l IH]; simpl; [done|].
  intros Hnd%NoDup_cons Hx Hy Hf. destruct Hnd as [Hnin Hnd].
  destruct Hx as [<-|Hx], Hy as [<-|Hy]; auto.
  - exfalso. apply Hnin. apply list_elem_of_In. rewrite Hf. by apply in_map.
  - exfalso. apply Hnin. apply list_elem_of_In. rewrite <-Hf. by apply in_map.
Qed.

(** Discharge a decidable proposition about concrete data by evaluating
    its decision procedure. *)
Ltac decide_by_eval :=
  match goal with |- ?P => apply (bool_decide_eq_true_1 P) end; vm_compute; reflexivity.

(** Step through a computation: rewrite with the run lemmas above. *)
Ltac esm_run H :=
  first [ erewrite bind_inr by exact H
        | erewrite bind_inl by exact H
        | erewrite try_except_inr by exact H
        | erewrite try_except_inl by exact H
        | erewrite try_finally_run by exact H ].
