(* ===== verification/Mimetype.v ===== *)
(** * Python string helpers and the JSON test of a request

    [request.is_json] (src/server.py, line 45) is Werkzeug's test of the
    [Content-Type] header, not of the body: [mimetype] is the part of
    the header before the first [;], stripped of whitespace and
    lowercased ([parse_options_header], Werkzeug 2.3 and later), and the
    request is JSON when the mimetype is [application/json] or
    [application/*+json].  An absent header reads as [""].  The file
    also holds Python's whitespace ([str.isspace] on ASCII) and
    [str.lstrip]/[str.rstrip], which [Bootstrap.v] uses for [int()]. *)

From stdpp Require Import base list strings.
From Stdlib Require Import Ascii Lia.
From S2P Require Import Prelude.

#[local] Set Warnings "-register-all".

(** ** Whitespace *)

(** [str.isspace()] on ASCII: tab, newline, vertical tab, form feed,
    carriage return, the four separators 0x1c-0x1f and the space. *)
Definition py_space (c : ascii) : bool :=
  let n := Ascii.nat_of_ascii c in
  ((9 <=? n)%nat && (n <=? 13)%nat) || ((28 <=? n)%nat && (n <=? 32)%nat).

Fixpoint all_space (s : string) : bool :=
  match s with
  | EmptyString => true
  | String c s' => py_space c && all_space s'
  end.

(** [str.lstrip()] *)
Fixpoint lstrip (s : string) : string :=
  match s with
  | String c s' => if py_space c then lstrip s' else s
  | EmptyString => EmptyString
  end.

(** [str.rstrip()]: a whitespace character goes when only whitespace
    follows it. *)
Fixpoint rstrip (s : string) : string :=
  match s with
  | EmptyString => EmptyString
  | String c s' =>
      let r := rstrip s' in
      if py_space c && String.eqb r EmptyString then EmptyString else String c r
  end.

(** [str.strip()] *)
Definition strip (s : string) : string := rstrip (lstrip s).

(** Every character satisfies [p]. *)
Fixpoint str_forall (p : ascii -> bool) (s : string) : bool :=
  match s with
  | EmptyString => true
  | String c s' => p c && str_forall p s'
  end.

(** ** The mimetype *)

(** [str.lower()] on ASCII. *)
Definition ascii_lower (c : ascii) : ascii :=
  let n := Ascii.nat_of_ascii c in
  if (65 <=? n)%nat && (n <=? 90)%nat then Ascii.ascii_of_nat (n + 32) else c.

Fixpoint lower (s : string) : string :=
  match s with
  | EmptyString => EmptyString
  | String c s' => String (ascii_lower c) (lower s')
  end.

(** [value.partition(";")[0]] *)
Fixpoint before_semi (s : string) : string :=
  match s with
  | EmptyString => EmptyString
  | String c s' => if Ascii.eqb c ";" then EmptyString else String c (before_semi s')
  end.

(** [s.startswith(p)] and [s.endswith(p)]. *)
Definition starts_with (p s : string) : bool := String.prefix p s.

Definition ends_with (p s : string) : bool :=
  (String.length p <=? String.length s)%nat &&
  String.eqb (String.substring (String.length s - String.length p) (String.length p) s) p.

(** [request.mimetype]: [parse_options_header(content_type)[0].lower()]. *)
Definition mimetype (content_type : string) : string :=
  lower (strip (before_semi content_type)).

(** [request.is_json] *)
Definition is_json_mimetype (content_type : string) : bool :=
  let mt := mimetype content_type in
  String.eqb mt "application/json" ||
  (starts_with "application/" mt && ends_with "+json" mt).

(** ** Lemmas *)

Lemma str_app_cons c s t : String c s +:+ t = String c (s +:+ t).
Proof. reflexivity. Qed.

Lemma str_app_nil_l t : EmptyString +:+ t = t.
Proof. reflexivity. Qed.

Lemma str_app_nil_r s : s +:+ EmptyString = s.
Proof. induction s; [done|]. by rewrite str_app_cons, IHs. Qed.

Lemma str_app_assoc s t u : (s +:+ t) +:+ u = s +:+ (t +:+ u).
Proof. induction s; [done|]. by rewrite !str_app_cons, IHs. Qed.

Create Rewrite HintDb str.
#[export] Hint Rewrite str_app_cons str_app_nil_l str_app_nil_r str_app_assoc : str.

(** Case analysis on the 256 characters. *)
Ltac ascii_cases c := destruct c as [[] [] [] [] [] [] [] []].


Lemma lstrip_spaces l s : all_space l = true -> lstrip (l +:+ s) = lstrip s.
Proof.
  induction l as [|c l IH]; [done|]. simpl. intros [-> Hl]%andb_true_iff. by apply IH.
Qed.

(** A text without whitespace at its start is left alone. *)
Lemma lstrip_nonspace c s : py_space c = false -> lstrip (String c s) = String c s.
Proof. simpl. by intros ->. Qed.

Lemma rstrip_spaces r : all_space r = true -> rstrip r = EmptyString.
Proof.
  induction r as [|c r IH]; [done|]. simpl. intros [-> Hr]%andb_true_iff. by rewrite IH.
Qed.

Lemma rstrip_nonspace_end m r :
  m <> EmptyString -> str_forall (fun c => negb (py_space c)) m = true ->
  all_space r = true -> rstrip (m +:+ r) = m.
Proof.
  intros Hm Hns Hr. induction m as [|c m IH]; [done|]. simpl in Hns |- *.
  apply andb_true_iff in Hns as [Hc Hns]. apply negb_true_iff in Hc. rewrite Hc. simpl.
  destruct m as [|c' m'].
  - simpl. by rewrite rstrip_spaces.
  - by rewrite IH.
Qed.

Lemma before_semi_app m p :
  str_forall (fun c => negb (Ascii.eqb c ";")) m = true ->
  before_semi (m +:+ String ";" p) = m /\ before_semi m = m.
Proof.
  induction m as [|c m IH]; simpl; [done|]. intros [Hc Hm]%andb_true_iff.
  apply negb_true_iff in Hc. rewrite Hc. destruct (IH Hm) as [-> ->]. done.
Qed.

Lemma str_forall_app p s t : str_forall p (s +:+ t) = str_forall p s && str_forall p t.
Proof. induction s as [|c s IH]; [done|]. simpl. rewrite IH. by rewrite andb_assoc. Qed.

Lemma space_no_semi s : all_space s = true -> str_forall (fun c => negb (Ascii.eqb c ";")) s = true.
Proof.
  induction s as [|c s IH]; [done|]. simpl. intros [Hc Hs]%andb_true_iff. rewrite IH by done.
  destruct (Ascii.eqb_spec c ";") as [->|]; [discriminate|done].
Qed.

(** The parameters of a [Content-Type]: none, or [;] and anything. *)
Definition params_tail (p : string) : Prop := p = EmptyString \/ exists q, p = String ";" q.

Lemma before_semi_tail x p :
  str_forall (fun c => negb (Ascii.eqb c ";")) x = true -> params_tail p ->
  before_semi (x +:+ p) = x.
Proof.
  intros Hx [->|[q ->]]; [rewrite str_app_nil_r|]; by apply (before_semi_app x EmptyString) || 
    by apply before_semi_app.
Qed.

(** The mimetype of [l ++ m ++ r ++ params], for a media type [m]
    without whitespace and [;] between whitespace [l] and [r], is [m]
    lowercased. *)
Lemma mimetype_media l m r p :
  all_space l = true -> m <> EmptyString ->
  str_forall (fun c => negb (py_space c)) m = true ->
  str_forall (fun c => negb (Ascii.eqb c ";")) m = true ->
  all_space r = true -> params_tail p ->
  mimetype (l +:+ m +:+ r +:+ p) = lower m.
Proof.
  intros Hl Hm Hns Hsemi Hr Hp. unfold mimetype, strip.
  assert (str_forall (fun c => negb (Ascii.eqb c ";")) (l +:+ m +:+ r) = true) as Hno.
  { rewrite !str_forall_app, Hsemi, !space_no_semi by done. done. }
  replace (l +:+ m +:+ r +:+ p) with ((l +:+ m +:+ r) +:+ p) by (by rewrite !str_app_assoc).
  rewrite before_semi_tail by done.
  rewrite lstrip_spaces by done.
  destruct m as [|c m']; [done|]. pose proof Hns as Hns'. simpl in Hns'.
  apply andb_true_iff in Hns' as [Hc _]. apply negb_true_iff in Hc.
  rewrite str_app_cons, lstrip_nonspace, <-str_app_cons by done.
  by rewrite rstrip_nonspace_end.
Qed.

Lemma str_forall_lower p m :
  (forall c, p (ascii_lower c) = p c) -> str_forall p (lower m) = str_forall p m.
Proof. intros Hp. induction m as [|c m IH]; [done|]. simpl. by rewrite Hp, IH. Qed.

Lemma lower_space c : py_space (ascii_lower c) = py_space c.
Proof. by ascii_cases c. Qed.

Lemma lower_semi c : Ascii.eqb (ascii_lower c) ";" = Ascii.eqb c ";".
Proof. by ascii_cases c. Qed.

(** A [Content-Type] of [application/json], in any case, with
    whitespace around it and any parameters, makes the request JSON. *)
Lemma json_content_type l m r p :
  all_space l = true -> all_space r = true -> params_tail p ->
  lower m = "application/json" ->
  is_json_mimetype (l +:+ m +:+ r +:+ p) = true.
Proof.
  intros Hl Hr Hp Hm. assert (m <> EmptyString) as Hne by (intros ->; discriminate).
  assert (str_forall (fun c => negb (py_space c)) m = true) as Hns.
  { rewrite <-str_forall_lower, Hm; [done|]. intros c. by rewrite lower_space. }
  assert (str_forall (fun c => negb (Ascii.eqb c ";")) m = true) as Hsemi.
  { rewrite <-str_forall_lower, Hm; [done|]. intros c. by rewrite lower_semi. }
  unfold is_json_mimetype. by rewrite mimetype_media, Hm.
Qed.
