(* ===== verification/Json.v ===== *)
(** * The request payload: JSON values as Python sees them

    [receive_data] (src/server.py, lines 45-51) reads the request with
    Flask's [request.is_json] and [request.get_json()], takes two fields
    with [dict.get] and validates them with Python truthiness
    ([if sensor_id and water_percentage is not None]).  This file models
    the request (its [Content-Type] header and parsed body), the values
    [json.loads] produces, [bool(v)], [v is None], and
    [dict.get] on such a value, including the two cases where the code
    does something the spec does not say: a payload that is not an
    object has no [.get] (AttributeError), and a key given twice keeps
    its last value. *)

From stdpp Require Import base list strings.
From Stdlib Require Import ZArith.
From S2P Require Import Prelude Mimetype.

#[local] Set Warnings "-register-all".

(** The values of [json.loads]: [None], [bool], [int] (JSON numbers are
    integers in this model), [str], [list] and [dict], the latter as the
    list of members in the order of the text. *)
Inductive json : Type :=
| JNull
| JBool (b : bool)
| JNum (z : Z)
| JStr (s : string)
| JArr (l : list json)
| JObj (kvs : list (string * json)).

(** [bool(v)]: [None], [False], [0], [""], [[]] and [{}] are falsy. *)
Definition truthy (v : json) : bool :=
  match v with
  | JNull => false
  | JBool b => b
  | JNum z => negb (Z.eqb z 0)
  | JStr s => negb (String.eqb s "")
  | JArr l => match l with [] => false | _ => true end
  | JObj kvs => match kvs with [] => false | _ => true end
  end.

(** [v is None] *)
Definition is_none (v : json) : bool :=
  match v with JNull => true | _ => false end.

(** The value a key has in the dict built by [json.loads] from the
    members [kvs]: a later member with the same key overwrites an earlier
    one. *)
Fixpoint obj_get (k : string) (kvs : list (string * json)) : option json :=
  match kvs with
  | [] => None
  | (k', v) :: rest =>
      match obj_get k rest with
      | Some v' => Some v'
      | None => if String.eqb k k' then Some v else None
      end
  end.

(** [data.get(k)]: [None] (the Python exception [AttributeError]) when
    [data] is not a dict; otherwise the value, or Python's [None] when the
    key is absent. *)
Definition py_get (data : json) (k : string) : option json :=
  match data with
  | JObj kvs => Some (default JNull (obj_get k kvs))
  | _ => None
  end.

(** An HTTP request as [receive_data] sees it: its [Content-Type]
    header ([""] when absent), and the body as [get_json()] would parse
    it ([None] when it is not valid JSON, where Flask raises
    [BadRequest]). *)
Record request : Type := mkRequest {
  req_content_type : string;
  req_body : option json
}.

(** [request.is_json] (line 45): a test of the header, not of the
    body. *)
Definition req_is_json (rq : request) : bool := is_json_mimetype (req_content_type rq).

(** ** Lemmas *)

Lemma obj_get_app_last k v kvs :
  obj_get k (kvs ++ [(k, v)]) = Some v.
Proof.
  induction kvs as [|[k' v'] kvs IH]; simpl.
  - by rewrite String.eqb_refl.
  - by rewrite IH.
Qed.

Lemma obj_get_single k v : obj_get k [(k, v)] = Some v.
Proof. apply (obj_get_app_last k v []). Qed.

Lemma obj_get_other k k' v kvs :
  k <> k' -> obj_get k ((k', v) :: kvs) = obj_get k kvs.
Proof.
  intros Hne. simpl. destruct (obj_get k kvs); [done|].
  destruct (String.eqb_spec k k'); congruence.
Qed.

Lemma truthy_str s : truthy (JStr s) = true <-> s <> "".
Proof.
  simpl. destruct (String.eqb_spec s ""); simpl; split; congruence.
Qed.

