(* ===== verification/Literal.v ===== *)
(** * SQL literals: how a parameter reaches PostgreSQL

    [cursor.execute(query, params)] (src/server.py, lines 68, 79, 88)
    does not send the parameters apart from the query: psycopg2 adapts
    each Python value to the text of an SQL literal
    ([adapt(v).getquoted()]), refuses the values it cannot adapt, and
    substitutes the literals for the [%s] of the query with its own
    [%]-formatting.  PostgreSQL reads the literals back with its lexer
    and gives them the type of the context: a text column for
    [sensor_id], a numeric column for [water_percentage].  This file
    models the literal of each value ([sql_literal]: Python's [str] of
    an [int], the quoting of a [str] with [standard_conforming_strings]
    on, the refusal of a NUL character), the lexer of a literal
    ([lex_param]), and the typing that decides what the handler's
    statements see ([adapt_text], [adapt_numeric]).  The formatting of
    a whole query is in [Query.v]. *)

From stdpp Require Import base list strings.
From Stdlib Require Import ZArith Lia Ascii.
From Stdlib Require Import DecimalString DecimalPos DecimalZ.
From S2P Require Import Prelude Mimetype Json.

#[local] Set Warnings "-register-all".

Open Scope Z_scope.

(** ** Python's [str] of an [int] *)

(** The canonical decimal spelling: a [-] for a negative number, no
    leading zero, ["0"] for zero. *)
Definition py_str_int (z : Z) : string := NilZero.string_of_int (Z.to_int z).

(** ** Reading digits *)

Definition is_digit (c : ascii) : bool :=
  let n := Ascii.nat_of_ascii c in (48 <=? n)%nat && (n <=? 57)%nat.

Definition digit_value (c : ascii) : option Z :=
  if is_digit c then Some (Z.of_nat (Ascii.nat_of_ascii c) - 48) else None.

(** All of [s] as digits, after the value [acc] already read. *)
Fixpoint parse_digits (acc : Z) (s : string) : option Z :=
  match s with
  | EmptyString => Some acc
  | String c rest =>
      match digit_value c with
      | Some d => parse_digits (10 * acc + d) rest
      | None => None
      end
  end.

(** PostgreSQL's input of a string as an integer: an optional sign and
    at least one digit. *)
Definition parse_int (s : string) : option Z :=
  match s with
  | String "-"%char (String c rest) =>
      option_map Z.opp (parse_digits 0 (String c rest))
  | String "+"%char (String c rest) => parse_digits 0 (String c rest)
  | EmptyString => None
  | _ => parse_digits 0 s
  end.

(** [numeric_in] skips [isspace] characters of the C locale (tab,
    newline, vertical tab, form feed, carriage return, space) before and
    after the number. *)
Definition pg_space (c : ascii) : bool :=
  let n := Ascii.nat_of_ascii c in ((9 <=? n)%nat && (n <=? 13)%nat) || (n =? 32)%nat.

Fixpoint pg_ltrim (s : string) : string :=
  match s with
  | String c s' => if pg_space c then pg_ltrim s' else s
  | EmptyString => EmptyString
  end.

Fixpoint pg_rtrim (s : string) : string :=
  match s with
  | EmptyString => EmptyString
  | String c s' =>
      let r := pg_rtrim s' in
      if pg_space c && String.eqb r EmptyString then EmptyString else String c r
  end.

Definition pg_trim (s : string) : string := pg_rtrim (pg_ltrim s).

(** The words [numeric_in] reads as special values, in any case:
    [NaN], and [Infinity] with its sign (the short [inf] since
    PostgreSQL 14). *)
Definition pg_numeric_word (s : string) : bool :=
  bool_decide (lower (pg_trim s) ∈
    ["nan"; "infinity"; "+infinity"; "-infinity"; "inf"; "+inf"; "-inf"]).

(** The value of decimal digits read after [acc], most significant
    first, as [Pos.of_uint_acc] reads them. *)
Fixpoint uint_value (acc : Z) (d : Decimal.uint) : Z :=
  match d with
  | Decimal.Nil => acc
  | Decimal.D0 d => uint_value (10 * acc) d
  | Decimal.D1 d => uint_value (10 * acc + 1) d
  | Decimal.D2 d => uint_value (10 * acc + 2) d
  | Decimal.D3 d => uint_value (10 * acc + 3) d
  | Decimal.D4 d => uint_value (10 * acc + 4) d
  | Decimal.D5 d => uint_value (10 * acc + 5) d
  | Decimal.D6 d => uint_value (10 * acc + 6) d
  | Decimal.D7 d => uint_value (10 * acc + 7) d
  | Decimal.D8 d => uint_value (10 * acc + 8) d
  | Decimal.D9 d => uint_value (10 * acc + 9) d
  end.

(** ** Lemmas on digits *)

Lemma uint_value_pos acc d :
  uint_value (Z.pos acc) d = Z.pos (Pos.of_uint_acc d acc).
Proof.
  revert acc. induction d; intros acc; simpl; rewrite <-?IHd; f_equal; lia.
Qed.

Lemma uint_value_of_uint d : uint_value 0 d = Z.of_uint d.
Proof.
  induction d; [done|..]; cbn [uint_value];
  match goal with
  | |- uint_value ?a _ = _ => let v := eval vm_compute in a in change a with v
  end; [exact IHd|..]; by rewrite uint_value_pos.
Qed.

Lemma uint_value_to_uint p : uint_value 0 (Pos.to_uint p) = Z.pos p.
Proof.
  rewrite uint_value_of_uint. unfold Z.of_uint. by rewrite DecimalPos.Unsigned.of_to.
Qed.

Lemma string_of_uint_nonnil p :
  exists c rest, NilEmpty.string_of_uint (Pos.to_uint p) = String c rest /\ is_digit c = true.
Proof.
  pose proof (DecimalPos.Unsigned.to_uint_nonnil p) as Hn.
  destruct (Pos.to_uint p); [done|..]; simpl; eexists _, _; split; reflexivity.
Qed.

Lemma string_of_uint_pos p :
  NilZero.string_of_uint (Pos.to_uint p) = NilEmpty.string_of_uint (Pos.to_uint p).
Proof.
  pose proof (DecimalPos.Unsigned.to_uint_nonnil p).
  by destruct (Pos.to_uint p).
Qed.

(** ** The literal psycopg2 writes for a value *)

Definition nul : ascii := Ascii.ascii_of_nat 0.

Fixpoint has_nul (s : string) : bool :=
  match s with
  | EmptyString => false
  | String c s' => Ascii.eqb c nul || has_nul s'
  end.

(** libpq's [PQescapeStringConn] with [standard_conforming_strings] on:
    a quote is doubled, every other character is kept. *)
Fixpoint escape_quotes (s : string) : string :=
  match s with
  | EmptyString => EmptyString
  | String c s' =>
      if Ascii.eqb c "'" then String "'" (String "'" (escape_quotes s'))
      else String c (escape_quotes s')
  end.

(** [QuotedString(s).getquoted()]: [ValueError] on a NUL character,
    else the escaped text between quotes. *)
Definition quote_str (s : string) : option string :=
  if has_nul s then None else Some (String "'" (escape_quotes s +:+ "'")).

(** The [int] adapter: [str(z)], with a space before a negative number
    so that [-%s] never reads as a comment [--]. *)
Definition int_literal (z : Z) : string :=
  if z <? 0 then String " " (py_str_int z) else py_str_int z.

Fixpoint join_comma (l : list string) : string :=
  match l with
  | [] => EmptyString
  | [x] => x
  | x :: l' => x +:+ String "," (join_comma l')
  end.

(** [adapt(v).getquoted()] for the values [json.loads] builds: [None]
    is [NULL], a [bool] is [true] or [false], an empty [list] is
    ['{}'], a non-empty one an [ARRAY[...]] of the literals of its
    items, and a [dict] cannot be adapted ([ProgrammingError]). *)
Fixpoint sql_literal (v : json) : option string :=
  match v with
  | JNull => Some "NULL"
  | JBool b => Some (if b then "true" else "false")
  | JNum z => Some (int_literal z)
  | JStr s => quote_str s
  | JArr [] => Some "'{}'"
  | JArr l =>
      let fix items (l : list json) : option (list string) :=
        match l with
        | [] => Some []
        | x :: l' =>
            match sql_literal x, items l' with
            | Some a, Some b => Some (a :: b)
            | _, _ => None
            end
        end in
      match items l with
      | Some ls => Some ("ARRAY[" +:+ join_comma ls +:+ "]")
      | None => None
      end
  | JObj _ => None
  end.

(** ** PostgreSQL's lexer, on the text where a parameter stands *)

(** The token a literal is read as: a string constant, a number (with
    its unary minus), a keyword, or a string constant with a cast. *)
Inductive sql_token : Type :=
| TStr (s : string)
| TNum (z : Z)
| TWord (w : string)
| TCast (s ty : string).

#[export] Instance sql_token_eq_dec : EqDecision sql_token.
Proof. solve_decision. Defined.

Definition is_letter (c : ascii) : bool :=
  let n := Ascii.nat_of_ascii c in
  ((65 <=? n)%nat && (n <=? 90)%nat) || ((97 <=? n)%nat && (n <=? 122)%nat) || (n =? 95)%nat.

Fixpoint skip_spaces (s : string) : string :=
  match s with
  | String " "%char s' => skip_spaces s'
  | _ => s
  end.

(** The rest of a string constant after its opening quote: [''] stands
    for a quote, a lone quote closes the constant. *)
Fixpoint lex_quoted (s : string) : option (string * string) :=
  match s with
  | EmptyString => None
  | String "'"%char (String "'"%char s') =>
      option_map (fun '(v, r) => (String "'" v, r)) (lex_quoted s')
  | String "'"%char s' => Some (EmptyString, s')
  | String c s' => option_map (fun '(v, r) => (String c v, r)) (lex_quoted s')
  end.

(** The longest run of digits, read after [acc]. *)
Fixpoint lex_digits (acc : Z) (s : string) : Z * string :=
  match s with
  | String c s' =>
      match digit_value c with
      | Some d => lex_digits (10 * acc + d) s'
      | None => (acc, s)
      end
  | EmptyString => (acc, s)
  end.

(** The longest run of identifier characters. *)
Fixpoint lex_word (s : string) : string * string :=
  match s with
  | String c s' =>
      if is_letter c || is_digit c then let '(w, r) := lex_word s' in (String c w, r)
      else (EmptyString, s)
  | EmptyString => (EmptyString, EmptyString)
  end.

(** After a string constant: a cast [::type], or nothing. *)
Definition after_quoted (v r : string) : sql_token * string :=
  match r with
  | String ":"%char (String ":"%char r') => let '(ty, r'') := lex_word r' in (TCast v ty, r'')
  | _ => (TStr v, r)
  end.

(** One literal and the text after it. *)
Definition lex_param (s : string) : option (sql_token * string) :=
  match skip_spaces s with
  | String "'"%char s' =>
      match lex_quoted s' with
      | Some (v, r) => Some (after_quoted v r)
      | None => None
      end
  | String "-"%char (String c s') =>
      if is_digit c then let '(n, r) := lex_digits 0 (String c s') in Some (TNum (- n), r)
      else None
  | String c s' =>
      if is_digit c then let '(n, r) := lex_digits 0 (String c s') in Some (TNum n, r)
      else if is_letter c then let '(w, r) := lex_word (String c s') in Some (TWord w, r)
      else None
  | EmptyString => None
  end.

(** ** The type the statement gives the parameter *)

(** [sensor_id = %s] and the [sensor_id] column: a string constant is
    text; a number, a boolean or an array is a type error. *)
Definition text_param (t : sql_token) : option string :=
  match t with TStr s => Some s | _ => None end.

(** The numeric column [water_percentage]: a number, or a string
    constant that reads as an integer between whitespace.  A decimal, an
    exponent, [NaN] or [Infinity] that [numeric_in] also accepts is not
    modelled: it reads as [None] here. *)
Definition numeric_param (t : sql_token) : option Z :=
  match t with TNum z => Some z | TStr s => parse_int (pg_trim s) | _ => None end.

(** The token of a literal standing alone. *)
Definition read_param (lit : string) : option sql_token :=
  match lex_param lit with Some (t, EmptyString) => Some t | _ => None end.

(** What PostgreSQL binds for a parameter of the handler, [None] when
    psycopg2 or the server raises.  [None] of Python never reaches
    these (the handler's guard). *)
Definition bind_param (v : json) : option sql_token :=
  match sql_literal v with Some lit => read_param lit | None => None end.

Definition adapt_text (v : json) : option string :=
  match bind_param v with Some t => text_param t | None => None end.

Definition adapt_numeric (v : json) : option Z :=
  match bind_param v with Some t => numeric_param t | None => None end.

(** The values a numeric column refuses in every PostgreSQL version,
    whatever [numeric_in] accepts beyond integers: a string without a
    digit that is not a special word, a boolean ([true] is no number),
    an array ([ARRAY[...]] or ['{}']), and a [dict] psycopg2 cannot
    adapt. *)
Definition numeric_rejected (v : json) : bool :=
  match v with
  | JStr s => str_forall (fun c => negb (is_digit c)) s && negb (pg_numeric_word s)
  | JBool _ | JArr _ | JObj _ => true
  | JNull | JNum _ => false
  end.

(** A text without a quote character. *)
Fixpoint quote_free (s : string) : bool :=
  match s with
  | EmptyString => true
  | String c s' => negb (Ascii.eqb c "'") && quote_free s'
  end.

(** The text after a parameter cannot extend its literal: it is empty
    or starts with a character that ends a token (a space, a newline,
    [,], [)], [;]). *)
Definition delim_start (rest : string) : bool :=
  match rest with
  | EmptyString => true
  | String c _ => negb (is_digit c || is_letter c || Ascii.eqb c "'" || Ascii.eqb c ":")
  end.

(** The token a scalar value's literal stands for. *)
Definition scalar_token (v : json) : option sql_token :=
  match v with
  | JNull => Some (TWord "NULL")
  | JBool b => Some (TWord (if b then "true" else "false"))
  | JNum z => Some (TNum z)
  | JStr s => Some (TStr s)
  | JArr [] => Some (TStr "{}")
  | _ => None
  end.

(** ** Lemmas on the lexer *)

(** The text after a closing quote does not start with a quote. *)
Definition quote_stop (r : string) : bool :=
  match r with String c _ => negb (Ascii.eqb c "'") | EmptyString => true end.

Lemma delim_quote_stop r : delim_start r = true -> quote_stop r = true.
Proof. destruct r as [|c r]; [done|]. simpl. by destruct (Ascii.eqb c "'"), (is_digit c || is_letter c). Qed.

Lemma lex_quoted_close r :
  quote_stop r = true -> lex_quoted (String "'" r) = Some (EmptyString, r).
Proof. destruct r as [|c r]; [done|]. by ascii_cases c. Qed.

Lemma lex_quoted_other c r :
  Ascii.eqb c "'" = false ->
  lex_quoted (String c r) = option_map (fun '(v, r') => (String c v, r')) (lex_quoted r).
Proof. by ascii_cases c. Qed.

Lemma lex_quoted_escape s r :
  quote_stop r = true -> lex_quoted (escape_quotes s +:+ String "'" r) = Some (s, r).
Proof.
  intros Hr. induction s as [|c s IH]; [by apply lex_quoted_close|].
  simpl. destruct (Ascii.eqb c "'") eqn:Hc.
  - apply Ascii.eqb_eq in Hc as ->. rewrite !str_app_cons. simpl. by rewrite IH.
  - rewrite str_app_cons, lex_quoted_other, IH by done. done.
Qed.

Lemma lex_digits_stop acc r : delim_start r = true -> lex_digits acc r = (acc, r).
Proof.
  destruct r as [|c r]; [done|]. simpl. unfold digit_value.
  destruct (is_digit c); [done|]. done.
Qed.

(** Normalise the value of a concrete digit. *)
Ltac digit_norm :=
  repeat match goal with
  | |- context [Z.of_nat (nat_of_ascii ?c)] =>
      let v := eval vm_compute in (Z.of_nat (nat_of_ascii c)) in
      change (Z.of_nat (nat_of_ascii c)) with v
  end.

Lemma lex_digits_uint acc d r :
  delim_start r = true ->
  lex_digits acc (NilEmpty.string_of_uint d +:+ r) = (uint_value acc d, r).
Proof.
  intros Hr. revert acc. induction d; intros acc; [by apply lex_digits_stop|..];
    simpl; rewrite IHd; digit_norm; do 2 f_equal; lia.
Qed.

Lemma lex_word_stop r : delim_start r = true -> lex_word r = (EmptyString, r).
Proof.
  destruct r as [|c r]; [done|]. simpl.
  destruct (is_digit c), (is_letter c); done.
Qed.

Lemma after_quoted_delim v r : delim_start r = true -> after_quoted v r = (TStr v, r).
Proof. destruct r as [|c r]; [done|]. by ascii_cases c. Qed.

Lemma lex_param_digit c s :
  is_digit c = true ->
  lex_param (String c s) = let '(n, r) := lex_digits 0 (String c s) in Some (TNum n, r).
Proof. by ascii_cases c. Qed.

Lemma lex_param_minus c s :
  lex_param (String " " (String "-" (String c s))) =
  if is_digit c then let '(n, r) := lex_digits 0 (String c s) in Some (TNum (- n), r) else None.
Proof. reflexivity. Qed.

Lemma lex_param_letter c s :
  is_letter c = true -> is_digit c = false ->
  lex_param (String c s) = let '(w, r) := lex_word (String c s) in Some (TWord w, r).
Proof. by ascii_cases c. Qed.

Lemma lex_word_cons c s :
  is_letter c = true -> lex_word (String c s) = let '(w, r) := lex_word s in (String c w, r).
Proof. intros Hc. simpl. by rewrite Hc. Qed.

(** Read a keyword spelled out in front of a delimiter. *)
Ltac lex_keyword :=
  rewrite !str_app_cons, lex_param_letter by reflexivity;
  rewrite !lex_word_cons by reflexivity; rewrite lex_word_stop by done; reflexivity.

Lemma lex_param_pos p rest :
  delim_start rest = true ->
  lex_param (NilZero.string_of_uint (Pos.to_uint p) +:+ rest) = Some (TNum (Z.pos p), rest).
Proof.
  intros Hr. rewrite string_of_uint_pos.
  destruct (string_of_uint_nonnil p) as (c & r0 & Hs & Hd).
  rewrite Hs, str_app_cons, lex_param_digit, <-str_app_cons, <-Hs by done.
  by rewrite (lex_digits_uint 0 _ rest Hr), uint_value_to_uint.
Qed.

Lemma lex_param_neg p rest :
  delim_start rest = true ->
  lex_param (String " " (String "-" (NilZero.string_of_uint (Pos.to_uint p))) +:+ rest) =
  Some (TNum (Z.neg p), rest).
Proof.
  intros Hr. rewrite string_of_uint_pos.
  destruct (string_of_uint_nonnil p) as (c & r0 & Hs & Hd).
  rewrite Hs, !str_app_cons, lex_param_minus, Hd, <-str_app_cons, <-Hs.
  by rewrite (lex_digits_uint 0 _ rest Hr), uint_value_to_uint.
Qed.

Lemma lex_param_quote s rest :
  delim_start rest = true ->
  lex_param (String "'" (escape_quotes s +:+ "'") +:+ rest) = Some (TStr s, rest).
Proof.
  intros Hr. autorewrite with str. unfold lex_param. simpl.
  by rewrite lex_quoted_escape, after_quoted_delim by auto using delim_quote_stop.
Qed.

(** A scalar's literal followed by a delimiter is read back as the
    scalar's token, whatever the text after it. *)
Lemma lex_param_literal v lit tok rest :
  sql_literal v = Some lit -> scalar_token v = Some tok -> delim_start rest = true ->
  lex_param (lit +:+ rest) = Some (tok, rest).
Proof.
  intros Hlit Htok Hr.
  destruct v as [|b|z|s|[|x l]|kvs]; simplify_eq/=.
  - lex_keyword.
  - destruct b; lex_keyword.
  - destruct z as [|p|p].
    + change (lex_param (String "0" rest) = Some (TNum 0, rest)).
      rewrite lex_param_digit by reflexivity.
      change (lex_digits 0 (String "0" rest)) with (lex_digits 0 rest).
      by rewrite lex_digits_stop.
    + exact (lex_param_pos p rest Hr).
    + exact (lex_param_neg p rest Hr).
  - unfold quote_str in Hlit. destruct (has_nul s); simplify_eq. by apply lex_param_quote.
  - by apply (lex_param_quote "{}").
Qed.

Lemma read_param_literal v lit tok :
  sql_literal v = Some lit -> scalar_token v = Some tok -> read_param lit = Some tok.
Proof.
  intros Hlit Htok. unfold read_param.
  by rewrite <-(str_app_nil_r lit), (lex_param_literal v lit tok EmptyString).
Qed.

Lemma bind_param_scalar v lit tok :
  sql_literal v = Some lit -> scalar_token v = Some tok -> bind_param v = Some tok.
Proof. intros Hlit Htok. unfold bind_param. rewrite Hlit. by eapply read_param_literal. Qed.

Lemma sql_literal_str s : has_nul s = false -> sql_literal (JStr s) = quote_str s.
Proof. done. Qed.

Lemma quote_str_ok s : has_nul s = false -> quote_str s = Some (String "'" (escape_quotes s +:+ "'")).
Proof. unfold quote_str. by intros ->. Qed.

Lemma adapt_text_str s : adapt_text (JStr s) = if has_nul s then None else Some s.
Proof.
  destruct (has_nul s) eqn:Hn.
  - unfold adapt_text, bind_param. simpl. unfold quote_str. by rewrite Hn.
  - unfold adapt_text. rewrite (bind_param_scalar (JStr s) _ (TStr s) (quote_str_ok s Hn)); done.
Qed.

Lemma adapt_numeric_str s :
  adapt_numeric (JStr s) = if has_nul s then None else parse_int (pg_trim s).
Proof.
  destruct (has_nul s) eqn:Hn.
  - unfold adapt_numeric, bind_param. simpl. unfold quote_str. by rewrite Hn.
  - unfold adapt_numeric. rewrite (bind_param_scalar (JStr s) _ (TStr s) (quote_str_ok s Hn)); done.
Qed.

Lemma adapt_numeric_num z : adapt_numeric (JNum z) = Some z.
Proof. unfold adapt_numeric. by rewrite (bind_param_scalar (JNum z) (int_literal z) (TNum z)). Qed.

(** Only a string without NUL is bound as text, among the values that
    pass the handler's truthiness test. *)
Lemma adapt_text_some v s :
  truthy v = true -> adapt_text v = Some s -> v = JStr s /\ has_nul s = false.
Proof.
  intros Ht Hs. destruct v as [|b|z|s'|[|x l]|kvs]; try discriminate.
  - destruct b; discriminate.
  - unfold adapt_text in Hs. by rewrite (bind_param_scalar (JNum z) (int_literal z) (TNum z)) in Hs.
  - rewrite adapt_text_str in Hs. destruct (has_nul s') eqn:?; by simplify_eq.
  - unfold adapt_text, bind_param in Hs. simpl in Hs.
    repeat case_match; simplify_eq/=; done.
Qed.

Lemma adapt_text_ok s : has_nul s = false -> adapt_text (JStr s) = Some s.
Proof. intros Hn. by rewrite adapt_text_str, Hn. Qed.

(** ** What the numeric column refuses *)

Lemma str_forall_pg_ltrim p s : str_forall p s = true -> str_forall p (pg_ltrim s) = true.
Proof.
  induction s as [|c s IH]; [done|]. simpl. intros [Hc Hs]%andb_true_iff.
  destruct (pg_space c); [by apply IH|]. simpl. by rewrite Hc, Hs.
Qed.

Lemma str_forall_pg_rtrim p s : str_forall p s = true -> str_forall p (pg_rtrim s) = true.
Proof.
  induction s as [|c s IH]; [done|]. simpl. intros [Hc Hs]%andb_true_iff.
  case_match; [done|]. simpl. by rewrite Hc, IH.
Qed.

Lemma parse_digits_nondigit acc c s : is_digit c = false -> parse_digits acc (String c s) = None.
Proof. simpl. unfold digit_value. by intros ->. Qed.

(** [parse_int] reads no number from a text without a digit. *)
Lemma parse_int_no_digit s :
  str_forall (fun c => negb (is_digit c)) s = true -> parse_int s = None.
Proof.
  destruct s as [|a [|b s]]; [done|..]; intros Hs; simpl in Hs.
  - assert (parse_int (String a EmptyString) = parse_digits 0 (String a EmptyString)) as ->
      by (ascii_cases a; reflexivity).
    apply parse_digits_nondigit. by destruct (is_digit a).
  - assert (parse_int (String a (String b s)) =
      if Ascii.eqb a "-" then option_map Z.opp (parse_digits 0 (String b s))
      else if Ascii.eqb a "+" then parse_digits 0 (String b s)
      else parse_digits 0 (String a (String b s))) as -> by (ascii_cases a; reflexivity).
    apply andb_true_iff in Hs as [Ha [Hb _]%andb_true_iff]. apply negb_true_iff in Ha, Hb.
    rewrite !parse_digits_nondigit by done. by destruct (Ascii.eqb a "-"), (Ascii.eqb a "+").
Qed.

(** A non-empty list is written as an [ARRAY[...]] constructor. *)
Lemma sql_literal_array x l lit :
  sql_literal (JArr (x :: l)) = Some lit -> exists m, lit = "ARRAY[" +:+ m.
Proof. simpl. intros H. repeat case_match; simplify_eq; eauto. Qed.

(** A value the numeric column refuses is not bound. *)
Lemma numeric_rejected_adapt v : numeric_rejected v = true -> adapt_numeric v = None.
Proof.
  destruct v as [| b | z | s | [|x l] | kvs]; simpl; try done; intros Hr.
  - by destruct b.
  - apply andb_true_iff in Hr as [Hs _]. rewrite adapt_numeric_str. case_match; [done|].
    by apply parse_int_no_digit, str_forall_pg_rtrim, str_forall_pg_ltrim.
  - unfold adapt_numeric, bind_param.
    destruct (sql_literal (JArr (x :: l))) as [lit|] eqn:Hl; [|done].
    destruct (sql_literal_array x l lit Hl) as [m ->]. by unfold read_param; simpl.
Qed.
