(* ===== verification/Calendar.v ===== *)
(** * Python's [datetime] and the handler's clock

    [current_time = datetime.now()] (src/server.py, line 49) is a
    [datetime]: a proleptic Gregorian date and a time of day, stored by
    Python as fields and computed with through the ordinal of the date
    (days since 0001-01-01, which is ordinal 1).  The rest of the
    development takes the clock as an integer number of microseconds
    since 0001-01-01T00:00:00.  This file models CPython's calendar
    functions ([_is_leap], [_days_before_year], [_days_before_month],
    [_ymd2ord], [_ord2ymd]) and [datetime + timedelta] with its
    [OverflowError], and shows that the integer clock is exact: the
    ordinal of the date [_ord2ymd] computes is the ordinal it was given,
    and [current_time - timedelta(minutes=1)] (line 59) is the datetime
    of [t - minute], or [OverflowError] when that is before year 1.
    psycopg2 sends a [datetime] as the text of [isoformat()], which holds
    no quote character ([to_datetime_quote_free], used by [Query.v]).
    PostgreSQL's reading of that text back as the clock is not modelled:
    the rest of the development stores the clock itself. *)

From stdpp Require Import base list strings.
From Stdlib Require Import ZArith Lia Ascii.
From S2P Require Import Prelude Mimetype Literal.

#[local] Set Warnings "-register-all".

Open Scope Z_scope.

(** ** The calendar *)

(** [_is_leap(year)]. *)
Definition is_leap (y : Z) : bool :=
  (y mod 4 =? 0) && (negb (y mod 100 =? 0) || (y mod 400 =? 0)).

(** [_DAYS_IN_MONTH] and [_DAYS_BEFORE_MONTH], indexed from 1. *)
Definition days_in_month_tbl (m : Z) : Z :=
  match m with
  | 1 => 31 | 2 => 28 | 3 => 31 | 4 => 30 | 5 => 31 | 6 => 30
  | 7 => 31 | 8 => 31 | 9 => 30 | 10 => 31 | 11 => 30 | 12 => 31 | _ => -1
  end.

Definition days_before_month_tbl (m : Z) : Z :=
  match m with
  | 1 => 0 | 2 => 31 | 3 => 59 | 4 => 90 | 5 => 120 | 6 => 151
  | 7 => 181 | 8 => 212 | 9 => 243 | 10 => 273 | 11 => 304 | 12 => 334 | _ => -1
  end.

Definition b2z (b : bool) : Z := if b then 1 else 0.

(** [_days_before_year(year)]. *)
Definition days_before_year (y : Z) : Z :=
  let y' := y - 1 in y' * 365 + y' / 4 - y' / 100 + y' / 400.

(** [_days_in_month(year, month)]. *)
Definition days_in_month (y m : Z) : Z :=
  if (m =? 2) && is_leap y then 29 else days_in_month_tbl m.

(** [_days_before_month(year, month)]. *)
Definition days_before_month (y m : Z) : Z :=
  days_before_month_tbl m + b2z ((2 <? m) && is_leap y).

(** [_ymd2ord(year, month, day)]. *)
Definition ymd2ord (y m d : Z) : Z :=
  days_before_year y + days_before_month y m + d.

(** The month of the [n]-th day (from 0) of a year and the days before
    it: the estimate [(n + 50) >> 5] of [_ord2ymd], corrected once. *)
Definition month_of (n : Z) (leapyear : bool) : Z * Z :=
  let month := Z.shiftr (n + 50) 5 in
  let preceding := days_before_month_tbl month + b2z ((2 <? month) && leapyear) in
  if n <? preceding then
    let month := month - 1 in
    (month, preceding - (days_in_month_tbl month + b2z ((month =? 2) && leapyear)))
  else (month, preceding).

(** [_ord2ymd(n)]: the 400-, 100-, 4- and 1-year cycles, the last day
    of a 4- or 400-year cycle, then the month. *)
Definition ord2ymd (n : Z) : Z * Z * Z :=
  let n := n - 1 in
  let n400 := n / 146097 in
  let n := n mod 146097 in
  let n100 := n / 36524 in
  let n := n mod 36524 in
  let n4 := n / 1461 in
  let n := n mod 1461 in
  let n1 := n / 365 in
  let n := n mod 365 in
  let year := n400 * 400 + 1 + (n100 * 100 + n4 * 4 + n1) in
  if (n1 =? 4) || (n100 =? 4) then (year - 1, 12, 31)
  else
    let leapyear := (n1 =? 3) && (negb (n4 =? 24) || (n100 =? 3)) in
    let '(month, preceding) := month_of n leapyear in
    (year, month, n - preceding + 1).

(** ** [datetime] *)

Definition day_us : Z := 86400000000.

(** [date.max.toordinal()]: 9999-12-31. *)
Definition max_ordinal : Z := 3652059.

Record datetime : Type := mkDatetime {
  dt_year : Z; dt_month : Z; dt_day : Z;
  dt_hour : Z; dt_minute : Z; dt_second : Z; dt_micro : Z
}.

(** The datetime of day [ordinal] and [us] microseconds into it, as
    [datetime.__add__] builds it: [hour, rem = divmod(seconds, 3600)],
    [minute, second = divmod(rem, 60)]. *)
Definition of_ordinal (ordinal us : Z) : datetime :=
  let '(y, m, d) := ord2ymd ordinal in
  let secs := us / 1000000 in
  let rem := secs mod 3600 in
  mkDatetime y m d (secs / 3600) (rem / 60) (rem mod 60) (us mod 1000000).

(** [dt + timedelta(microseconds=delta)]: the sum as a [timedelta] of
    the ordinal and the time of day, renormalised; [None] is
    [OverflowError("result out of range")]. *)
Definition dt_add (x : datetime) (delta : Z) : option datetime :=
  let total := ymd2ord (dt_year x) (dt_month x) (dt_day x) * day_us +
               dt_hour x * 3600000000 + dt_minute x * 60000000 +
               dt_second x * 1000000 + dt_micro x + delta in
  let days := total / day_us in
  if (0 <? days) && (days <=? max_ordinal) then Some (of_ordinal days (total mod day_us))
  else None.

(** The datetime of the integer clock: [t] microseconds after
    0001-01-01T00:00:00. *)
Definition to_datetime (t : Z) : datetime := of_ordinal (t / day_us + 1) (t mod day_us).

(** [one_minute_ago = current_time - timedelta(minutes=1)] (line 59). *)
Definition one_minute_ago_dt (current_time : datetime) : option datetime :=
  dt_add current_time (- 60000000).

(** The microseconds since 0001-01-01T00:00:00 of a datetime. *)
Definition dt_micros (x : datetime) : Z :=
  (ymd2ord (dt_year x) (dt_month x) (dt_day x) - 1) * day_us +
  dt_hour x * 3600000000 + dt_minute x * 60000000 + dt_second x * 1000000 + dt_micro x.

(** ** The text of a [datetime] *)

Definition digit_char (d : Z) : ascii := Ascii.ascii_of_nat (Z.to_nat (48 + d)).

(** ["%0wd" % z] for [0 <= z < 10 ^ w]: [w] digits, the most
    significant first. *)
Fixpoint pad (w : nat) (z : Z) : string :=
  match w with
  | O => EmptyString
  | S w' => String (digit_char (z / 10 ^ Z.of_nat w')) (pad w' (z mod 10 ^ Z.of_nat w'))
  end.

(** [datetime.isoformat()]: ["%04d-%02d-%02dT%02d:%02d:%02d"], and
    [".%06d"] of the microseconds when they are not zero. *)
Definition isoformat (x : datetime) : string :=
  pad 4 (dt_year x) +:+ "-" +:+ pad 2 (dt_month x) +:+ "-" +:+ pad 2 (dt_day x) +:+ "T" +:+
  pad 2 (dt_hour x) +:+ ":" +:+ pad 2 (dt_minute x) +:+ ":" +:+ pad 2 (dt_second x) +:+
  (if dt_micro x =? 0 then EmptyString else "." +:+ pad 6 (dt_micro x)).

(** ** Lemmas *)

(** The month of every day of a year, for both kinds of year, checked
    once. *)
Definition month_ok (n : Z) (leapyear : bool) : bool :=
  let '(m, pre) := month_of n leapyear in
  (1 <=? m) && (m <=? 12) && (pre =? days_before_month_tbl m + b2z ((2 <? m) && leapyear)) &&
  (0 <=? n - pre) && (n - pre <? days_in_month_tbl m + b2z ((m =? 2) && leapyear)).

Lemma month_ok_all :
  forallb (fun k => month_ok (Z.of_nat k) true && month_ok (Z.of_nat k) false) (seq 0 365) = true.
Proof. vm_compute. reflexivity. Qed.

Lemma month_of_spec n leapyear :
  0 <= n < 365 ->
  let '(m, pre) := month_of n leapyear in
  1 <= m <= 12 /\ pre = days_before_month_tbl m + b2z ((2 <? m) && leapyear) /\
  0 <= n - pre < days_in_month_tbl m + b2z ((m =? 2) && leapyear).
Proof.
  intros Hn. pose proof month_ok_all as Hall. rewrite forallb_forall in Hall.
  specialize (Hall (Z.to_nat n)). rewrite in_seq in Hall. specialize (Hall ltac:(lia)).
  rewrite Z2Nat.id in Hall by lia. apply andb_true_iff in Hall as [Ht Hf].
  assert (month_ok n leapyear = true) as Hok by (by destruct leapyear).
  unfold month_ok in Hok. destruct (month_of n leapyear) as [m pre].
  repeat rewrite andb_true_iff in Hok. rewrite !Z.leb_le, Z.eqb_eq, Z.ltb_lt in Hok. lia.
Qed.

(** The leap years of a 400-year cycle, checked once. *)
Definition leap_offsets_ok : bool :=
  forallb (fun b => forallb (fun c => forallb (fun d =>
    Bool.eqb (is_leap (100 * Z.of_nat b + 4 * Z.of_nat c + Z.of_nat d + 1))
      ((Z.of_nat d =? 3) && (negb (Z.of_nat c =? 24) || (Z.of_nat b =? 3))))
    (seq 0 4)) (seq 0 25)) (seq 0 4).

Lemma leap_offsets_ok_true : leap_offsets_ok = true.
Proof. vm_compute. reflexivity. Qed.

Lemma is_leap_cycle y a : is_leap (y + 400 * a) = is_leap y.
Proof.
  unfold is_leap.
  replace (y + 400 * a) with (y + (100 * a) * 4) by ring. rewrite Z.mod_add by lia.
  replace (y + 100 * a * 4) with (y + (4 * a) * 100) by ring. rewrite Z.mod_add by lia.
  replace (y + 4 * a * 100) with (y + a * 400) by ring. by rewrite Z.mod_add by lia.
Qed.

Lemma is_leap_offset a b c d :
  0 <= b <= 3 -> 0 <= c <= 24 -> 0 <= d <= 3 ->
  is_leap (a * 400 + 1 + (b * 100 + c * 4 + d)) = (d =? 3) && (negb (c =? 24) || (b =? 3)).
Proof.
  intros Hb Hc Hd.
  replace (a * 400 + 1 + (b * 100 + c * 4 + d)) with ((100 * b + 4 * c + d + 1) + 400 * a) by ring.
  rewrite is_leap_cycle. pose proof leap_offsets_ok_true as Hall. unfold leap_offsets_ok in Hall.
  rewrite forallb_forall in Hall. specialize (Hall (Z.to_nat b)).
  rewrite in_seq in Hall. specialize (Hall ltac:(lia)).
  rewrite forallb_forall in Hall. specialize (Hall (Z.to_nat c)).
  rewrite in_seq in Hall. specialize (Hall ltac:(lia)).
  rewrite forallb_forall in Hall. specialize (Hall (Z.to_nat d)).
  rewrite in_seq in Hall. specialize (Hall ltac:(lia)).
  rewrite !Z2Nat.id in Hall by lia. by apply Bool.eqb_prop in Hall.
Qed.

Lemma days_before_year_offset a b c d :
  0 <= b <= 3 -> 0 <= c <= 24 -> 0 <= d <= 3 ->
  days_before_year (a * 400 + 1 + (b * 100 + c * 4 + d)) =
  146097 * a + 36524 * b + 1461 * c + 365 * d.
Proof.
  intros Hb Hc Hd. unfold days_before_year.
  replace (a * 400 + 1 + (b * 100 + c * 4 + d) - 1) with (a * 400 + b * 100 + c * 4 + d) by ring.
  rewrite <-(Z.div_unique (a * 400 + b * 100 + c * 4 + d) 4 (a * 100 + b * 25 + c) d) by lia.
  rewrite <-(Z.div_unique (a * 400 + b * 100 + c * 4 + d) 100 (a * 4 + b) (c * 4 + d)) by lia.
  rewrite <-(Z.div_unique (a * 400 + b * 100 + c * 4 + d) 400 a (b * 100 + c * 4 + d)) by lia.
  lia.
Qed.

Lemma days_in_month_tbl_leap y m :
  days_in_month y m = days_in_month_tbl m + b2z ((m =? 2) && is_leap y).
Proof.
  unfold days_in_month. destruct (Z.eqb_spec m 2) as [->|]; simpl; [|lia].
  by destruct (is_leap y).
Qed.

(** The divisions of [_ord2ymd] as equations with their bounds. *)
Lemma divmod_eq k m : 0 < m -> k = m * (k / m) + k mod m /\ 0 <= k mod m < m.
Proof. intros Hm. split; [apply Z.div_mod; lia|apply Z.mod_pos_bound; lia]. Qed.

Ltac name_divmod k m q r :=
  let E := fresh "E" in
  destruct (divmod_eq k m ltac:(unfold day_us; lia)) as [E ?];
  set (q := k / m) in *; set (r := k mod m) in *.

(** [_ord2ymd] inverts [_ymd2ord]: the date of ordinal [n] is a valid
    date whose ordinal is [n]. *)
Lemma ord2ymd_spec n :
  1 <= n ->
  let '(y, m, d) := ord2ymd n in
  ymd2ord y m d = n /\ 1 <= m <= 12 /\ 1 <= d <= days_in_month y m /\
  1 <= y /\ (n <= max_ordinal -> y <= 9999).
Proof.
  intros Hn. unfold ord2ymd, max_ordinal.
  name_divmod (n - 1) 146097 a r1. name_divmod r1 36524 b r2.
  name_divmod r2 1461 c r3. name_divmod r3 365 d r4.
  assert (0 <= a) by lia. assert (0 <= b <= 4) by lia.
  assert (0 <= c <= 24) by lia. assert (0 <= d <= 4) by lia.
  destruct (Z.eqb_spec d 4) as [Hd4|Hd4]; [|destruct (Z.eqb_spec b 4) as [Hb4|Hb4]]; simpl.
  - (* the last day of a 4-year cycle: 31 December of a leap year *)
    assert (c <= 23 /\ b <= 3 /\ r4 = 0) as (Hc & Hb & Hr4) by lia.
    replace (a * 400 + 1 + (b * 100 + c * 4 + d) - 1) with (a * 400 + 1 + (b * 100 + c * 4 + 3))
      by lia.
    unfold ymd2ord, days_before_month, days_in_month.
    rewrite days_before_year_offset, is_leap_offset by lia.
    destruct (Z.eqb_spec c 24); [lia|]. simpl. split_and!; lia.
  - (* the last day of a 400-year cycle *)
    assert (r2 = 0) by lia. assert (c = 0 /\ d = 0) as [-> ->] by lia.
    replace (a * 400 + 1 + (b * 100 + 0 * 4 + 0) - 1) with (a * 400 + 1 + (3 * 100 + 24 * 4 + 3))
      by lia.
    unfold ymd2ord, days_before_month, days_in_month.
    rewrite days_before_year_offset, is_leap_offset by lia. simpl. split_and!; lia.
  - assert (0 <= d <= 3 /\ 0 <= b <= 3) as [Hd Hb] by lia.
    rewrite <-(is_leap_offset a b c d) by lia.
    pose proof (month_of_spec r4 (is_leap (a * 400 + 1 + (b * 100 + c * 4 + d)))) as Hm.
    destruct (month_of _ _) as [m pre]. destruct Hm as (Hm & Hpre & Hday); [lia|].
    unfold ymd2ord, days_before_month. rewrite days_in_month_tbl_leap.
    rewrite days_before_year_offset by lia. split_and!; lia.
Qed.

Lemma of_ordinal_micros o us :
  1 <= o -> dt_micros (of_ordinal o us) = (o - 1) * day_us + us.
Proof.
  intros Ho. unfold dt_micros, of_ordinal. pose proof (ord2ymd_spec o Ho) as Hs.
  destruct (ord2ymd o) as [[y m] d]. simpl. destruct Hs as [-> _].
  name_divmod us 1000000 secs micro. name_divmod secs 3600 hour rem.
  name_divmod rem 60 mi sec. unfold day_us. lia.
Qed.

(** The integer clock is the datetime's: the fields of [to_datetime t]
    give back [t]. *)
Lemma to_datetime_micros t : 0 <= t -> dt_micros (to_datetime t) = t.
Proof.
  intros Ht. unfold to_datetime.
  assert (0 <= t / day_us) by (apply Z.div_pos; unfold day_us; lia).
  rewrite of_ordinal_micros by lia.
  pose proof (Z.div_mod t day_us ltac:(unfold day_us; lia)). lia.
Qed.

Lemma dt_add_micros x delta :
  dt_add x delta =
  let total := dt_micros x + day_us + delta in
  if (0 <? total / day_us) && (total / day_us <=? max_ordinal)
  then Some (of_ordinal (total / day_us) (total mod day_us)) else None.
Proof.
  unfold dt_add, dt_micros.
  replace (ymd2ord (dt_year x) (dt_month x) (dt_day x) * day_us + dt_hour x * 3600000000 +
           dt_minute x * 60000000 + dt_second x * 1000000 + dt_micro x + delta)
    with ((ymd2ord (dt_year x) (dt_month x) (dt_day x) - 1) * day_us + dt_hour x * 3600000000 +
          dt_minute x * 60000000 + dt_second x * 1000000 + dt_micro x + day_us + delta) by ring.
  reflexivity.
Qed.

Lemma day_range_iff z :
  (0 <? z / day_us + 1) && (z / day_us + 1 <=? max_ordinal) =
  (0 <=? z) && (z <? max_ordinal * day_us).
Proof.
  name_divmod z day_us q r.
  apply eq_bool_prop_intro. rewrite !Is_true_true, !andb_true_iff, !Z.ltb_lt, !Z.leb_le.
  unfold max_ordinal, day_us in *. lia.
Qed.

(** [datetime + timedelta] on the integer clock: the sum, or
    [OverflowError] outside 0001-01-01 to 9999-12-31. *)
Lemma dt_add_clock t delta :
  0 <= t ->
  dt_add (to_datetime t) delta =
  if (0 <=? t + delta) && (t + delta <? max_ordinal * day_us)
  then Some (to_datetime (t + delta)) else None.
Proof.
  intros Ht. rewrite dt_add_micros, to_datetime_micros by done. cbv zeta.
  replace (t + day_us + delta) with ((t + delta) + 1 * day_us) by ring.
  rewrite Z.div_add, Z.mod_add by (unfold day_us; lia).
  by rewrite day_range_iff.
Qed.

(** The datetime of a clock between 0001-01-01 and 9999-12-31 is a
    valid [datetime] whose microseconds are the clock. *)
Lemma to_datetime_fields t :
  0 <= t < max_ordinal * day_us ->
  let x := to_datetime t in
  dt_micros x = t /\ 1 <= dt_year x <= 9999 /\ 1 <= dt_month x <= 12 /\
  1 <= dt_day x <= days_in_month (dt_year x) (dt_month x) /\
  0 <= dt_hour x < 24 /\ 0 <= dt_minute x < 60 /\ 0 <= dt_second x < 60 /\
  0 <= dt_micro x < 1000000.
Proof.
  intros Ht x. split; [apply to_datetime_micros; lia|].
  name_divmod t day_us q us.
  assert (1 <= q + 1 <= max_ordinal) by (unfold max_ordinal, day_us in *; lia).
  subst x. unfold to_datetime, of_ordinal. fold q us.
  pose proof (ord2ymd_spec (q + 1) ltac:(lia)) as Hs.
  destruct (ord2ymd (q + 1)) as [[y m] d]. cbn [dt_year dt_month dt_day dt_hour dt_minute
    dt_second dt_micro]. destruct Hs as (_ & Hm & Hd & Hy1 & Hy2).
  name_divmod us 1000000 secs micro. name_divmod secs 3600 hour rem.
  name_divmod rem 60 mi sec. unfold day_us in *. split_and!; lia.
Qed.

(** ** Lemmas on the text of a [datetime] *)

Lemma digit_char_spec d :
  0 <= d <= 9 -> digit_value (digit_char d) = Some d /\ Ascii.eqb (digit_char d) "'" = false.
Proof.
  intros Hd.
  assert (d = 0 \/ d = 1 \/ d = 2 \/ d = 3 \/ d = 4 \/ d = 5 \/ d = 6 \/ d = 7 \/ d = 8 \/ d = 9)
    as Hc by lia.
  by repeat destruct Hc as [->|Hc]; [..|subst].
Qed.

Lemma pad_digit w z :
  0 <= z < 10 ^ Z.of_nat (S w) -> 0 <= z / 10 ^ Z.of_nat w <= 9 /\
  z = 10 ^ Z.of_nat w * (z / 10 ^ Z.of_nat w) + z mod 10 ^ Z.of_nat w /\
  0 <= z mod 10 ^ Z.of_nat w < 10 ^ Z.of_nat w.
Proof.
  intros Hz. rewrite Nat2Z.inj_succ, Z.pow_succ_r in Hz by lia.
  assert (0 < 10 ^ Z.of_nat w) by (apply Z.pow_pos_nonneg; lia).
  split_and!.
  - apply Z.div_pos; lia.
  - apply Z.lt_succ_r, Z.div_lt_upper_bound; lia.
  - apply Z.div_mod. lia.
  - apply Z.mod_pos_bound. lia.
  - apply Z.mod_pos_bound. lia.
Qed.

Lemma quote_free_pad w z : 0 <= z < 10 ^ Z.of_nat w -> quote_free (pad w z) = true.
Proof.
  revert z. induction w as [|w IH]; intros z Hz; [done|]. simpl.
  destruct (pad_digit w z Hz) as (Hq & _ & Hr).
  destruct (digit_char_spec _ Hq) as [_ ->]. simpl. by apply IH.
Qed.

Lemma quote_free_app s t : quote_free (s +:+ t) = quote_free s && quote_free t.
Proof. induction s as [|c s IH]; [done|]. simpl. rewrite IH. by rewrite andb_assoc. Qed.

Lemma days_in_month_le y m : days_in_month y m <= 31.
Proof.
  unfold days_in_month. case_match; [lia|].
  unfold days_in_month_tbl. repeat case_match; lia.
Qed.

Lemma quote_free_isoformat x :
  1 <= dt_year x <= 9999 -> 1 <= dt_month x <= 12 ->
  1 <= dt_day x <= days_in_month (dt_year x) (dt_month x) ->
  0 <= dt_hour x < 24 -> 0 <= dt_minute x < 60 -> 0 <= dt_second x < 60 ->
  0 <= dt_micro x < 1000000 ->
  quote_free (isoformat x) = true.
Proof.
  intros. pose proof (days_in_month_le (dt_year x) (dt_month x)).
  unfold isoformat. rewrite !quote_free_app, !quote_free_pad by (simpl; lia).
  destruct (dt_micro x =? 0); [done|]. rewrite quote_free_app, quote_free_pad by (simpl; lia).
  done.
Qed.

(** The text of the datetime of a clock holds no quote. *)
Lemma to_datetime_quote_free t :
  0 <= t < max_ordinal * day_us -> quote_free (isoformat (to_datetime t)) = true.
Proof.
  intros Ht. destruct (to_datetime_fields t Ht) as (_ & ? & ? & ? & ? & ? & ? & ?).
  by apply quote_free_isoformat.
Qed.

(** ** Properties *)

(** The subtraction of line 59 on the datetime of a clock. *)
Lemma minute_ago_of_clock t :
  0 <= t < max_ordinal * day_us ->
  one_minute_ago_dt (to_datetime t) =
  if 60000000 <=? t then Some (to_datetime (t - 60000000)) else None.
Proof.
  intros Ht. unfold one_minute_ago_dt. rewrite dt_add_clock by lia.
  replace (t + -60000000) with (t - 60000000) by lia.
  destruct (0 <=? t - 60000000) eqn:H1, (t - 60000000 <? max_ordinal * day_us) eqn:H2,
    (60000000 <=? t) eqn:H3; cbn [andb]; try reflexivity;
    rewrite ?Z.leb_le, ?Z.leb_gt, ?Z.ltb_lt, ?Z.ltb_ge in *; exfalso; lia.
Qed.

(** C25 (refinement of [datetime] arithmetic by the integer clock).
    For a clock [t] between 0001-01-01 and 9999-12-31,
    [current_time - timedelta(minutes=1)] (line 59) on the datetime of
    [t] is the datetime of [t - 60 s], which is what the model of the
    handler computes with [e_now E - minute]; in the first minute of
    year 1 it raises [OverflowError]. *)
Theorem one_minute_ago_clock t :
  0 <= t < max_ordinal * day_us ->
  one_minute_ago_dt (to_datetime t) =
  if 60000000 <=? t then Some (to_datetime (t - 60000000)) else None.
Proof. apply minute_ago_of_clock. Qed.

Lemma one_minute_ago_clock_witness :
  one_minute_ago_dt (to_datetime 63852000000000000) =
  if 60000000 <=? 63852000000000000 then Some (to_datetime (63852000000000000 - 60000000))
  else None.
Proof. apply one_minute_ago_clock. unfold max_ordinal, day_us. lia. Defined.
