(* ===== verification/Query.v ===== *)
(** * The queries of the handler as psycopg2 sends them

    [cursor.execute(query, params)] builds the text PostgreSQL receives:
    psycopg2 adapts every parameter to a literal ([Literal.v]), then
    replaces each [%s] of the query by the next literal and each [%%]
    by [%], raising on a [%] followed by anything else and on a count of
    parameters that differs from the count of [%s] ([format], after
    psycopg2's [_mogrify] and [Bytes_Format]).  The three queries of
    src/server.py (lines 62-67, 74-78, 84-87) are the strings below,
    character for character.  [unformat] reads a query text against its
    template with PostgreSQL's lexer at each placeholder; the theorems
    show that it recovers exactly the parameters, whatever string the
    client sent as [sensor_id]: the handler is not open to SQL
    injection. *)

From stdpp Require Import base list strings.
From Stdlib Require Import ZArith Lia Ascii.
From S2P Require Import Prelude Mimetype Json Literal Calendar.

#[local] Set Warnings "-register-all".

Open Scope Z_scope.

(** ** The queries *)

(** [select_query] (lines 62-67). *)
Definition select_query : string :=
"
                    SELECT id FROM sensor_data
                    WHERE sensor_id = %s AND timestamp >= %s
                    ORDER BY timestamp DESC
                    LIMIT 1;
                    ".

(** [update_query] (lines 74-78). *)
Definition update_query : string :=
"
                        UPDATE sensor_data
                        SET water_percentage = %s, timestamp = %s
                        WHERE id = %s;
                        ".

(** [insert_query] (lines 84-87). *)
Definition insert_query : string :=
"
                        INSERT INTO sensor_data (sensor_id, water_percentage, timestamp)
                        VALUES (%s, %s, %s);
                        ".

(** ** psycopg2's formatting *)

(** The parameters of the handler: a value of the payload, or a
    [datetime], which psycopg2 writes as the text of its [isoformat()]
    in ['...'::timestamp]. *)
Inductive param : Type :=
| PJson (v : json)
| PTime (x : datetime).

Definition param_literal (p : param) : option string :=
  match p with
  | PJson v => sql_literal v
  | PTime x => Some (String "'" (isoformat x +:+ "'::timestamp"))
  end.

Fixpoint param_literals (ps : list param) : option (list string) :=
  match ps with
  | [] => Some []
  | p :: ps' =>
      match param_literal p, param_literals ps' with
      | Some l, Some ls => Some (l :: ls)
      | _, _ => None
      end
  end.

(** The errors of [Bytes_Format]: [ValueError] for a lone [%] at the
    end or before an unknown character, [TypeError] for too few or too
    many arguments. *)
Inductive fmt_error : Type :=
| IncompleteFormat
| UnsupportedFormat (c : ascii)
| NotEnoughArguments
| NotAllConverted.

Definition map_ok {E} (f : string -> string) (r : E + string) : E + string :=
  match r with inl e => inl e | inr q => inr (f q) end.

(** [query % tuple(literals)] as psycopg2's [Bytes_Format] computes it. *)
Fixpoint format (t : string) (args : list string) : fmt_error + string :=
  match t with
  | EmptyString => match args with [] => inr EmptyString | _ :: _ => inl NotAllConverted end
  | String c t' =>
      if Ascii.eqb c "%" then
        match t' with
        | EmptyString => inl IncompleteFormat
        | String d t'' =>
            if Ascii.eqb d "%" then map_ok (String "%") (format t'' args)
            else if Ascii.eqb d "s" then
              match args with
              | [] => inl NotEnoughArguments
              | a :: args' => map_ok (String.append a) (format t'' args')
              end
            else inl (UnsupportedFormat d)
        end
      else map_ok (String c) (format t' args)
  end.

(** Why [cursor.execute] raises before anything is sent. *)
Inductive client_error : Type :=
| AdaptFailed
| FormatFailed (e : fmt_error).

(** [cursor.mogrify(query, params)]: every parameter is adapted, then
    the query is formatted. *)
Definition mogrify (t : string) (ps : list param) : client_error + string :=
  match param_literals ps with
  | None => inl AdaptFailed
  | Some ls => match format t ls with inl e => inl (FormatFailed e) | inr q => inr q end
  end.

(** ** Reading a query against its template *)

(** PostgreSQL's lexer at each placeholder, the template's own text
    everywhere else. *)
Fixpoint unformat (t q : string) : option (list sql_token) :=
  match t with
  | EmptyString => match q with EmptyString => Some [] | _ => None end
  | String c t' =>
      let literal_char (c : ascii) (t' : string) :=
        match q with
        | String c' q' => if Ascii.eqb c c' then unformat t' q' else None
        | EmptyString => None
        end in
      if Ascii.eqb c "%" then
        match t' with
        | String d t'' =>
            if Ascii.eqb d "%" then literal_char "%"%char t''
            else if Ascii.eqb d "s" then
              match lex_param q with
              | Some (tok, q') => option_map (cons tok) (unformat t'' q')
              | None => None
              end
            else None
        | EmptyString => None
        end
      else literal_char c t'
  end.

(** The token each parameter should be read as. *)
Definition param_token (p : param) : option sql_token :=
  match p with
  | PJson v => scalar_token v
  | PTime x =>
      if quote_free (isoformat x) then Some (TCast (isoformat x) "timestamp") else None
  end.

Fixpoint param_tokens (ps : list param) : option (list sql_token) :=
  match ps with
  | [] => Some []
  | p :: ps' =>
      match param_token p, param_tokens ps' with
      | Some t, Some ts => Some (t :: ts)
      | _, _ => None
      end
  end.

(** The character after a placeholder ends the literal before it: it
    is no [%] either, which could start the next literal. *)
Definition delim_next (t : string) : bool :=
  match t with
  | EmptyString => true
  | String c _ => delim_start t && negb (Ascii.eqb c "%")
  end.

(** Every placeholder of a template is followed by a delimiter. *)
Fixpoint delimited (t : string) : bool :=
  match t with
  | EmptyString => true
  | String c t' =>
      if Ascii.eqb c "%" then
        match t' with
        | String d t'' =>
            if Ascii.eqb d "s" then delim_next t'' && delimited t'' else delimited t''
        | EmptyString => true
        end
      else delimited t'
  end.

(** A literal read back as a token, whatever delimited text follows. *)
Definition lit_reads (lit : string) (tok : sql_token) : Prop :=
  forall rest, delim_start rest = true -> lex_param (lit +:+ rest) = Some (tok, rest).

(** ** Lemmas *)

Lemma escape_quote_free s : quote_free s = true -> escape_quotes s = s.
Proof.
  induction s as [|c s IH]; [done|]. simpl. intros [Hc Hs]%andb_true_iff.
  apply negb_true_iff in Hc. rewrite Hc. by rewrite IH.
Qed.

Lemma lex_param_time iso rest :
  quote_free iso = true -> delim_start rest = true ->
  lex_param (String "'" (iso +:+ "'::timestamp") +:+ rest) = Some (TCast iso "timestamp", rest).
Proof.
  intros Hq Hr. rewrite <-(escape_quote_free iso) at 1 by done.
  autorewrite with str. unfold lex_param. simpl.
  rewrite lex_quoted_escape by done. simpl. by rewrite lex_word_stop.
Qed.

Lemma param_reads p lit tok :
  param_literal p = Some lit -> param_token p = Some tok -> lit_reads lit tok.
Proof.
  intros Hl Ht rest Hr. destruct p as [v|x]; cbn [param_literal param_token] in *.
  - by apply (lex_param_literal v).
  - destruct (quote_free (isoformat x)) eqn:Hq; simplify_eq. by apply lex_param_time.
Qed.

Lemma params_read ps lits toks :
  param_literals ps = Some lits -> param_tokens ps = Some toks -> Forall2 lit_reads lits toks.
Proof.
  revert lits toks. induction ps as [|p ps IH]; intros lits toks Hl Ht; simpl in *.
  - simplify_eq. constructor.
  - destruct (param_literal p) eqn:Hp, (param_literals ps) eqn:Hps; try done.
    destruct (param_token p) eqn:Htp, (param_tokens ps) eqn:Htps; try done.
    simplify_eq. constructor; [by eapply param_reads|by apply IH].
Qed.

Lemma format_delim t lits q : format t lits = inr q -> delim_next t = true -> delim_start q = true.
Proof.
  destruct t as [|c t']; simpl.
  - destruct lits; by intros [= <-].
  - intros Hf [Hd Hc]%andb_true_iff. apply negb_true_iff in Hc. rewrite Hc in Hf.
    destruct (format t' lits); simplify_eq/=. done.
Qed.

Lemma format_unformat_n n : forall t lits toks q,
  (String.length t <= n)%nat -> delimited t = true -> Forall2 lit_reads lits toks ->
  format t lits = inr q -> unformat t q = Some toks.
Proof.
  induction n as [|n IH]; intros t lits toks q Hlen Hdel Hr Hf;
    (destruct t as [|c t']; [destruct lits; simplify_eq/=; by inversion Hr|]);
    simpl in Hlen; [lia|]; simpl in Hdel, Hf |- *.
  destruct (Ascii.eqb c "%") eqn:Hc.
  - destruct t' as [|d t'']; [done|]. simpl in Hlen.
    destruct (Ascii.eqb d "%") eqn:Hd.
    + apply Ascii.eqb_eq in Hd as ->.
      destruct (format t'' lits) eqn:Hf'; simplify_eq/=.
      apply (IH t'' lits); [lia|done|done|done].
    + destruct (Ascii.eqb d "s") eqn:Hs; [|done].
      destruct lits as [|a lits']; [done|].
      destruct (format t'' lits') as [|q'] eqn:Hf'; simplify_eq/=.
      inversion Hr as [|? tok ? toks' Hread Hr']; subst.
      apply andb_true_iff in Hdel as [Hnext Hdel'].
      rewrite Hread by (by eapply format_delim). simpl.
      by rewrite (IH t'' lits' toks' q') by (lia || done).
  - destruct (format t' lits) eqn:Hf'; simplify_eq/=. rewrite Ascii.eqb_refl.
    apply (IH t' lits); [lia|done|done|done].
Qed.

(** ** Properties *)

(** The query text psycopg2 sends for a template whose placeholders
    are delimited, read with PostgreSQL's lexer, gives back the
    parameters' tokens. *)
Lemma mogrify_reads_back t ps toks q :
  delimited t = true -> param_tokens ps = Some toks -> mogrify t ps = inr q ->
  unformat t q = Some toks.
Proof.
  unfold mogrify. intros Hd Ht Hm.
  destruct (param_literals ps) as [lits|] eqn:Hl; [|done].
  destruct (format t lits) eqn:Hf; simplify_eq.
  eapply format_unformat_n; [done|done|by eapply params_read|done].
Qed.

Lemma queries_delimited :
  delimited select_query = true /\ delimited update_query = true /\ delimited insert_query = true.
Proof. split_and!; vm_compute; reflexivity. Qed.

Lemma mogrify_read_back_ex t ps toks :
  delimited t = true -> param_tokens ps = Some toks -> (exists q, mogrify t ps = inr q) ->
  exists q, mogrify t ps = inr q /\ unformat t q = Some toks.
Proof. intros Hd Ht [q Hq]. exists q. split; [done|]. by eapply mogrify_reads_back. Qed.

(** The literals of the parameters, and the formatting of a concrete
    template. *)
Ltac mogrify_back Hd :=
  apply (mogrify_read_back_ex _ _ _ Hd);
  [ cbn; repeat match goal with H : _ = Some _ |- _ => rewrite H end;
    repeat match goal with H : quote_free _ = true |- _ => rewrite H end; reflexivity
  | eexists; unfold mogrify; cbn [param_literals param_literal sql_literal];
    repeat match goal with H : _ = Some _ |- _ => rewrite H end; reflexivity ].

(** C20 (no SQL injection).  For every sensor name without a NUL, every
    scalar value of [water_percentage], every record id and every pair
    of clocks between 0001-01-01 and 9999-12-31 (the select's
    [one_minute_ago] and the write's [current_time]), each of the three
    statements of the handler is formatted by psycopg2 without error,
    and PostgreSQL's lexer reads the text it receives as the statement's
    template with exactly the parameters in place: a quote or a keyword
    inside [sensor_id] stays inside its string constant, and each
    timestamp is the [isoformat()] text of its datetime cast to
    [timestamp]. *)
Theorem handler_queries_read_back s w tw lw rid t t' :
  has_nul s = false -> sql_literal w = Some lw -> scalar_token w = Some tw ->
  0 <= t < max_ordinal * day_us -> 0 <= t' < max_ordinal * day_us ->
  let iso := isoformat (to_datetime t) in let iso' := isoformat (to_datetime t') in
  (exists q, mogrify select_query [PJson (JStr s); PTime (to_datetime t)] = inr q /\
             unformat select_query q = Some [TStr s; TCast iso "timestamp"]) /\
  (exists q, mogrify update_query [PJson w; PTime (to_datetime t'); PJson (JNum rid)] = inr q /\
             unformat update_query q = Some [tw; TCast iso' "timestamp"; TNum rid]) /\
  (exists q, mogrify insert_query [PJson (JStr s); PJson w; PTime (to_datetime t')] = inr q /\
             unformat insert_query q = Some [TStr s; tw; TCast iso' "timestamp"]).
Proof.
  intros Hn Hlw Htw Ht Ht' iso iso'. pose proof (quote_str_ok s Hn) as Hs.
  pose proof (to_datetime_quote_free t Ht) as Hq.
  pose proof (to_datetime_quote_free t' Ht') as Hq'.
  destruct queries_delimited as (Hd1 & Hd2 & Hd3).
  split_and!; [mogrify_back Hd1|mogrify_back Hd2|mogrify_back Hd3].
Qed.

Lemma handler_queries_read_back_witness :
  let s := "x'); DROP TABLE sensor_data; --" in
  let x := to_datetime 63852000000000000 in
  (exists q, mogrify select_query [PJson (JStr s); PTime x] = inr q /\
             unformat select_query q = Some [TStr s; TCast (isoformat x) "timestamp"]) /\
  (exists q, mogrify update_query [PJson (JNum (-3)); PTime x; PJson (JNum 7)] = inr q /\
             unformat update_query q = Some [TNum (-3); TCast (isoformat x) "timestamp"; TNum 7]) /\
  (exists q, mogrify insert_query [PJson (JStr s); PJson (JNum (-3)); PTime x] = inr q /\
             unformat insert_query q = Some [TStr s; TNum (-3); TCast (isoformat x) "timestamp"]).
Proof.
  apply (handler_queries_read_back _ (JNum (-3)) (TNum (-3)) " -3");
    (reflexivity || (unfold max_ordinal, day_us; lia)).
Defined.
