(* ===== verification/Table.v ===== *)
(** * The table [sensor_data] and the three SQL statements of the handler

    [receive_data] (src/server.py, lines 62-88) runs
    - [SELECT id FROM sensor_data WHERE sensor_id = %s AND timestamp >= %s
       ORDER BY timestamp DESC LIMIT 1],
    - [UPDATE sensor_data SET water_percentage = %s, timestamp = %s
       WHERE id = %s],
    - [INSERT INTO sensor_data (sensor_id, water_percentage, timestamp)
       VALUES (%s, %s, %s)], the id coming from the column's sequence.
    A table is the list of its committed rows in physical order and the
    last value of the id sequence.  The SELECT is an interface,
    [LatestSelect], whose law [is_latest] is what SQL promises: some
    newest matching row, with no promise among rows of equal timestamp.
    [select_newest] is one implementation and is proved lawful.  Writes
    of an open transaction are a log [list write] applied at commit.
    The parameters reach the statements through [Literal.v]. *)

From stdpp Require Import base list strings sets.
From Stdlib Require Import ZArith Lia Ascii.
From S2P Require Import Prelude Mimetype Json Literal.

Open Scope Z_scope.

(** A row of [sensor_data(id, sensor_id, water_percentage, timestamp)]. *)
Record row : Type := mkRow {
  row_id : Z;
  row_sensor : string;
  row_water : Z;
  row_ts : Z
}.

#[export] Instance row_eq_dec : EqDecision row.
Proof. solve_decision. Defined.

(** The committed contents and the id sequence (SERIAL) of the table. *)
Record table : Type := mkTable {
  tbl_rows : list row;
  tbl_seq : Z
}.

(** [sensor_id = %s AND timestamp >= %s] *)
Definition in_window (sensor : string) (start : Z) (r : row) : bool :=
  String.eqb (row_sensor r) sensor && (start <=? row_ts r).

(** ** The SELECT: interface and law *)

Class LatestSelect : Type :=
  latest_select : string -> Z -> list row -> option row.

(** What [ORDER BY timestamp DESC LIMIT 1] guarantees: no row when none
    matches; otherwise a matching row whose timestamp no matching row
    exceeds. *)
Definition is_latest (sensor : string) (start : Z) (rs : list row)
    (o : option row) : Prop :=
  match o with
  | None => forall r, r ∈ rs -> in_window sensor start r = false
  | Some r =>
      r ∈ rs /\ in_window sensor start r = true /\
      forall r', r' ∈ rs -> in_window sensor start r' = true -> row_ts r' <= row_ts r
  end.

Class LatestSelectLawful `{LatestSelect} : Prop :=
  latest_select_is_latest : forall sensor start rs,
    is_latest sensor start rs (latest_select sensor start rs).

(** One implementation: a scan keeping the first row of greatest
    timestamp. *)
Definition newer (best : option row) (r : row) : option row :=
  match best with
  | None => Some r
  | Some b => if row_ts b <? row_ts r then Some r else best
  end.

Definition select_newest (sensor : string) (start : Z) (rs : list row) : option row :=
  fold_left (fun acc r => if in_window sensor start r then newer acc r else acc) rs None.

#[export] Instance select_newest_latest : LatestSelect := select_newest.

(** ** The writes *)

(** [SET water_percentage = w, timestamp = ts WHERE id = rid] on a row. *)
Definition update_row (rid w ts : Z) (r : row) : row :=
  if row_id r =? rid then mkRow (row_id r) (row_sensor r) w ts else r.

Inductive write : Type :=
| WUpdate (rid w ts : Z)
| WInsert (r : row).

Definition apply_write (rs : list row) (wr : write) : list row :=
  match wr with
  | WUpdate rid w ts => map (update_row rid w ts) rs
  | WInsert r => rs ++ [r]
  end.

(** The rows a transaction sees, and the rows it leaves when it commits:
    the committed rows with its own writes applied in order. *)
Definition apply_log (rs : list row) (log : list write) : list row :=
  fold_left apply_write log rs.

(** ** Well-formedness: ids are unique and not above the sequence, so
    that [nextval] always gives a fresh id. *)
Definition rows_wf (seq : Z) (rs : list row) : Prop :=
  NoDup (map row_id rs) /\ Forall (fun r => row_id r <= seq) rs.

Definition table_wf (t : table) : Prop := rows_wf (tbl_seq t) (tbl_rows t).

#[export] Instance rows_wf_dec seq rs : Decision (rows_wf seq rs).
Proof. unfold rows_wf. apply _. Defined.

#[export] Instance table_wf_dec t : Decision (table_wf t).
Proof. unfold table_wf. apply _. Defined.

(** ** Lemmas *)

Lemma in_window_true sensor start r :
  in_window sensor start r = true <-> row_sensor r = sensor /\ start <= row_ts r.
Proof.
  unfold in_window. rewrite andb_true_iff, String.eqb_eq, Z.leb_le. done.
Qed.

Lemma elem_of_snoc {A} (x y : A) (l : list A) : x ∈ l ++ [y] <-> x ∈ l \/ x = y.
Proof. by rewrite elem_of_app, list_elem_of_singleton. Qed.

Lemma is_latest_snoc sensor start pre r acc :
  is_latest sensor start pre acc ->
  is_latest sensor start (pre ++ [r])
    (if in_window sensor start r then newer acc r else acc).
Proof.
  intros Hacc. destruct (in_window sensor start r) eqn:Hr;
    destruct acc as [b|]; simpl in *.
  - destruct Hacc as (Hb & Hbw & Hmax).
    destruct (Z.ltb_spec (row_ts b) (row_ts r));
      (split_and!; [set_solver|done|]);
      intros r' [Hin| ->]%elem_of_snoc Hw; try lia; specialize (Hmax r' Hin Hw); lia.
  - split_and!; [set_solver|done|].
    intros r' [Hin| ->]%elem_of_snoc Hw; [|lia]. by rewrite Hacc in Hw.
  - destruct Hacc as (Hb & Hbw & Hmax). split_and!; [set_solver|done|].
    intros r' [Hin| ->]%elem_of_snoc Hw; [auto|congruence].
  - intros r' [Hin| ->]%elem_of_snoc; auto.
Qed.

Lemma select_newest_fold sensor start pre rs acc :
  is_latest sensor start pre acc ->
  is_latest sensor start (pre ++ rs)
    (fold_left (fun acc r => if in_window sensor start r then newer acc r else acc) rs acc).
Proof.
  revert pre acc. induction rs as [|r rs IH]; intros pre acc Hacc; simpl.
  - by rewrite app_nil_r.
  - replace (pre ++ r :: rs) with ((pre ++ [r]) ++ rs) by (by rewrite <-app_assoc).
    apply IH, is_latest_snoc, Hacc.
Qed.

(** The scan implements the SELECT. *)
#[export] Instance select_newest_lawful : LatestSelectLawful.
Proof.
  intros sensor start rs.
  apply (select_newest_fold sensor start [] rs None). intros r Hr. set_solver.
Qed.

Lemma apply_log_snoc rs tx wr :
  apply_log rs (tx ++ [wr]) = apply_write (apply_log rs tx) wr.
Proof. unfold apply_log. by rewrite fold_left_app. Qed.

Lemma map_row_id_update rid v ts rs :
  map row_id (map (update_row rid v ts) rs) = map row_id rs.
Proof.
  rewrite map_map. apply map_ext. intros r. unfold update_row.
  by destruct (row_id r =? rid).
Qed.

Lemma rows_wf_mono seq seq' rs : seq <= seq' -> rows_wf seq rs -> rows_wf seq' rs.
Proof.
  intros Hle [Hnd Hall]. split; [done|].
  eapply Forall_impl; [exact Hall|]. simpl. lia.
Qed.

Lemma rows_wf_update seq rid v ts rs :
  rows_wf seq rs -> rows_wf seq (map (update_row rid v ts) rs).
Proof.
  intros [Hnd Hall]. split; [by rewrite map_row_id_update|].
  apply Forall_map. eapply Forall_impl; [exact Hall|].
  intros r. unfold update_row. by destruct (row_id r =? rid).
Qed.

Lemma rows_wf_insert seq s v ts rs :
  rows_wf seq rs -> rows_wf (seq + 1) (rs ++ [mkRow (seq + 1) s v ts]).
Proof.
  intros [Hnd Hall]. split.
  - rewrite map_app. apply NoDup_app. split_and!; [done| |by apply NoDup_singleton].
    intros i Hi ->%list_elem_of_singleton.
    apply list_elem_of_In, in_map_iff in Hi as (r & Hr & Hin).
    simpl in Hr. apply list_elem_of_In in Hin. rewrite Forall_forall in Hall. specialize (Hall r Hin). lia.
  - apply Forall_app. split; [|by constructor; simpl; [lia|]].
    eapply Forall_impl; [exact Hall|]. simpl. lia.
Qed.

(** Under unique ids, UPDATE ... WHERE id = r.id touches the row [r]
    and nothing else. *)
Lemma update_row_unique seq rs r v ts :
  rows_wf seq rs -> r ∈ rs ->
  map (update_row (row_id r) v ts) rs =
  map (fun x => if decide (x = r) then mkRow (row_id r) (row_sensor r) v ts else x) rs.
Proof.
  intros [Hnd _] Hin. apply map_ext_in. intros x Hx.
  unfold update_row. destruct (Z.eqb_spec (row_id x) (row_id r)) as [Heq|Hne].
  - assert (x = r) as ->.
    { apply (NoDup_map_inj_in row_id rs); [done|done|by apply list_elem_of_In|done]. }
    by rewrite decide_True.
  - rewrite decide_False; [done|]. by intros ->.
Qed.

(** The rows of one sensor. *)
Definition sensor_rows (s : string) (rs : list row) : list row :=
  filter (fun r => row_sensor r = s) rs.

Lemma sensor_rows_app s rs1 rs2 :
  sensor_rows s (rs1 ++ rs2) = sensor_rows s rs1 ++ sensor_rows s rs2.
Proof. apply filter_app. Qed.

Lemma sensor_rows_single_other s r : row_sensor r <> s -> sensor_rows s [r] = [].
Proof. intros Hne. unfold sensor_rows. by rewrite filter_cons, decide_False. Qed.

Lemma sensor_rows_single_same s r : row_sensor r = s -> sensor_rows s [r] = [r].
Proof. intros Heq. unfold sensor_rows. by rewrite filter_cons, decide_True. Qed.

(** Replacing a row by one of the same sensor changes nothing for another
    sensor. *)
Lemma sensor_rows_replace_other s r r' rs :
  row_sensor r <> s -> row_sensor r' <> s ->
  sensor_rows s (map (fun x => if decide (x = r) then r' else x) rs) = sensor_rows s rs.
Proof.
  intros Hr Hr'. unfold sensor_rows. induction rs as [|x rs IH]; [done|].
  rewrite map_cons. case_decide as Hx; [subst x|].
  - rewrite !filter_cons, !decide_False by done. done.
  - rewrite !filter_cons. case_decide; by rewrite IH.
Qed.

(** Replacing a row that is not there changes nothing. *)
Lemma replace_notin (r r' : row) (rs : list row) :
  r ∉ rs -> map (fun x => if decide (x = r) then r' else x) rs = rs.
Proof.
  intros Hr. induction rs as [|x rs IH]; [done|]. rewrite map_cons.
  rewrite decide_False by set_solver. f_equal. apply IH. set_solver.
Qed.
