(* ===== verification/Server.v ===== *)
(** * The request handler [receive_data] and [connect_db]

    One request runs in a [world]: the committed table of the database,
    the state of the handler's connection, the writes of its open
    transaction, the handler's local variable [cursor] (unbound until
    [conn.cursor()] returns) and the lines printed so far.  Each database
    call of src/server.py is an operation of the monad [ESM world exn]
    that raises [DbError op] when the environment's [e_faults op] says
    so, or when PostgreSQL rejects a parameter.  [receive_data] composes
    them with Python's [try/except/finally] exactly as lines 44-112 do,
    and [flask_dispatch] is Flask's boundary: an exception that escapes
    the handler becomes an error page (400 for [BadRequest], 500
    otherwise).  [response_table] lists the response of every branch
    as a decision table on the request and the failures, which the
    handler is proved to follow. *)

From stdpp Require Import base list strings sets.
From Stdlib Require Import ZArith Lia.
From S2P Require Import Prelude Mimetype Json Literal Table.

Open Scope Z_scope.
Open Scope py_scope.

(** ** Data *)

(** The database calls of the handler that can raise. *)
Inductive dbop : Type :=
| OpConnect | OpCursor | OpSelect | OpFetch | OpUpdate | OpInsert
| OpCommit | OpRollback | OpCursorClose | OpConnClose.

(** The Python exceptions the handler can meet. *)
Inductive exn : Type :=
| BadRequest
| AttributeError
| UnboundLocalError (name : string)
| DbError (op : dbop).

Inductive conn_state : Type := NoConn | ConnOpen | ConnClosed.

Inductive cursor_state : Type := CurOpen | CurClosed.

(** The lines the handler prints, by the event they report. *)
Inductive event : Type :=
| EvConnected
| EvConnectError
| EvVarNotSet (var : string)
| EvUpdated (rid : Z) (sensor water : json) (ts : Z)
| EvInserted (sensor water : json) (ts : Z)
| EvDbError
| EvInvalidData
| EvNotJson.

(** [PGHOST], [PGDATABASE], [PGUSER], [PGPASSWORD], [PGPORT]
    (lines 12-16): [None] when the variable is not set. *)
Record pg_config : Type := mkConfig {
  pg_host : option string;
  pg_database : option string;
  pg_user : option string;
  pg_password : option string;
  pg_port : option string
}.

(** What a request cannot control: the configuration, the clock
    ([datetime.now()] in microseconds) and which database calls fail. *)
Record env : Type := mkEnv {
  e_config : pg_config;
  e_now : Z;
  e_faults : dbop -> bool
}.

Record world : Type := mkWorld {
  w_db : table;
  w_conn : conn_state;
  w_tx : list write;
  w_cursor : option cursor_state;
  w_log : list event
}.

Definition set_conn (c : conn_state) (w : world) : world :=
  mkWorld (w_db w) c (w_tx w) (w_cursor w) (w_log w).
Definition set_tx (tx : list write) (w : world) : world :=
  mkWorld (w_db w) (w_conn w) tx (w_cursor w) (w_log w).
Definition set_cursor (c : option cursor_state) (w : world) : world :=
  mkWorld (w_db w) (w_conn w) (w_tx w) c (w_log w).
Definition add_log (ev : event) (w : world) : world :=
  mkWorld (w_db w) (w_conn w) (w_tx w) (w_cursor w) (w_log w ++ [ev]).

(** The world a request starts in: nothing opened, [cursor] unbound. *)
Definition request_start (db : table) : world := mkWorld db NoConn [] None [].

Abbreviation M := (ESM world exn).

Inductive body : Type :=
| Message (s : string)
| Error (s : string)
| ErrorPage.

Record response : Type := mkResponse { status : Z; resp_body : body }.

Definition resp_upserted : response :=
  mkResponse 200 (Message "Data received and processed (upserted) in DB").
Definition resp_db_failed : response :=
  mkResponse 500 (Error "Failed to process data in DB").
Definition resp_conn_failed : response :=
  mkResponse 500 (Error "Database connection failed").
Definition resp_invalid : response :=
  mkResponse 400 (Error "Invalid data format. Missing sensor_id or water_percentage.").
Definition resp_not_json : response :=
  mkResponse 400 (Error "Request must be JSON").

(** [timedelta(minutes=1)] in microseconds. *)
Definition minute : Z := 60000000.

(** ** Operations *)

Definition log (ev : event) : M unit := modify (add_log ev).

Definition fail_if (E : env) (op : dbop) : M unit :=
  if e_faults E op then raise (DbError op) else ret tt.

(** [if not PG_HOST: print(...)] and so on (lines 35-39): an unset or
    empty variable is reported. *)
Definition var_set (o : option string) : bool :=
  match o with Some s => negb (String.eqb s "") | None => false end.

Definition missing_vars (c : pg_config) : list event :=
  (if var_set (pg_host c) then [] else [EvVarNotSet "PGHOST"]) ++
  (if var_set (pg_database c) then [] else [EvVarNotSet "PGDATABASE"]) ++
  (if var_set (pg_user c) then [] else [EvVarNotSet "PGUSER"]) ++
  (if var_set (pg_password c) then [] else [EvVarNotSet "PGPASSWORD"]) ++
  (if var_set (pg_port c) then [] else [EvVarNotSet "PGPORT"]).

Definition log_all (evs : list event) : M unit :=
  modify (fun w => mkWorld (w_db w) (w_conn w) (w_tx w) (w_cursor w) (w_log w ++ evs)).

(** [connect_db()] (lines 19-40): [true] for a connection, [false] for
    [None]. *)
Definition connect_db (E : env) : M bool :=
  if e_faults E OpConnect then
    do log EvConnectError;
    do log_all (missing_vars (e_config E));
    ret false
  else
    do modify (set_conn ConnOpen);
    do log EvConnected;
    ret true.

(** [cursor = conn.cursor()] (line 55). *)
Definition open_cursor (E : env) : M unit :=
  do fail_if E OpCursor;
  modify (set_cursor (Some CurOpen)).

(** [cursor.execute(select_query, (sensor_id, one_minute_ago))] and
    [cursor.fetchone()] (lines 62-69): the id of the row found, as the
    transaction sees the table. *)
Definition execute_select `{LatestSelect} (E : env) (sensor_id : json) (start : Z)
    : M (option Z) :=
  match adapt_text sensor_id with
  | None => raise (DbError OpSelect)
  | Some s =>
      do fail_if E OpSelect;
      do fail_if E OpFetch;
      gets (fun w => option_map row_id
                       (latest_select s start (apply_log (tbl_rows (w_db w)) (w_tx w))))
  end.

(** [cursor.execute(update_query, (water_percentage, current_time,
    record_id))] (lines 74-79). *)
Definition execute_update (E : env) (water : json) (now rid : Z) : M unit :=
  match adapt_numeric water with
  | None => raise (DbError OpUpdate)
  | Some v =>
      do fail_if E OpUpdate;
      modify (fun w => set_tx (w_tx w ++ [WUpdate rid v now]) w)
  end.

(** [nextval]: the sequence is not transactional, a rolled back insert
    still consumes its id. *)
Definition insert_row (s : string) (v now : Z) (w : world) : world :=
  let id := tbl_seq (w_db w) + 1 in
  mkWorld (mkTable (tbl_rows (w_db w)) id) (w_conn w)
    (w_tx w ++ [WInsert (mkRow id s v now)]) (w_cursor w) (w_log w).

(** [cursor.execute(insert_query, (sensor_id, water_percentage,
    current_time))] (lines 84-88). *)
Definition execute_insert (E : env) (sensor_id water : json) (now : Z) : M unit :=
  match adapt_text sensor_id, adapt_numeric water with
  | Some s, Some v =>
      do fail_if E OpInsert;
      modify (insert_row s v now)
  | _, _ => raise (DbError OpInsert)
  end.

Definition commit_tx (w : world) : world :=
  mkWorld (mkTable (apply_log (tbl_rows (w_db w)) (w_tx w)) (tbl_seq (w_db w)))
    (w_conn w) [] (w_cursor w) (w_log w).

(** [conn.commit()] (line 92). *)
Definition commit (E : env) : M unit :=
  do fail_if E OpCommit;
  modify commit_tx.

(** [conn.rollback()] (line 97). *)
Definition rollback (E : env) : M unit :=
  do fail_if E OpRollback;
  modify (set_tx []).

(** [conn.close()]: the server discards an uncommitted transaction. *)
Definition close_conn (w : world) : world :=
  mkWorld (w_db w) ConnClosed [] (w_cursor w) (w_log w).

(** The [finally] block (lines 99-104).  [if cursor:] reads the local
    [cursor], which is unbound when [conn.cursor()] raised. *)
Definition close_all (E : env) : M unit :=
  do c <- gets w_cursor;
  match c with
  | None => raise (UnboundLocalError "cursor")
  | Some _ =>
      do fail_if E OpCursorClose;
      do modify (set_cursor (Some CurClosed));
      do fail_if E OpConnClose;
      modify close_conn
  end.

(** Lines 55-90: the cursor, the SELECT, and the UPDATE or the INSERT. *)
Definition upsert_writes `{LatestSelect} (E : env) (sensor_id water : json) : M unit :=
  do open_cursor E;
  let one_minute_ago := e_now E - minute in
  do existing <- execute_select E sensor_id one_minute_ago;
  match existing with
  | Some rid =>
      do execute_update E water (e_now E) rid;
      log (EvUpdated rid sensor_id water (e_now E))
  | None =>
      do execute_insert E sensor_id water (e_now E);
      log (EvInserted sensor_id water (e_now E))
  end.

(** The body of the [try] (lines 55-93). *)
Definition process `{LatestSelect} (E : env) (sensor_id water : json) : M response :=
  do upsert_writes E sensor_id water;
  do commit E;
  ret resp_upserted.

(** The [except] block (lines 95-98). *)
Definition on_db_error (E : env) (_ : exn) : M response :=
  do log EvDbError;
  do rollback E;
  ret resp_db_failed.

(** [request.get_json()]: Flask raises [BadRequest] on a body that does
    not parse. *)
Definition get_json (rq : request) : M json :=
  match req_body rq with
  | Some d => ret d
  | None => raise BadRequest
  end.

(** [data.get(k)] *)
Definition dict_get (data : json) (k : string) : M json :=
  match py_get data k with
  | Some v => ret v
  | None => raise AttributeError
  end.

(** [receive_data()] (lines 44-112). *)
Definition receive_data `{LatestSelect} (E : env) (rq : request) : M response :=
  if req_is_json rq then
    do data <- get_json rq;
    do sensor_id <- dict_get data "sensor_id";
    do water <- dict_get data "water_percentage";
    if truthy sensor_id && negb (is_none water) then
      do ok <- connect_db E;
      if ok then
        try_finally
          (try_except (process E sensor_id water) (on_db_error E))
          (close_all E)
      else ret resp_conn_failed
    else
      do log EvInvalidData;
      ret resp_invalid
  else
    do log EvNotJson;
    ret resp_not_json.

(** Flask's handling of what leaves the view function: a response is
    sent as it is; an exception becomes an error page. *)
Definition flask_response (r : exn + response) : response :=
  match r with
  | inr resp => resp
  | inl BadRequest => mkResponse 400 ErrorPage
  | inl _ => mkResponse 500 ErrorPage
  end.

Definition flask_dispatch `{LatestSelect} (E : env) (rq : request) (w : world)
    : response * world :=
  let '(r, w') := receive_data E rq w in (flask_response r, w').

(** One request against the committed table [db]. *)
Definition serve `{LatestSelect} (E : env) (rq : request) (db : table) : response * world :=
  flask_dispatch E rq (request_start db).

(** ** The specification of the reconciler

    Spec section 4.1: with [window_start = arrival_time - 60 s], the most
    recent row of the sensor with [timestamp >= window_start] gets the new
    value and timestamp and keeps its identity; when there is none, a row
    with a fresh id is inserted.  [reconcile_spec s v now rs rs'] relates
    the committed rows before and after one reconciliation; which row is
    "most recent" among rows of equal timestamp is left open. *)
Inductive reconcile_spec (s : string) (v now : Z) (rs : list row) : list row -> Prop :=
| reconcile_update r :
    is_latest s (now - minute) rs (Some r) ->
    reconcile_spec s v now rs
      (map (fun x => if decide (x = r) then mkRow (row_id r) s v now else x) rs)
| reconcile_insert id :
    is_latest s (now - minute) rs None ->
    (forall x, x ∈ rs -> row_id x <> id) ->
    reconcile_spec s v now rs (rs ++ [mkRow id s v now]).

(** ** The responses of the handler as a table

    Which response each branch gives, after Flask has turned an
    exception into its error page.  Inside the [try], an exception of
    the [finally] block replaces whatever the [try] or the [except]
    returned or raised: an unbound [cursor] (when [conn.cursor()]
    raised) or a failing [close()] gives the 500 page; otherwise a
    failing statement or commit gives the fixed 500 message unless the
    rollback raises too. *)
Definition page (code : Z) : response := mkResponse code ErrorPage.

(** The statements of the [try] before the commit raise: the SELECT
    or the write, each with its parameters' adaptation. *)
Definition body_fails `{LatestSelect} (E : env) (sid wj : json) (db : table) : bool :=
  let f := e_faults E in
  match adapt_text sid with
  | None => true
  | Some s =>
      f OpSelect || f OpFetch ||
      match latest_select s (e_now E - minute) (tbl_rows db), adapt_numeric wj with
      | Some _, Some _ => f OpUpdate
      | None, Some _ => f OpInsert
      | _, None => true
      end
  end.

Definition try_response `{LatestSelect} (E : env) (sid wj : json) (db : table) : response :=
  let f := e_faults E in
  if f OpCursor || f OpCursorClose || f OpConnClose then page 500
  else if body_fails E sid wj db || f OpCommit then
    (if f OpRollback then page 500 else resp_db_failed)
  else resp_upserted.

Definition response_table `{LatestSelect} (E : env) (rq : request) (db : table) : response :=
  if req_is_json rq then
    match req_body rq with
    | None => page 400
    | Some data =>
        match py_get data "sensor_id", py_get data "water_percentage" with
        | Some sid, Some wj =>
            if truthy sid && negb (is_none wj) then
              if e_faults E OpConnect then resp_conn_failed else try_response E sid wj db
            else resp_invalid
        | _, _ => page 500
        end
    end
  else resp_not_json.

(** ** Invariants of the operations *)

(** [f] of the world is not changed. *)
Definition keeps {A} (f : world -> A) : relation world := fun w w' => f w' = f w.

#[export] Instance keeps_preorder {A} (f : world -> A) : PreOrder (keeps f).
Proof. split; unfold keeps; red; intros; congruence. Qed.

(** The committed rows and the rows the open transaction sees are well
    formed for the current sequence value. *)
Definition world_wf (w : world) : Prop :=
  rows_wf (tbl_seq (w_db w)) (tbl_rows (w_db w)) /\
  rows_wf (tbl_seq (w_db w)) (apply_log (tbl_rows (w_db w)) (w_tx w)).

Ltac unfold_ops :=
  unfold receive_data, process, on_db_error, close_all, upsert_writes,
    execute_insert, execute_update, execute_select, open_cursor, connect_db,
    commit, rollback, get_json, dict_get, log, log_all, fail_if.

(** After [stable_step], put the world of a [modify] obligation back in
    the goal, so that the obligation can be stated uniformly. *)
Ltac revert_world :=
  match goal with
  | w : world |- _ => revert w
  end.

Ltac stable_solve := unfold_ops; repeat stable_step; try revert_world.

Lemma world_wf_insert s v now w : world_wf w -> world_wf (insert_row s v now w).
Proof.
  intros [H1 H2]. unfold insert_row. split; simpl.
  - eapply rows_wf_mono; [|exact H1]. lia.
  - rewrite apply_log_snoc. by apply rows_wf_insert.
Qed.

Lemma world_wf_update rid v now w :
  world_wf w -> world_wf (set_tx (w_tx w ++ [WUpdate rid v now]) w).
Proof.
  intros [H1 H2]. split; simpl; [done|].
  rewrite apply_log_snoc. by apply rows_wf_update.
Qed.

Lemma world_wf_clear w w' :
  w_db w' = w_db w -> w_tx w' = [] -> world_wf w -> world_wf w'.
Proof. intros Hdb Htx [H1 H2]. unfold world_wf. rewrite Hdb, Htx. by split. Qed.

Lemma world_wf_commit w : world_wf w -> world_wf (commit_tx w).
Proof. intros [H1 H2]. by split. Qed.

(** Every handler preserves [world_wf]. *)
Lemma receive_data_wf `{LatestSelect} E rq : stable (preserving world_wf) (receive_data E rq).
Proof.
  stable_solve; unfold preserving; intros w0 Hwf;
    first [ exact Hwf
          | by apply (world_wf_clear w0)
          | by apply world_wf_commit
          | by apply world_wf_update
          | by apply world_wf_insert ].
Qed.

(** ** The write phase against the specification *)

Lemma reconcile_update_code `{LatestSelectLawful} s v now rs seq r :
  rows_wf seq rs -> latest_select s (now - minute) rs = Some r ->
  reconcile_spec s v now rs (map (update_row (row_id r) v now) rs).
Proof.
  intros Hwf Hsel.
  pose proof (latest_select_is_latest s (now - minute) rs) as Hl.
  rewrite Hsel in Hl. pose proof Hl as (Hin & Hw & _).
  apply in_window_true in Hw as [Hs _].
  rewrite (update_row_unique seq); [|done|done]. rewrite Hs.
  by constructor.
Qed.

Lemma reconcile_insert_code `{LatestSelectLawful} s v now rs seq :
  rows_wf seq rs -> latest_select s (now - minute) rs = None ->
  reconcile_spec s v now rs (rs ++ [mkRow (seq + 1) s v now]).
Proof.
  intros [_ Hall] Hsel.
  pose proof (latest_select_is_latest s (now - minute) rs) as Hl. rewrite Hsel in Hl.
  constructor; [done|]. intros x Hx. rewrite Forall_forall in Hall.
  specialize (Hall x Hx). lia.
Qed.

(** A reconciliation for [s] leaves the rows of every other sensor. *)
Lemma reconcile_spec_other s v now rs rs' s' :
  reconcile_spec s v now rs rs' -> s <> s' -> sensor_rows s' rs' = sensor_rows s' rs.
Proof.
  intros Hspec Hne. destruct Hspec as [r Hl|id Hl Hfresh].
  - destruct Hl as (_ & Hw & _). apply in_window_true in Hw as [Hs _].
    apply sensor_rows_replace_other; simpl; congruence.
  - rewrite sensor_rows_app, sensor_rows_single_other by (simpl; congruence).
    by rewrite app_nil_r.
Qed.

(** Run the write phase by cases on the failures and the SELECT. *)
Ltac run_writes Hrun :=
  unfold upsert_writes, open_cursor, execute_select, execute_update, execute_insert,
    fail_if, log in Hrun;
  cbn in Hrun; repeat (case_match; cbn in Hrun); simplify_eq/=.

(** Once [conn.cursor()] has returned, [cursor] stays bound. *)
Lemma upsert_writes_cursor `{LatestSelect} E sid water w r w' :
  e_faults E OpCursor = false -> upsert_writes E sid water w = (r, w') ->
  w_cursor w' = Some CurOpen.
Proof. intros Hc Hrun. run_writes Hrun; unfold modify in *; simplify_eq/=; done. Qed.

(** The cursor, the SELECT and the write leave the committed rows alone;
    when they succeed, the transaction holds exactly one reconciliation
    of the reading. *)
Lemma upsert_writes_outcome `{LatestSelectLawful} E sid water w r w' :
  w_tx w = [] -> world_wf w -> upsert_writes E sid water w = (r, w') ->
  tbl_rows (w_db w') = tbl_rows (w_db w) /\
  (r = inr tt -> exists s v, adapt_text sid = Some s /\ adapt_numeric water = Some v /\
     reconcile_spec s v (e_now E) (tbl_rows (w_db w)) (apply_log (tbl_rows (w_db w')) (w_tx w'))).
Proof.
  destruct w as [[rs seq] c tx cur lg]. simpl. intros -> [Hwf _] Hrun. simpl in Hwf.
  run_writes Hrun; try (split; [done|discriminate]);
    unfold modify in Hrun; simplify_eq/=; split; try done; intros _;
    destruct (latest_select s (e_now E - minute) rs) as [rr|] eqn:Hsel; simplify_eq/=;
    do 2 eexists; split_and!; try done.
  - by eapply reconcile_update_code.
  - by apply reconcile_insert_code.
Qed.

(** ** The committed table across the whole handler *)

Lemma on_db_error_keeps_db E e : stable (keeps w_db) (on_db_error E e).
Proof. stable_solve; intros w0; reflexivity. Qed.

Lemma close_all_keeps_db E : stable (keeps w_db) (close_all E).
Proof. stable_solve; intros w0; reflexivity. Qed.

(** The body of the [try]: it fails leaving the committed rows, or it
    commits one reconciliation and answers 200. *)
Lemma process_outcome `{LatestSelectLawful} E sid water w r w' :
  w_tx w = [] -> world_wf w -> process E sid water w = (r, w') ->
  (tbl_rows (w_db w') = tbl_rows (w_db w) /\ exists e, r = inl e) \/
  (r = inr resp_upserted /\ exists s v, adapt_text sid = Some s /\ adapt_numeric water = Some v /\
     reconcile_spec s v (e_now E) (tbl_rows (w_db w)) (tbl_rows (w_db w'))).
Proof.
  intros Htx Hwf Hrun. unfold process, esm_bind in Hrun.
  destruct (upsert_writes E sid water w) as [r1 w1] eqn:Hw.
  destruct (upsert_writes_outcome E sid water w r1 w1 Htx Hwf Hw) as [Hrows Hok].
  destruct r1 as [e|[]]; [left; simplify_eq; eauto|].
  destruct (Hok eq_refl) as (s & v & Hs & Hv & Hspec).
  unfold commit, fail_if, esm_bind, modify, ret, raise in Hrun.
  destruct (e_faults E OpCommit); cbn in Hrun; simplify_eq/=.
  - left. eauto.
  - right. split; [done|]. by exists s, v.
Qed.

Lemma flask_response_inl e : status (flask_response (inl e)) <> 200.
Proof. by destruct e. Qed.

Lemma on_db_error_result E e w r w' :
  on_db_error E e w = (r, w') -> status (flask_response r) <> 200.
Proof.
  unfold on_db_error, log, rollback, fail_if, esm_bind, modify, ret, raise.
  destruct (e_faults E OpRollback); intros [= <- _]; discriminate.
Qed.

Lemma close_all_ok E w w' : close_all E w = (inr tt, w') -> w_conn w' = ConnClosed.
Proof.
  unfold close_all, fail_if, esm_bind, gets, modify, ret, raise.
  destruct (w_cursor w); [|discriminate].
  destruct (e_faults E OpCursorClose); [discriminate|].
  destruct (e_faults E OpConnClose); [discriminate|].
  by intros [= <-].
Qed.

(** The [try/except/finally] of lines 54-104: the committed rows are
    unchanged or hold one reconciliation; a 200 comes only with the
    reconciliation committed and the connection closed. *)
Lemma guarded_outcome `{LatestSelectLawful} E sid water w r w' :
  w_tx w = [] -> world_wf w ->
  try_finally (try_except (process E sid water) (on_db_error E)) (close_all E) w = (r, w') ->
  let done_spec := exists s v, adapt_text sid = Some s /\ adapt_numeric water = Some v /\
     reconcile_spec s v (e_now E) (tbl_rows (w_db w)) (tbl_rows (w_db w')) in
  (tbl_rows (w_db w') = tbl_rows (w_db w) \/ done_spec) /\
  (status (flask_response r) = 200 -> w_conn w' = ConnClosed /\ done_spec).
Proof.
  intros Htx Hwf Hrun. unfold try_finally, try_except in Hrun.
  destruct (process E sid water w) as [r1 w1] eqn:Hp.
  destruct (process_outcome E sid water w r1 w1 Htx Hwf Hp)
    as [[Hrows [e ->]] | [-> Hspec]].
  - destruct (on_db_error E e w1) as [r2 w2] eqn:Hh.
    pose proof (stable_run _ _ _ _ _ (on_db_error_keeps_db E e) Hh) as Hk2.
    pose proof (on_db_error_result E e w1 r2 w2 Hh) as Hr2.
    destruct (close_all E w2) as [r3 w3] eqn:Hc.
    pose proof (stable_run _ _ _ _ _ (close_all_keeps_db E) Hc) as Hk3.
    unfold keeps in *.
    destruct r3; simplify_eq; (split; [left; congruence|]); intros H200; exfalso;
      [eapply flask_response_inl|eapply Hr2]; exact H200.
  - destruct (close_all E w1) as [r3 w3] eqn:Hc.
    pose proof (stable_run _ _ _ _ _ (close_all_keeps_db E) Hc) as Hk3.
    unfold keeps in *.
    destruct r3 as [e3|[]]; simplify_eq; rewrite ?Hk3;
      (split; [by right|]); [intros H200; exfalso; by eapply flask_response_inl|].
    intros _. split; [by eapply close_all_ok|done].
Qed.

(** The sensor the payload names. *)
Definition request_sensor (rq : request) (s : string) : Prop :=
  exists data, req_body rq = Some data /\ py_get data "sensor_id" = Some (JStr s).

(** The reading the payload carries: the sensor [s], non-empty and
    without NUL as the validation and the text column require, and the
    value [v] the numeric column stores. *)
Definition request_reading (rq : request) (s : string) (v : Z) : Prop :=
  exists data wj, req_body rq = Some data /\ py_get data "sensor_id" = Some (JStr s) /\
    py_get data "water_percentage" = Some wj /\ adapt_numeric wj = Some v /\
    s <> "" /\ has_nul s = false.

Lemma request_reading_sensor rq s v : request_reading rq s v -> request_sensor rq s.
Proof. intros (data & wj & ? & ? & _). by exists data. Qed.

Lemma request_reading_name rq s v : request_reading rq s v -> s <> "" /\ has_nul s = false.
Proof. by intros (data & wj & _ & _ & _ & _ & ? & ?). Qed.

Lemma request_reading_unique rq s v s' v' :
  request_reading rq s v -> request_reading rq s' v' -> s = s' /\ v = v'.
Proof.
  intros (d & wj & Hb & Hs & Hw & Hv & _) (d' & wj' & Hb' & Hs' & Hw' & Hv' & _).
  simplify_eq. split; congruence.
Qed.

(** The fields of a JSON dict payload. *)
Definition payload (rq : request) (sid wj : json) : Prop :=
  req_is_json rq = true /\
  exists data, req_body rq = Some data /\ py_get data "sensor_id" = Some sid /\
    py_get data "water_percentage" = Some wj.

Ltac early_exit :=
  simplify_eq/=; left; split_and!; try done;
  first [discriminate | by intros ?%flask_response_inl].

(** The two ways through the handler: it returns before the [try]
    without touching the database or the connection, or it validates a
    payload, connects, and runs the [try/except/finally]. *)
Lemma receive_data_cases `{LatestSelect} E rq w r w' :
  receive_data E rq w = (r, w') ->
  (w_db w' = w_db w /\ w_conn w' = w_conn w /\ w_tx w' = w_tx w /\
   status (flask_response r) <> 200) \/
  (exists sid wj, e_faults E OpConnect = false /\ payload rq sid wj /\
     truthy sid = true /\ wj <> JNull /\
     try_finally (try_except (process E sid wj) (on_db_error E)) (close_all E)
       (add_log EvConnected (set_conn ConnOpen w)) = (r, w')).
Proof.
  intros Hrun.
  unfold receive_data, get_json, dict_get, connect_db, log, log_all, fail_if,
    esm_bind, modify, ret, raise in Hrun.
  destruct (req_is_json rq) eqn:Hj; [|cbn in Hrun; early_exit].
  destruct (req_body rq) as [data|] eqn:Hbody; cbn in Hrun; [|early_exit].
  destruct (py_get data "sensor_id") as [sid|] eqn:Hsid; cbn -[truthy is_none] in Hrun;
    [|early_exit].
  destruct (py_get data "water_percentage") as [wat|] eqn:Hwat;
    cbn -[truthy is_none] in Hrun; [|early_exit].
  destruct (truthy sid && negb (is_none wat)) eqn:Hv; cbn -[truthy is_none] in Hrun;
    [|early_exit].
  destruct (e_faults E OpConnect) eqn:Hc; cbn in Hrun; [early_exit|].
  apply andb_true_iff in Hv as [Ht Hn]. right. exists sid, wat.
  split; [done|]. split; [split; [done|]; by exists data|].
  split; [done|]. split; [by destruct wat|]. exact Hrun.
Qed.

Lemma receive_data_guarded `{LatestSelect} E rq w sid wj :
  e_faults E OpConnect = false -> payload rq sid wj -> truthy sid = true -> wj <> JNull ->
  receive_data E rq w =
  try_finally (try_except (process E sid wj) (on_db_error E)) (close_all E)
    (add_log EvConnected (set_conn ConnOpen w)).
Proof.
  intros Hc (Hj & data & Hb & Hs & Hw) Ht Hn.
  unfold receive_data, get_json, dict_get, connect_db, log, esm_bind, modify, ret.
  rewrite Hj, Hb, Hs, Hw. cbn -[truthy is_none]. rewrite Ht, Hc.
  by destruct wj.
Qed.

(** The whole handler, from a world with no open transaction. *)
Lemma receive_data_outcome `{LatestSelectLawful} E rq w r w' :
  w_tx w = [] -> world_wf w -> receive_data E rq w = (r, w') ->
  let done_spec := exists s v, request_reading rq s v /\
     reconcile_spec s v (e_now E) (tbl_rows (w_db w)) (tbl_rows (w_db w')) in
  (tbl_rows (w_db w') = tbl_rows (w_db w) \/ done_spec) /\
  (status (flask_response r) = 200 -> w_conn w' = ConnClosed /\ done_spec).
Proof.
  intros Htx Hwf [(Hdb & _ & _ & Hst) | (sid & wj & Hc & Hp & Ht & Hn & Hrun)]%receive_data_cases.
  { rewrite Hdb. split; [by left|done]. }
  apply guarded_outcome in Hrun as [Hall Hok]; [|done|done].
  destruct Hp as (_ & data & Hb & Hs & Hw).
  assert (forall s v, adapt_text sid = Some s -> adapt_numeric wj = Some v ->
            reconcile_spec s v (e_now E) (tbl_rows (w_db w)) (tbl_rows (w_db w')) ->
            exists s v, request_reading rq s v /\
              reconcile_spec s v (e_now E) (tbl_rows (w_db w)) (tbl_rows (w_db w')))
    as Hlift.
  { intros s v Hs' Hv Hspec. destruct (adapt_text_some sid s Ht Hs') as [-> Hnul].
    exists s, v. split; [|done].
    exists data, wj. split_and!; try done. by apply truthy_str. }
  split.
  - destruct Hall as [Hrows | (s & v & Hs' & Hv & Hspec)]; [by left|right; eauto].
  - intros H200. destruct (Hok H200) as (Hc' & s & v & Hs' & Hv & Hspec). eauto.
Qed.

(** ** One request *)

Lemma serve_run `{LatestSelect} E rq db :
  serve E rq db = (flask_response (fst (receive_data E rq (request_start db))),
                   snd (receive_data E rq (request_start db))).
Proof. unfold serve, flask_dispatch. by destruct (receive_data E rq (request_start db)). Qed.

Lemma serve_outcome `{LatestSelectLawful} E rq db :
  table_wf db ->
  let resp := fst (serve E rq db) in
  let w' := snd (serve E rq db) in
  let done_spec := exists s v, request_reading rq s v /\
     reconcile_spec s v (e_now E) (tbl_rows db) (tbl_rows (w_db w')) in
  (tbl_rows (w_db w') = tbl_rows db \/ done_spec) /\
  (status resp = 200 -> w_conn w' = ConnClosed /\ done_spec).
Proof.
  intros Hwf. rewrite serve_run. simpl.
  destruct (receive_data E rq (request_start db)) as [r w'] eqn:Hrun. simpl.
  by apply (receive_data_outcome E rq (request_start db) r w').
Qed.

(** Concrete inputs for the witnesses. *)
Definition cfg_ex : pg_config :=
  mkConfig (Some "db.internal") (Some "railway") (Some "postgres") (Some "pw") (Some "5432").
Definition no_faults : dbop -> bool := fun _ => false.
Definition env_at (now : Z) : env := mkEnv cfg_ex now no_faults.
Definition reading (s : string) (v : json) : request :=
  mkRequest "application/json" (Some (JObj [("sensor_id", JStr s); ("water_percentage", v)])).
Definition db_ex : table := mkTable [mkRow 1 "tank-1" 42 0; mkRow 2 "tank-2" 10 0] 2.

(** C6 (P5, atomicity).  Whatever fails and whatever the request, the
    committed rows after the request are the rows before it, or the rows
    after exactly one reconciliation of a reading of the sensor the
    request names: never a partial write. *)
Theorem serve_all_or_nothing `{LatestSelectLawful} E rq db :
  table_wf db ->
  tbl_rows (w_db (snd (serve E rq db))) = tbl_rows db \/
  exists s v, request_reading rq s v /\
    reconcile_spec s v (e_now E) (tbl_rows db) (tbl_rows (w_db (snd (serve E rq db)))).
Proof. intros Hwf. apply (serve_outcome E rq db Hwf). Qed.

Lemma serve_all_or_nothing_witness :
  let E := mkEnv cfg_ex 30000000 (fun op => match op with OpCommit => true | _ => false end) in
  tbl_rows (w_db (snd (serve E (reading "tank-1" (JNum 45)) db_ex))) = tbl_rows db_ex \/
  exists s v, request_reading (reading "tank-1" (JNum 45)) s v /\
    reconcile_spec s v (e_now E) (tbl_rows db_ex)
      (tbl_rows (w_db (snd (serve E (reading "tank-1" (JNum 45)) db_ex)))).
Proof. apply serve_all_or_nothing. decide_by_eval. Defined.

(** C9 (success).  A 200 response is sent only when one reconciliation
    of the named sensor's reading has been committed and the connection
    has been closed. *)
Theorem serve_ok_committed `{LatestSelectLawful} E rq db :
  table_wf db -> status (fst (serve E rq db)) = 200 ->
  w_conn (snd (serve E rq db)) = ConnClosed /\
  exists s v, request_reading rq s v /\
    reconcile_spec s v (e_now E) (tbl_rows db) (tbl_rows (w_db (snd (serve E rq db)))).
Proof. intros Hwf. apply (serve_outcome E rq db Hwf). Qed.

Lemma serve_ok_committed_witness :
  w_conn (snd (serve (env_at 30000000) (reading "tank-1" (JNum 45)) db_ex)) = ConnClosed /\
  exists s v, request_reading (reading "tank-1" (JNum 45)) s v /\
    reconcile_spec s v 30000000 (tbl_rows db_ex)
      (tbl_rows (w_db (snd (serve (env_at 30000000) (reading "tank-1" (JNum 45)) db_ex)))).
Proof.
  apply (serve_ok_committed (env_at 30000000)).
  - decide_by_eval.
  - vm_compute. reflexivity.
Defined.

(** C7 (P6, isolation).  On a well-formed table, a request never changes
    the rows of a sensor it does not name, whatever fails. *)
Theorem serve_isolation `{LatestSelectLawful} E rq db s' :
  table_wf db -> ~ request_sensor rq s' ->
  sensor_rows s' (tbl_rows (w_db (snd (serve E rq db)))) = sensor_rows s' (tbl_rows db).
Proof.
  intros Hwf Hnot. destruct (serve_outcome E rq db Hwf) as [[-> | (s & v & Hs & Hspec)] _];
    [done|].
  apply (reconcile_spec_other s v (e_now E)); [done|].
  intros ->. by apply Hnot, (request_reading_sensor rq s' v).
Qed.

Lemma serve_isolation_witness :
  sensor_rows "tank-2" (tbl_rows (w_db (snd (serve (env_at 30000000) (reading "tank-1" (JNum 45)) db_ex))))
  = sensor_rows "tank-2" (tbl_rows db_ex).
Proof.
  apply serve_isolation.
  - decide_by_eval.
  - intros (data & [= <-] & Hget). vm_compute in Hget. congruence.
Defined.

(** Every request keeps the table well formed. *)
Lemma serve_preserves_wf `{LatestSelect} E rq db :
  table_wf db -> table_wf (w_db (snd (serve E rq db))).
Proof.
  intros Hwf. rewrite serve_run. simpl.
  destruct (receive_data E rq (request_start db)) as [r w'] eqn:Hrun.
  pose proof (stable_run _ _ _ _ _ (receive_data_wf E rq) Hrun) as Hp.
  apply Hp. by split.
Qed.


(** ** The path without failures *)

Lemma upsert_writes_succeeds `{LatestSelect} E sid water w s v :
  (forall op, e_faults E op = false) -> adapt_text sid = Some s -> adapt_numeric water = Some v ->
  exists w', upsert_writes E sid water w = (inr tt, w') /\ w_cursor w' = Some CurOpen.
Proof.
  intros Hnf Hs Hv.
  unfold upsert_writes, open_cursor, execute_select, execute_update, execute_insert,
    fail_if, log, esm_bind, modify, gets, ret.
  rewrite !Hnf, Hs, Hv. cbn. destruct (latest_select _ _ _); cbn; eauto.
Qed.

Lemma guarded_succeeds `{LatestSelect} E sid water w s v :
  (forall op, e_faults E op = false) -> adapt_text sid = Some s -> adapt_numeric water = Some v ->
  exists w', try_finally (try_except (process E sid water) (on_db_error E)) (close_all E) w
             = (inr resp_upserted, w').
Proof.
  intros Hnf Hs Hv.
  destruct (upsert_writes_succeeds E sid water w s v Hnf Hs Hv) as (w1 & Hw1 & Hc1).
  unfold try_finally, try_except, process, commit, close_all, fail_if, esm_bind,
    modify, gets, ret.
  rewrite Hw1, !Hnf. cbn. rewrite Hc1. cbn. eauto.
Qed.

Lemma reading_payload s v : payload (reading s v) (JStr s) v.
Proof. split; [done|]. eexists. split; [done|]. by split. Qed.

(** Without failures a valid reading is answered 200 and reconciled. *)
Lemma serve_reconciles `{LatestSelectLawful} E rq db s wj v :
  table_wf db -> (forall op, e_faults E op = false) ->
  payload rq (JStr s) wj -> s <> "" -> has_nul s = false -> adapt_numeric wj = Some v ->
  fst (serve E rq db) = resp_upserted /\
  reconcile_spec s v (e_now E) (tbl_rows db) (tbl_rows (w_db (snd (serve E rq db)))).
Proof.
  intros Hwf Hnf Hrq Hs Hnul Hv.
  destruct (guarded_succeeds E (JStr s) wj
              (add_log EvConnected (set_conn ConnOpen (request_start db))) s v Hnf
              (adapt_text_ok s Hnul) Hv)
    as [w' Hrun].
  rewrite <-(receive_data_guarded E rq) in Hrun;
    [|apply Hnf|done|by apply truthy_str|by intros ->].
  assert (fst (serve E rq db) = resp_upserted) as Hresp by (by rewrite serve_run, Hrun).
  destruct (serve_outcome E rq db Hwf) as [_ Hok].
  destruct Hok as (Hc & s' & v' & Hrd & Hspec); [by rewrite Hresp|].
  destruct Hrq as (_ & data & Hb & Hsid & Hwat).
  destruct (request_reading_unique rq s v s' v') as [<- <-]; [|done|].
  - by exists data, wj.
  - done.
Qed.

(** C1 (functional refinement of spec 4.1).  A JSON request naming a
    non-empty sensor [s] and a value the numeric column stores as [v],
    served without failure, answers 200, commits exactly one
    reconciliation of the reading [(s, v)] at the request's time (the
    newest row of [s] with [timestamp >= now - 60 s] updated in place, or
    a new row with a fresh id), and closes the connection. *)
Theorem serve_upsert `{LatestSelectLawful} E rq db s wj v :
  table_wf db -> (forall op, e_faults E op = false) ->
  payload rq (JStr s) wj -> s <> "" -> has_nul s = false -> adapt_numeric wj = Some v ->
  fst (serve E rq db) = resp_upserted /\
  w_conn (snd (serve E rq db)) = ConnClosed /\
  reconcile_spec s v (e_now E) (tbl_rows db) (tbl_rows (w_db (snd (serve E rq db)))).
Proof.
  intros Hwf Hnf Hrq Hs Hnul Hv.
  destruct (serve_reconciles E rq db s wj v Hwf Hnf Hrq Hs Hnul Hv) as [Hresp Hspec].
  split_and!; [done| |done].
  apply (serve_outcome E rq db Hwf). by rewrite Hresp.
Qed.

Lemma serve_upsert_witness :
  fst (serve (env_at 30000000) (reading "tank-1" (JNum 45)) db_ex) = resp_upserted /\
  w_conn (snd (serve (env_at 30000000) (reading "tank-1" (JNum 45)) db_ex)) = ConnClosed /\
  reconcile_spec "tank-1" 45 30000000 (tbl_rows db_ex)
    (tbl_rows (w_db (snd (serve (env_at 30000000) (reading "tank-1" (JNum 45)) db_ex)))).
Proof.
  apply (serve_upsert (env_at 30000000) _ _ _ (JNum 45)).
  - decide_by_eval.
  - reflexivity.
  - split; [reflexivity|]. eexists. split; [reflexivity|]. vm_compute. split; reflexivity.
  - discriminate.
  - reflexivity.
  - reflexivity.
Defined.

(** ** Validation and the error paths *)

(** What [receive_data] rejects before opening a connection: a request
    whose [Content-Type] is not JSON (whatever its body), a body that does not parse, or a dict whose
    [sensor_id] is falsy or whose [water_percentage] is [None] (absent or
    [null]). *)
Definition rejected_payload (rq : request) : Prop :=
  req_is_json rq = false \/ req_body rq = None \/
  exists data sid wj, req_body rq = Some data /\ py_get data "sensor_id" = Some sid /\
    py_get data "water_percentage" = Some wj /\ (truthy sid = false \/ wj = JNull).

Ltac run_request :=
  rewrite serve_run; unfold receive_data, get_json, dict_get, connect_db, log, log_all,
    fail_if, esm_bind, modify, ret, raise.

(** C5 (P4, validation).  A rejected payload gets a 400 and the
    database is never contacted: no connection, no change. *)
Theorem serve_rejects_invalid `{LatestSelect} E rq db :
  rejected_payload rq ->
  status (fst (serve E rq db)) = 400 /\ w_db (snd (serve E rq db)) = db /\
  w_conn (snd (serve E rq db)) = NoConn.
Proof.
  intros [Hj | [Hb | (data & sid & wj & Hb & Hs & Hw & Hbad)]]; run_request.
  - by rewrite Hj.
  - destruct (req_is_json rq); [|done]. by rewrite Hb.
  - destruct (req_is_json rq); [|done]. rewrite Hb, Hs, Hw. cbn -[truthy].
    replace (truthy sid && negb (is_none wj)) with false; [done|].
    destruct Hbad as [-> | ->]; [done|]. by rewrite andb_false_r.
Qed.

Lemma serve_rejects_invalid_witness :
  status (fst (serve (env_at 0) (reading "" (JNum 45)) db_ex)) = 400 /\
  w_db (snd (serve (env_at 0) (reading "" (JNum 45)) db_ex)) = db_ex /\
  w_conn (snd (serve (env_at 0) (reading "" (JNum 45)) db_ex)) = NoConn.
Proof.
  apply serve_rejects_invalid. right; right.
  exists (JObj [("sensor_id", JStr ""); ("water_percentage", JNum 45)]), (JStr ""), (JNum 45).
  split_and!; try reflexivity. by left.
Defined.

(** C14 (spec/code divergence).  A JSON body that is not an object (a
    list, a number, a string, [true], [null]) has no [.get]: the handler
    raises [AttributeError] and Flask answers 500 with its error page,
    where the spec asks for a 400. *)
Theorem serve_non_object_500 `{LatestSelect} E rq db data :
  req_is_json rq = true -> req_body rq = Some data ->
  (forall kvs, data <> JObj kvs) ->
  fst (serve E rq db) = mkResponse 500 ErrorPage /\ w_db (snd (serve E rq db)) = db /\
  w_conn (snd (serve E rq db)) = NoConn.
Proof.
  intros Hj Hb Hno. run_request. rewrite Hj, Hb.
  destruct data; cbn; try done. by destruct (Hno kvs).
Qed.

Lemma serve_non_object_500_witness :
  fst (serve (env_at 0) (mkRequest "application/json" (Some (JArr [JNum 45]))) db_ex) = mkResponse 500 ErrorPage /\
  w_db (snd (serve (env_at 0) (mkRequest "application/json" (Some (JArr [JNum 45]))) db_ex)) = db_ex /\
  w_conn (snd (serve (env_at 0) (mkRequest "application/json" (Some (JArr [JNum 45]))) db_ex)) = NoConn.
Proof. apply (serve_non_object_500 _ _ _ (JArr [JNum 45])); [reflexivity|reflexivity|discriminate]. Defined.

Lemma on_db_error_keeps_cursor E e : stable (keeps w_cursor) (on_db_error E e).
Proof. stable_solve; intros w0; reflexivity. Qed.

(** After the [try/except], [cursor] is bound whenever [conn.cursor()]
    did not fail. *)
Lemma guarded_body_cursor `{LatestSelect} E sid wj w r w' :
  e_faults E OpCursor = false ->
  try_except (process E sid wj) (on_db_error E) w = (r, w') -> w_cursor w' = Some CurOpen.
Proof.
  intros Hc Hrun. unfold try_except, process, esm_bind in Hrun.
  destruct (upsert_writes E sid wj w) as [r1 w1] eqn:Hw.
  pose proof (upsert_writes_cursor E sid wj w r1 w1 Hc Hw) as Hc1.
  destruct r1 as [e|[]].
  - apply (stable_run _ _ _ _ _ (on_db_error_keeps_cursor E e)) in Hrun. by rewrite Hrun.
  - destruct (commit E w1) as [r2 w2] eqn:Hcm.
    assert (w_cursor w2 = Some CurOpen) as Hc2.
    { revert Hcm. unfold commit, fail_if, esm_bind, modify, ret, raise.
      destruct (e_faults E OpCommit); intros [= _ <-]; done. }
    destruct r2 as [e|[]].
    + apply (stable_run _ _ _ _ _ (on_db_error_keeps_cursor E e)) in Hrun. by rewrite Hrun.
    + unfold ret in Hrun. by simplify_eq.
Qed.

Lemma close_all_closes E w :
  w_cursor w = Some CurOpen -> e_faults E OpCursorClose = false ->
  e_faults E OpConnClose = false -> w_conn (snd (close_all E w)) = ConnClosed.
Proof.
  intros Hc Hcc Hcn. unfold close_all, fail_if, esm_bind, gets, modify, ret.
  by rewrite Hc, Hcc, Hcn.
Qed.

Lemma upsert_writes_rejects `{LatestSelect} E sid water w :
  (forall op, e_faults E op = false) -> (adapt_text sid = None \/ adapt_numeric water = None) ->
  exists e w', upsert_writes E sid water w = (inl e, w') /\
    w_cursor w' = Some CurOpen /\ w_db w' = w_db w /\ w_conn w' = w_conn w.
Proof.
  intros Hnf Hbad.
  unfold upsert_writes, open_cursor, execute_select, execute_update, execute_insert,
    fail_if, log, esm_bind, modify, gets, ret, raise.
  rewrite !Hnf. cbn. destruct (adapt_text sid) eqn:Hs; cbn; [|eauto 10].
  destruct Hbad as [Hbad| ->]; [congruence|].
  destruct (latest_select _ _ _); cbn; eauto 10.
Qed.

(** A parameter the database does not accept: 500, nothing written,
    the connection closed. *)
Lemma serve_rejected_param `{LatestSelect} E rq db sid wj :
  (forall op, e_faults E op = false) -> payload rq sid wj -> truthy sid = true -> wj <> JNull ->
  (adapt_text sid = None \/ adapt_numeric wj = None) ->
  fst (serve E rq db) = resp_db_failed /\ w_db (snd (serve E rq db)) = db /\
  w_conn (snd (serve E rq db)) = ConnClosed.
Proof.
  intros Hnf Hp Ht Hn Hbad. rewrite serve_run, (receive_data_guarded E rq _ sid wj);
    [|apply Hnf|done|done|done].
  destruct (upsert_writes_rejects E sid wj
              (add_log EvConnected (set_conn ConnOpen (request_start db))) Hnf Hbad)
    as (e & w1 & Hw & Hc1 & Hdb1 & Hcn1).
  unfold try_finally, try_except, process, on_db_error, close_all, log, rollback,
    fail_if, esm_bind, gets, modify, ret, raise.
  rewrite Hw, !Hnf. cbn. rewrite Hc1. cbn. by rewrite Hdb1.
Qed.

(** C13 (spec/code divergence).  Validation tests only truthiness: a
    truthy [sensor_id] that is not a string, or a [water_percentage] that
    is not [None] and that a numeric column refuses in every PostgreSQL
    version ([numeric_rejected]: a string without a digit that is not
    [NaN] or [Infinity] such as ["abc"], [true], a list, a dict), passes
    it.  With no failure of the database such a
    request reaches the database, a statement is rejected, the
    transaction is rolled back and the answer is 500 ("Failed to process
    data in DB"), where the spec asks for a 400 before any store
    interaction.  Nothing is written and the connection is closed. *)
Theorem serve_ill_typed_500 `{LatestSelect} E rq db sid wj :
  (forall op, e_faults E op = false) -> payload rq sid wj -> truthy sid = true -> wj <> JNull ->
  (adapt_text sid = None \/ numeric_rejected wj = true) ->
  fst (serve E rq db) = resp_db_failed /\ w_db (snd (serve E rq db)) = db /\
  w_conn (snd (serve E rq db)) = ConnClosed.
Proof.
  intros Hnf Hp Ht Hn Hbad. apply (serve_rejected_param E rq db sid wj); try done.
  destruct Hbad as [|Hr]; [by left|right]. by apply numeric_rejected_adapt.
Qed.

Lemma serve_ill_typed_500_witness :
  fst (serve (env_at 0) (reading "tank-1" (JStr "abc")) db_ex) = resp_db_failed /\
  w_db (snd (serve (env_at 0) (reading "tank-1" (JStr "abc")) db_ex)) = db_ex /\
  w_conn (snd (serve (env_at 0) (reading "tank-1" (JStr "abc")) db_ex)) = ConnClosed.
Proof.
  apply (serve_ill_typed_500 _ _ _ (JStr "tank-1") (JStr "abc")).
  - reflexivity.
  - split; [reflexivity|]. eexists. split; [reflexivity|]. vm_compute. split; reflexivity.
  - reflexivity.
  - discriminate.
  - right. reflexivity.
Defined.

(** C11 (code bug).  When [conn.cursor()] raises, the local [cursor] is
    never bound: the [except] block rolls back and returns its JSON 500,
    but the [finally] block's [if cursor:] raises [UnboundLocalError],
    which replaces that response by Flask's error page and skips
    [conn.close()]: the connection is left open. *)
Theorem serve_cursor_failure `{LatestSelect} E rq db sid wj :
  e_faults E OpConnect = false -> e_faults E OpCursor = true ->
  payload rq sid wj -> truthy sid = true -> wj <> JNull ->
  fst (serve E rq db) = mkResponse 500 ErrorPage /\
  w_conn (snd (serve E rq db)) = ConnOpen /\ w_db (snd (serve E rq db)) = db.
Proof.
  intros Hc Hcur Hp Ht Hn. rewrite serve_run, (receive_data_guarded E rq _ sid wj); [|done..].
  unfold try_finally, try_except, process, upsert_writes, open_cursor, on_db_error,
    close_all, log, rollback, fail_if, esm_bind, gets, modify, ret, raise.
  rewrite Hcur. cbn. by destruct (e_faults E OpRollback).
Qed.

Lemma serve_cursor_failure_witness :
  let E := mkEnv cfg_ex 0 (fun op => match op with OpCursor => true | _ => false end) in
  fst (serve E (reading "tank-1" (JNum 45)) db_ex) = mkResponse 500 ErrorPage /\
  w_conn (snd (serve E (reading "tank-1" (JNum 45)) db_ex)) = ConnOpen /\
  w_db (snd (serve E (reading "tank-1" (JNum 45)) db_ex)) = db_ex.
Proof.
  apply (serve_cursor_failure _ _ _ (JStr "tank-1") (JNum 45)).
  - reflexivity.
  - reflexivity.
  - split; [reflexivity|]. eexists. split; [reflexivity|]. vm_compute. split; reflexivity.
  - reflexivity.
  - discriminate.
Defined.

(** C12 (spec/code divergence).  When the reconciliation commits and
    then [conn.close()] raises in the [finally] block, the answer is
    Flask's 500 page although the write is committed: the committed rows
    are those of the same request served without any failure.  The spec
    promises zero writes on every failure path. *)
Theorem serve_close_failure_after_commit `{LatestSelect} E rq db s wj v :
  (forall op, op <> OpConnClose -> e_faults E op = false) -> e_faults E OpConnClose = true ->
  payload rq (JStr s) wj -> s <> "" -> has_nul s = false -> adapt_numeric wj = Some v ->
  fst (serve E rq db) = mkResponse 500 ErrorPage /\
  w_db (snd (serve E rq db)) = w_db (snd (serve (mkEnv (e_config E) (e_now E) no_faults) rq db)).
Proof.
  intros Hnf Hcl Hp Hs Hnul Hv.
  assert (truthy (JStr s) = true) as Ht by (by apply truthy_str).
  assert (wj <> JNull) as Hn by (by intros ->).
  rewrite !serve_run, (receive_data_guarded E rq _ (JStr s) wj), 
    (receive_data_guarded (mkEnv (e_config E) (e_now E) no_faults) rq _ (JStr s) wj);
    try done; [|by apply Hnf].
  unfold try_finally, try_except, process, upsert_writes, open_cursor, execute_select,
    execute_update, execute_insert, commit, on_db_error, close_all, log, rollback,
    fail_if, esm_bind, gets, modify, ret, raise.
  rewrite !Hnf by discriminate. rewrite Hcl, Hv, adapt_text_ok by done. cbn.
  by destruct (latest_select _ _ _).
Qed.

Lemma serve_close_failure_after_commit_witness :
  let E := mkEnv cfg_ex 30000000 (fun op => match op with OpConnClose => true | _ => false end) in
  fst (serve E (reading "tank-1" (JNum 45)) db_ex) = mkResponse 500 ErrorPage /\
  w_db (snd (serve E (reading "tank-1" (JNum 45)) db_ex)) =
  w_db (snd (serve (mkEnv (e_config E) (e_now E) no_faults) (reading "tank-1" (JNum 45)) db_ex)).
Proof.
  apply (serve_close_failure_after_commit _ _ _ "tank-1" (JNum 45) 45).
  - intros []; try reflexivity. done.
  - reflexivity.
  - split; [reflexivity|]. eexists. split; [reflexivity|]. vm_compute. split; reflexivity.
  - discriminate.
  - reflexivity.
  - reflexivity.
Defined.

(** C17 (safety, resource release).  Unless [conn.cursor()],
    [cursor.close()] or [conn.close()] itself fails, no request leaves a
    connection open: it never opened one, or it closed it. *)
Theorem serve_releases_connection `{LatestSelect} E rq db :
  e_faults E OpCursor = false -> e_faults E OpCursorClose = false ->
  e_faults E OpConnClose = false ->
  w_conn (snd (serve E rq db)) <> ConnOpen.
Proof.
  intros Hc Hcc Hcn. rewrite serve_run. simpl.
  destruct (receive_data E rq (request_start db)) as [r w'] eqn:Hrun. simpl.
  destruct (receive_data_cases E rq _ r w' Hrun)
    as [(_ & -> & _) | (sid & wj & _ & _ & _ & _ & Hg)]; [done|].
  unfold try_finally in Hg.
  destruct (try_except (process E sid wj) (on_db_error E)
              (add_log EvConnected (set_conn ConnOpen (request_start db)))) as [r1 w1] eqn:Hb.
  pose proof (close_all_closes E w1 (guarded_body_cursor E sid wj _ r1 w1 Hc Hb) Hcc Hcn) as Hcl.
  destruct (close_all E w1) as [[e|[]] w2]; simplify_eq/=; by rewrite Hcl.
Qed.

Lemma serve_releases_connection_witness :
  let E := mkEnv cfg_ex 0 (fun op => match op with OpCommit => true | _ => false end) in
  w_conn (snd (serve E (reading "tank-1" (JNum 45)) db_ex)) <> ConnOpen.
Proof. apply serve_releases_connection; reflexivity. Defined.

(** C18 (error path of [connect_db]).  When the connection attempt
    fails, a validated request is answered 500 ("Database connection
    failed") without any other effect than the log: the error line, then
    one line for each unset or empty variable among PGHOST, PGDATABASE,
    PGUSER, PGPASSWORD and PGPORT, in that order. *)
Theorem serve_connect_failure `{LatestSelect} E rq db sid wj :
  e_faults E OpConnect = true -> payload rq sid wj -> truthy sid = true -> wj <> JNull ->
  serve E rq db =
  (resp_conn_failed, mkWorld db NoConn [] None (EvConnectError :: missing_vars (e_config E))).
Proof.
  intros Hc (Hj & data & Hb & Hs & Hw) Ht Hn.
  rewrite serve_run. unfold receive_data, get_json, dict_get, connect_db, log, log_all,
    esm_bind, modify, ret.
  rewrite Hj, Hb, Hs, Hw. cbn -[truthy is_none]. rewrite Ht, Hc.
  by destruct wj.
Qed.

Lemma serve_connect_failure_witness :
  let E := mkEnv (mkConfig (Some "db.internal") None (Some "postgres") (Some "") (Some "5432")) 0
             (fun op => match op with OpConnect => true | _ => false end) in
  serve E (reading "tank-1" (JNum 45)) db_ex =
  (resp_conn_failed, mkWorld db_ex NoConn [] None
     (EvConnectError :: missing_vars (e_config E))).
Proof.
  apply (serve_connect_failure _ _ _ (JStr "tank-1") (JNum 45)).
  - reflexivity.
  - split; [reflexivity|]. eexists. split; [reflexivity|]. vm_compute. split; reflexivity.
  - reflexivity.
  - discriminate.
Defined.



(** Rewrite with the equations [case_match] recorded. *)
Ltac use_eqns :=
  repeat match goal with H : ?a = _ |- context [?a] => progress rewrite H end.

Lemma upsert_writes_result `{LatestSelect} E sid wj w r w' :
  w_tx w = [] -> upsert_writes E sid wj w = (r, w') ->
  w_cursor w' = (if e_faults E OpCursor then w_cursor w else Some CurOpen) /\
  match r with
  | inl _ => e_faults E OpCursor || body_fails E sid wj (w_db w) = true
  | inr _ => e_faults E OpCursor || body_fails E sid wj (w_db w) = false
  end.
Proof.
  destruct w as [db c tx cur lg]; cbn. intros -> Hrun.
  run_writes Hrun; unfold modify in *; simplify_eq/=; unfold body_fails; use_eqns;
    try done; destruct (latest_select _ _ _); simplify_eq/=; use_eqns; done.
Qed.

Lemma process_result `{LatestSelect} E sid wj w r w' :
  w_tx w = [] -> process E sid wj w = (r, w') ->
  let fails := e_faults E OpCursor || body_fails E sid wj (w_db w) || e_faults E OpCommit in
  w_cursor w' = (if e_faults E OpCursor then w_cursor w else Some CurOpen) /\
  match r with inl _ => fails = true | inr resp => resp = resp_upserted /\ fails = false end.
Proof.
  intros Htx Hrun fails. unfold process, esm_bind in Hrun.
  destruct (upsert_writes E sid wj w) as [r1 w1] eqn:Hw.
  destruct (upsert_writes_result E sid wj w r1 w1 Htx Hw) as [Hc Hr].
  destruct r1 as [e|[]]; [simplify_eq; subst fails; by rewrite Hr|].
  unfold commit, fail_if, esm_bind, modify, ret, raise in Hrun. subst fails.
  destruct (e_faults E OpCommit); cbn in Hrun; simplify_eq/=; rewrite Hr; by rewrite ?orb_true_r.
Qed.

Lemma on_db_error_response E e w r w' :
  on_db_error E e w = (r, w') ->
  w_cursor w' = w_cursor w /\ flask_response r =
    if e_faults E OpRollback then page 500 else resp_db_failed.
Proof.
  unfold on_db_error, log, rollback, fail_if, esm_bind, modify, ret, raise.
  destruct (e_faults E OpRollback); by intros [= <- <-].
Qed.

Lemma close_all_response E w r w' :
  close_all E w = (r, w') ->
  match r with
  | inl e => flask_response (inl e) = page 500 /\
             match w_cursor w with
             | None => True
             | Some _ => e_faults E OpCursorClose || e_faults E OpConnClose = true
             end
  | inr _ => w_cursor w <> None /\ e_faults E OpCursorClose || e_faults E OpConnClose = false
  end.
Proof.
  unfold close_all, fail_if, esm_bind, gets, modify, ret, raise.
  destruct (w_cursor w); [|by intros [= <- _]].
  destruct (e_faults E OpCursorClose); [by intros [= <- _]|].
  by destruct (e_faults E OpConnClose); intros [= <- _].
Qed.

(** The [try/except/finally] of lines 54-104 answers as the table
    says. *)
Lemma guarded_response `{LatestSelect} E sid wj w :
  w_tx w = [] -> w_cursor w = None ->
  flask_response (try_finally (try_except (process E sid wj) (on_db_error E)) (close_all E) w).1
  = try_response E sid wj (w_db w).
Proof.
  intros Htx Hcur. unfold try_finally, try_except, try_response.
  destruct (process E sid wj w) as [r1 w1] eqn:Hp.
  destruct (process_result E sid wj w r1 w1 Htx Hp) as [Hc1 Hr1]. rewrite Hcur in Hc1.
  destruct r1 as [e|resp].
  - destruct (on_db_error E e w1) as [r2 w2] eqn:Hh.
    destruct (on_db_error_response E e w1 r2 w2 Hh) as [Hc2 Hf2].
    destruct (close_all E w2) as [r3 w3] eqn:Hc.
    pose proof (close_all_response E w2 r3 w3 Hc) as Hr3. rewrite Hc2, Hc1 in Hr3.
    destruct (e_faults E OpCursor); [destruct r3; [by destruct Hr3|by destruct Hr3]|].
    cbn [orb] in Hr1 |- *. rewrite Hr1.
    destruct r3 as [e3|]; destruct Hr3 as [Hf3 Hr3]; rewrite Hr3; [exact Hf3|exact Hf2].
  - destruct Hr1 as [-> Hr1].
    destruct (close_all E w1) as [r3 w3] eqn:Hc.
    pose proof (close_all_response E w1 r3 w3 Hc) as Hr3. rewrite Hc1 in Hr3.
    destruct (e_faults E OpCursor); [done|]. cbn [orb] in Hr1 |- *. rewrite Hr1.
    destruct r3 as [e3|]; destruct Hr3 as [Hf3 Hr3]; rewrite Hr3; [exact Hf3|done].
Qed.



(** ** The [Content-Type] header *)

(** The handler sees the header only through [request.is_json]. *)
Lemma serve_content_type `{LatestSelect} E db ct ct' body :
  is_json_mimetype ct = is_json_mimetype ct' ->
  serve E (mkRequest ct body) db = serve E (mkRequest ct' body) db.
Proof. intros Hct. unfold serve, flask_dispatch, receive_data, req_is_json. simpl. by rewrite Hct. Qed.

(** A reading sent with [application/json] in any case, with
    whitespace around it and any parameters (such as
    [Application/JSON; charset=utf-8], as HTTP clients commonly send),
    is served as one sent as [application/json]. *)
Lemma serve_json_header `{LatestSelect} E db body l m r p :
  all_space l = true -> all_space r = true -> params_tail p -> lower m = "application/json" ->
  serve E (mkRequest (l +:+ m +:+ r +:+ p) body) db =
  serve E (mkRequest "application/json" body) db.
Proof. intros. apply serve_content_type. by rewrite json_content_type. Qed.

(** Whatever the body holds, even a valid reading, a request whose
    [Content-Type] is not JSON (here [text/plain], or no header at all)
    is answered 400 "Request must be JSON" without touching the
    database. *)
Lemma serve_not_json_header `{LatestSelect} E db body ct :
  (ct = "text/plain" \/ ct = EmptyString) ->
  serve E (mkRequest ct body) db = (resp_not_json, mkWorld db NoConn [] None [EvNotJson]).
Proof. intros [-> | ->]; reflexivity. Qed.
