(* ===== verification/Trace.v ===== *)
(** * Sequences of requests

    The server answers one request after another against the same
    database; the clock is the [e_now] of each request.  This file
    follows the committed table across such sequences: the tables
    reachable from an empty database, the effect of two readings of one
    sensor as a function of the time between them (spec section 8, P1 to
    P3), the one-live-row invariant of spec section 3 under a monotone
    clock and its failure when the clock goes back, the ids a failed
    insert consumes, and what the [sensor_id] column of a reachable
    table can hold. *)

From stdpp Require Import base list strings sets.
From Stdlib Require Import ZArith Lia.
From S2P Require Import Prelude Mimetype Json Literal Table Server.

Open Scope Z_scope.

(** The committed table after one request. *)
Definition step_db `{LatestSelect} (E : env) (rq : request) (db : table) : table :=
  w_db (snd (serve E rq db)).

(** The tables a fresh database can reach: any request, any failures. *)
Inductive reachable `{LatestSelect} : table -> Prop :=
| reach_init : reachable (mkTable [] 0)
| reach_step E rq db : reachable db -> reachable (step_db E rq db).

(** No row of [s] in the window of a reading at time [t]. *)
Definition no_recent (s : string) (t : Z) (rs : list row) : Prop :=
  forall r, r ∈ rs -> row_sensor r = s -> row_ts r < t - minute.

(** ** Lemmas on the specification *)

Lemma reconcile_fresh s v now rs rs' :
  no_recent s now rs -> reconcile_spec s v now rs rs' ->
  exists id, rs' = rs ++ [mkRow id s v now] /\ forall x, x ∈ rs -> row_id x <> id.
Proof.
  intros Hno [r (Hin & Hw & _) | id Hl Hfresh].
  - apply in_window_true in Hw as [Hs Hge]. specialize (Hno r Hin Hs). lia.
  - eauto.
Qed.

Lemma reconcile_single s v now rs rs' id v1 t1 :
  no_recent s now rs -> now - minute <= t1 -> (forall x, x ∈ rs -> row_id x <> id) ->
  reconcile_spec s v now (rs ++ [mkRow id s v1 t1]) rs' ->
  rs' = rs ++ [mkRow id s v now].
Proof.
  intros Hno Ht Hfresh [r (Hin & Hw & _) | id' Hl _].
  - apply in_window_true in Hw as [Hs Hge].
    apply elem_of_snoc in Hin as [Hin| ->]; [specialize (Hno r Hin Hs); lia|].
    rewrite map_app, replace_notin; [by rewrite map_cons, decide_True|].
    intros Hin. by apply (Hfresh _ Hin).
  - exfalso. assert (in_window s (now - minute) (mkRow id s v1 t1) = true) as Hw.
    { apply in_window_true. simpl. split; [done|lia]. }
    rewrite (Hl (mkRow id s v1 t1)) in Hw; [done|]. apply elem_of_snoc. by right.
Qed.

Lemma no_recent_later s t t' rs : t <= t' -> no_recent s t rs -> no_recent s t' rs.
Proof. intros Hle Hno r Hin Hs. specialize (Hno r Hin Hs). lia. Qed.

Lemma no_recent_snoc s t rs r :
  no_recent s t rs -> row_ts r < t - minute -> no_recent s t (rs ++ [r]).
Proof. intros Hno Hr x [Hin| ->]%elem_of_snoc Hs; auto. Qed.

(** Two readings of [s] at [t1] and [t2], without failures, when no row
    of [s] is in the window of the first. *)
Definition two_readings `{LatestSelect} cfg s v1 v2 t1 t2 db : table :=
  step_db (mkEnv cfg t2 no_faults) (reading s (JNum v2))
    (step_db (mkEnv cfg t1 no_faults) (reading s (JNum v1)) db).

Lemma two_readings_first `{LatestSelectLawful} cfg s v1 t1 db :
  table_wf db -> s <> "" -> has_nul s = false -> no_recent s t1 (tbl_rows db) ->
  exists id, tbl_rows (step_db (mkEnv cfg t1 no_faults) (reading s (JNum v1)) db) =
             tbl_rows db ++ [mkRow id s v1 t1] /\
             (forall x, x ∈ tbl_rows db -> row_id x <> id) /\
             table_wf (step_db (mkEnv cfg t1 no_faults) (reading s (JNum v1)) db).
Proof.
  intros Hwf Hs Hnul Hno.
  destruct (serve_reconciles (mkEnv cfg t1 no_faults) (reading s (JNum v1)) db s (JNum v1) v1)
    as [_ Hspec]; try done; try (by apply reading_payload); try (by apply adapt_numeric_num).
  destruct (reconcile_fresh s v1 t1 _ _ Hno Hspec) as (id & Hrows & Hfr).
  exists id. split_and!; [done|done|]. by apply serve_preserves_wf.
Qed.

(** ** Properties of sequences *)

(** C4 (P1, insert on a gap).  A reading of sensor [s] served without
    failure, when no row of [s] has a timestamp in the last minute (in
    particular when there is no row of [s] at all), adds exactly one
    row: the sensor, the value and the request's time, under a fresh
    id; every other row is kept. *)
Theorem serve_insert_on_gap `{LatestSelectLawful} cfg s v t db :
  table_wf db -> s <> "" -> has_nul s = false -> no_recent s t (tbl_rows db) ->
  exists id, tbl_rows (step_db (mkEnv cfg t no_faults) (reading s (JNum v)) db) =
             tbl_rows db ++ [mkRow id s v t] /\
             forall x, x ∈ tbl_rows db -> row_id x <> id.
Proof.
  intros Hwf Hs Hnul Hno.
  destruct (serve_reconciles (mkEnv cfg t no_faults) (reading s (JNum v)) db s (JNum v) v)
    as [_ Hspec]; try done; try (by apply reading_payload); try (by apply adapt_numeric_num).
  by apply (reconcile_fresh s v t).
Qed.

Lemma serve_insert_on_gap_witness :
  exists id, tbl_rows (step_db (mkEnv cfg_ex 0 no_faults) (reading "tank-3" (JNum 7)) db_ex) =
             tbl_rows db_ex ++ [mkRow id "tank-3" 7 0] /\
             forall x, x ∈ tbl_rows db_ex -> row_id x <> id.
Proof.
  apply serve_insert_on_gap.
  - decide_by_eval.
  - discriminate.
  - reflexivity.
  - intros r Hr Hs. apply list_elem_of_In in Hr. simpl in Hr.
    destruct Hr as [<-|[<-|[]]]; discriminate.
Defined.

(** C2 (P2, coalescing within the window).  Two readings of [s], served
    without failure at [t1] and then at [t2] with [t1 <= t2 <= t1 + 60 s],
    when no row of [s] is in the window of the first, add exactly one row
    to the table: it has the first reading's id and the second reading's
    value and time. *)
Theorem two_readings_coalesce `{LatestSelectLawful} cfg s v1 v2 t1 t2 db :
  table_wf db -> s <> "" -> has_nul s = false -> no_recent s t1 (tbl_rows db) ->
  t1 <= t2 <= t1 + minute ->
  exists id, tbl_rows (two_readings cfg s v1 v2 t1 t2 db) = tbl_rows db ++ [mkRow id s v2 t2].
Proof.
  intros Hwf Hs Hnul Hno Ht. unfold two_readings.
  destruct (two_readings_first cfg s v1 t1 db Hwf Hs Hnul Hno) as (id & Hrows & Hfr & Hwf1).
  destruct (serve_reconciles (mkEnv cfg t2 no_faults) (reading s (JNum v2))
              (step_db (mkEnv cfg t1 no_faults) (reading s (JNum v1)) db) s (JNum v2) v2)
    as [_ Hspec]; try done; try (by apply reading_payload); try (by apply adapt_numeric_num).
  rewrite Hrows in Hspec. exists id. simpl in Hspec.
  apply (reconcile_single s v2 t2 _ _ id v1 t1); [|unfold minute in *; lia|exact Hfr|exact Hspec].
  eapply no_recent_later; [|exact Hno]. lia.
Qed.

Lemma two_readings_coalesce_witness :
  exists id, tbl_rows (two_readings cfg_ex "tank-1" 42 45 0 30000000 (mkTable [] 0)) =
             tbl_rows (mkTable [] 0) ++ [mkRow id "tank-1" 45 30000000].
Proof.
  apply two_readings_coalesce.
  - decide_by_eval.
  - discriminate.
  - reflexivity.
  - intros r Hr. by apply list_elem_of_In in Hr.
  - vm_compute. split; discriminate.
Defined.

(** C3 (P3, split across the window).  Two readings of [s] more than
    60 s apart ([t2 > t1 + 60 s]), served without failure, when no row of
    [s] is in the window of the first, add two rows with distinct fresh
    ids, one per reading, in the order of the readings. *)
Theorem two_readings_split `{LatestSelectLawful} cfg s v1 v2 t1 t2 db :
  table_wf db -> s <> "" -> has_nul s = false -> no_recent s t1 (tbl_rows db) -> t1 + minute < t2 ->
  exists id1 id2, id1 <> id2 /\
    tbl_rows (two_readings cfg s v1 v2 t1 t2 db) =
    tbl_rows db ++ [mkRow id1 s v1 t1; mkRow id2 s v2 t2].
Proof.
  intros Hwf Hs Hnul Hno Ht. unfold two_readings.
  destruct (two_readings_first cfg s v1 t1 db Hwf Hs Hnul Hno) as (id & Hrows & Hfr & Hwf1).
  destruct (serve_reconciles (mkEnv cfg t2 no_faults) (reading s (JNum v2))
              (step_db (mkEnv cfg t1 no_faults) (reading s (JNum v1)) db) s (JNum v2) v2)
    as [_ Hspec]; try done; try (by apply reading_payload); try (by apply adapt_numeric_num).
  rewrite Hrows in Hspec. simpl in Hspec.
  assert (no_recent s t2 (tbl_rows db ++ [mkRow id s v1 t1])) as Hno2.
  { apply no_recent_snoc; [|simpl; unfold minute in *; lia].
    eapply no_recent_later; [|exact Hno]. unfold minute in *; lia. }
  destruct (reconcile_fresh s v2 t2 _ _ Hno2 Hspec) as (id2 & Hrows2 & Hfr2).
  exists id, id2. split; [|rewrite <-app_assoc in Hrows2; exact Hrows2].
  intros ->. apply (Hfr2 (mkRow id2 s v1 t1)); [|done].
  apply elem_of_snoc. by right.
Qed.

Lemma two_readings_split_witness :
  exists id1 id2, id1 <> id2 /\
    tbl_rows (two_readings cfg_ex "tank-1" 42 50 0 95000000 (mkTable [] 0)) =
    tbl_rows (mkTable [] 0) ++ [mkRow id1 "tank-1" 42 0; mkRow id2 "tank-1" 50 95000000].
Proof.
  apply two_readings_split.
  - decide_by_eval.
  - discriminate.
  - reflexivity.
  - intros r Hr. by apply list_elem_of_In in Hr.
  - vm_compute. reflexivity.
Defined.

(** ** The one-live-row invariant under a monotone clock *)

(** No row is later than [t], and two rows of one sensor with different
    ids are more than a minute apart. *)
Definition spaced (t : Z) (rs : list row) : Prop :=
  (forall x, x ∈ rs -> row_ts x <= t) /\
  (forall x y, x ∈ rs -> y ∈ rs -> row_sensor x = row_sensor y -> row_id x <> row_id y ->
     minute < Z.abs (row_ts x - row_ts y)).

(** Tables reachable from an empty database by requests whose clocks do
    not go back; [t] is the clock of the last request. *)
Inductive reachable_at `{LatestSelect} : Z -> table -> Prop :=
| reach_at_init t : reachable_at t (mkTable [] 0)
| reach_at_step t E rq db :
    reachable_at t db -> t <= e_now E -> reachable_at (e_now E) (step_db E rq db).

Lemma spaced_later t t' rs : t <= t' -> spaced t rs -> spaced t' rs.
Proof. intros Hle [Hts Hsp]. split; [|done]. intros x Hx. specialize (Hts x Hx). lia. Qed.

Lemma elem_of_replace (r r' z : row) (rs : list row) :
  z ∈ map (fun x => if decide (x = r) then r' else x) rs ->
  (z = r' /\ r ∈ rs) \/ (z ∈ rs /\ z <> r).
Proof.
  induction rs as [|x rs IH]; simpl; [set_solver|].
  case_decide as Hx; intros [->|Hz]%elem_of_cons.
  - subst x. left. split; [done|set_solver].
  - destruct (IH Hz) as [[? ?]|[? ?]]; [left|right]; split; set_solver.
  - right. split; set_solver.
  - destruct (IH Hz) as [[? ?]|[? ?]]; [left|right]; split; set_solver.
Qed.

(** One reconciliation at a clock not earlier than every row keeps the
    rows of a sensor more than a minute apart. *)
Lemma reconcile_spaced s v t now rs rs' :
  spaced t rs -> t <= now -> reconcile_spec s v now rs rs' -> spaced now rs'.
Proof.
  intros [Hts Hsp] Ht [r (Hr & Hw & Hmax) | id Hl Hfresh].
  - apply in_window_true in Hw as [Hrs Hrw].
    assert (forall y, y ∈ rs -> row_sensor y = s -> row_id y <> row_id r ->
              minute < Z.abs (now - row_ts y)) as Hfar.
    { intros y Hy Hys Hid.
      assert (minute < Z.abs (row_ts r - row_ts y)) as Hry
        by (apply Hsp; [done|done|congruence|done]).
      specialize (Hts r Hr).
      destruct (Z.le_gt_cases (now - minute) (row_ts y)) as [Hyw|Hyw]; [|lia].
      assert (row_ts y <= row_ts r) by (apply Hmax; [done|by apply in_window_true]).
      lia. }
    split.
    + intros z [[-> _]|[Hz _]]%elem_of_replace; simpl; [lia|]. specialize (Hts z Hz). lia.
    + intros x y [[-> _]|[Hx Hxr]]%elem_of_replace [[-> _]|[Hy Hyr]]%elem_of_replace;
        simpl; intros Hs Hid; [done| | |by apply Hsp].
      * apply Hfar; [done|congruence|congruence].
      * assert (minute < Z.abs (now - row_ts x)) by (apply Hfar; [done|congruence|congruence]).
        lia.
  - assert (forall y, y ∈ rs -> row_sensor y = s -> row_ts y < now - minute) as Hold.
    { intros y Hy Hys. specialize (Hl y Hy). unfold in_window in Hl.
      rewrite Hys, String.eqb_refl in Hl. simpl in Hl. apply Z.leb_gt in Hl. done. }
    split.
    + intros z [Hz| ->]%elem_of_snoc; simpl; [|lia]. specialize (Hts z Hz). lia.
    + intros x y [Hx| ->]%elem_of_snoc [Hy| ->]%elem_of_snoc; simpl; intros Hs Hid;
        [by apply Hsp| | |done].
      * specialize (Hold x Hx Hs). lia.
      * specialize (Hold y Hy (eq_sym Hs)). lia.
Qed.

(** Spec section 3: at [now], at most one row of a sensor has a
    timestamp in the trailing minute. *)
Definition one_live (now : Z) (rs : list row) : Prop :=
  forall x y, x ∈ rs -> y ∈ rs -> row_sensor x = row_sensor y ->
    now - minute <= row_ts x -> now - minute <= row_ts y -> x = y.

Lemma reachable_at_inv `{LatestSelectLawful} t db :
  reachable_at t db -> table_wf db /\ spaced t (tbl_rows db).
Proof.
  induction 1 as [t|t E rq db _ [Hwf Hsp] Ht].
  - split; [split; constructor|]. split; intros x; [|intros y]; simpl; set_solver.
  - split; [by apply serve_preserves_wf|].
    destruct (serve_outcome E rq db Hwf) as [[Hrows | (s & v & _ & Hspec)] _];
      unfold step_db.
    + rewrite Hrows. by apply (spaced_later t).
    + by apply (reconcile_spaced s v t (e_now E) (tbl_rows db)).
Qed.

Lemma reachable_at_example :
  reachable_at 30000000
    (step_db (env_at 30000000) (reading "tank-1" (JNum 45))
       (step_db (env_at 0) (reading "tank-1" (JNum 42)) (mkTable [] 0))).
Proof.
  apply (reach_at_step 0 (env_at 30000000)); [|simpl; lia].
  apply (reach_at_step 0 (env_at 0)); [constructor|simpl; lia].
Qed.

(** C10 (invariant over runs with a monotone clock).  When the clock of
    each request is not earlier than that of the previous one, every
    reachable table has no row later than the last request and keeps any
    two rows of one sensor more than a minute apart, whatever fails. *)
Theorem reachable_at_spaced `{LatestSelectLawful} t db :
  reachable_at t db -> spaced t (tbl_rows db).
Proof. intros Hr. apply (reachable_at_inv t db Hr). Qed.

Lemma reachable_at_spaced_witness :
  spaced 30000000 (tbl_rows (step_db (env_at 30000000) (reading "tank-1" (JNum 45))
       (step_db (env_at 0) (reading "tank-1" (JNum 42)) (mkTable [] 0)))).
Proof. apply reachable_at_spaced. exact reachable_at_example. Defined.

(** C8 (spec section 3, one live row per window).  Under a monotone
    clock, at any time [now] from the last request on, each sensor has at
    most one row whose timestamp lies in the trailing minute. *)
Theorem reachable_at_one_live `{LatestSelectLawful} t db now :
  reachable_at t db -> t <= now -> one_live now (tbl_rows db).
Proof.
  intros Hr Hnow. destruct (reachable_at_inv t db Hr) as [[Hnd _] [Hts Hsp]].
  intros x y Hx Hy Hs Hxw Hyw.
  destruct (decide (row_id x = row_id y)) as [Hid|Hid].
  - apply (NoDup_map_inj_in row_id (tbl_rows db)); [done| | |done];
      by apply list_elem_of_In.
  - specialize (Hsp x y Hx Hy Hs Hid). pose proof (Hts x Hx). pose proof (Hts y Hy). lia.
Qed.

Lemma reachable_at_one_live_witness :
  one_live 40000000 (tbl_rows (step_db (env_at 30000000) (reading "tank-1" (JNum 45))
       (step_db (env_at 0) (reading "tank-1" (JNum 42)) (mkTable [] 0)))).
Proof. apply (reachable_at_one_live 30000000); [exact reachable_at_example|lia]. Defined.

(** C15 (the invariant needs the monotone clock).  [datetime.now()] is
    the local wall clock and can go back.  For every sensor, values and
    well-formed table with no row of the sensor near [t1]: a reading at
    [t1] and one more than a minute later each insert a row; a third
    reading with the clock set back to [t3] within a minute after [t1]
    finds the second row (its timestamp is above the window's start, and
    the SELECT has no upper bound) and updates it, so two rows of the
    sensor lie in the trailing minute at [t3]. *)
Theorem clock_regression_two_live_rows `{LatestSelectLawful} cfg s v1 v2 v3 t1 t2 t3 db :
  table_wf db -> s <> "" -> has_nul s = false -> no_recent s t1 (tbl_rows db) ->
  t1 + minute < t2 -> t1 <= t3 <= t1 + minute ->
  let db3 := step_db (mkEnv cfg t3 no_faults) (reading s (JNum v3))
               (two_readings cfg s v1 v2 t1 t2 db) in
  exists id1 id2, id1 <> id2 /\
    tbl_rows db3 = tbl_rows db ++ [mkRow id1 s v1 t1; mkRow id2 s v3 t3] /\
    ~ one_live t3 (tbl_rows db3).
Proof.
  intros Hwf Hs Hnul Hno H12 H3 db3. unfold two_readings in db3.
  destruct (two_readings_first cfg s v1 t1 db Hwf Hs Hnul Hno) as (id1 & Hr1 & Hf1 & Hwf1).
  set (db1 := step_db (mkEnv cfg t1 no_faults) (reading s (JNum v1)) db) in *.
  assert (no_recent s t2 (tbl_rows db1)) as Hno2.
  { rewrite Hr1. apply no_recent_snoc; [apply (no_recent_later s t1); [lia|done]|simpl; lia]. }
  destruct (two_readings_first cfg s v2 t2 db1 Hwf1 Hs Hnul Hno2) as (id2 & Hr2 & Hf2 & Hwf2).
  set (db2 := step_db (mkEnv cfg t2 no_faults) (reading s (JNum v2)) db1) in *.
  destruct (serve_reconciles (mkEnv cfg t3 no_faults) (reading s (JNum v3)) db2 s (JNum v3) v3)
    as [_ Hspec]; try done; try (by apply reading_payload); try (by apply adapt_numeric_num).
  change (e_now (mkEnv cfg t3 no_faults)) with t3 in Hspec.
  change (tbl_rows (w_db (snd (serve (mkEnv cfg t3 no_faults) (reading s (JNum v3)) db2))))
    with (tbl_rows db3) in Hspec.
  rewrite Hr2, Hr1, <-app_assoc in Hspec. cbn [app] in Hspec. clearbody db3 db2 db1.
  assert (in_window s (t3 - minute) (mkRow id2 s v2 t2) = true) as HwB
    by (apply in_window_true; simpl; split; [done|lia]).
  assert (id1 <> id2) as Hid by (apply (Hf2 (mkRow id1 s v1 t1)); rewrite Hr1; set_solver).
  inversion Hspec as [r Hl Hrows | id Hl Hfr Hrows].
  - destruct Hl as (Hin & Hw & Hmax). apply in_window_true in Hw as [Hrs Hrt].
    assert (r = mkRow id2 s v2 t2) as ->.
    { apply elem_of_app in Hin as [Hin|[->|Hin]%elem_of_cons].
      - exfalso. specialize (Hno r Hin Hrs). lia.
      - exfalso. specialize (Hmax (mkRow id2 s v2 t2) ltac:(set_solver) HwB). simpl in Hmax. lia.
      - by apply list_elem_of_singleton in Hin. }
    exists id1, id2. split; [done|]. rewrite <-?Hrows, map_app, replace_notin; cycle 1.
    { intros Hx. apply (Hf2 (mkRow id2 s v2 t2)); [rewrite Hr1; set_solver|done]. }
    cbn [map]. rewrite decide_False by congruence. rewrite decide_True by done.
    split; [done|]. intros Hone.
    assert (mkRow id1 s v1 t1 = mkRow id2 s v3 t3) as Heq
      by (apply Hone; [set_solver|set_solver|done|simpl; lia|simpl; lia]).
    congruence.
  - exfalso. specialize (Hl (mkRow id2 s v2 t2) ltac:(set_solver)). congruence.
Qed.

Lemma clock_regression_two_live_rows_witness :
  let db3 := step_db (mkEnv cfg_ex 50000000 no_faults) (reading "tank-1" (JNum 47))
               (two_readings cfg_ex "tank-1" 42 45 0 100000000 (mkTable [] 0)) in
  exists id1 id2, id1 <> id2 /\
    tbl_rows db3 = tbl_rows (mkTable [] 0) ++ [mkRow id1 "tank-1" 42 0; mkRow id2 "tank-1" 47 50000000] /\
    ~ one_live 50000000 (tbl_rows db3).
Proof.
  apply clock_regression_two_live_rows.
  - split; constructor.
  - discriminate.
  - reflexivity.
  - intros r Hr. apply elem_of_nil in Hr as [].
  - unfold minute; lia.
  - unfold minute; lia.
Defined.

(** ** Ids consumed by failed inserts *)

Lemma latest_none_of_no_recent `{LatestSelectLawful} s t rs :
  no_recent s t rs -> latest_select s (t - minute) rs = None.
Proof.
  intros Hno. pose proof (latest_select_is_latest s (t - minute) rs) as Hl.
  destruct (latest_select s (t - minute) rs) as [r|]; [|done].
  destruct Hl as (Hr & Hw & _). apply in_window_true in Hw as [Hs Hge].
  specialize (Hno r Hr Hs). lia.
Qed.

Ltac run_reading :=
  unfold step_db; rewrite serve_run; erewrite receive_data_guarded;
  [|done|apply reading_payload|by apply truthy_str|discriminate];
  unfold try_finally, try_except, process, upsert_writes, open_cursor, execute_select,
    execute_update, execute_insert, commit, on_db_error, close_all, log, rollback,
    fail_if, esm_bind, gets, modify, ret, raise;
  rewrite ?adapt_numeric_num, ?adapt_text_ok by assumption; cbn.

(** C16 (ids are not consecutive).  The id comes from a sequence that a
    rollback does not restore.  When the commit of an insert fails, the
    request changes no row but consumes an id, and the next insert of the
    sensor gets an id two above the sequence value before the failure. *)
Theorem failed_insert_consumes_id `{LatestSelectLawful} cfg s v1 v2 t db :
  s <> "" -> has_nul s = false -> no_recent s t (tbl_rows db) ->
  let E1 := mkEnv cfg t (fun op => match op with OpCommit => true | _ => false end) in
  let db1 := step_db E1 (reading s (JNum v1)) db in
  tbl_rows db1 = tbl_rows db /\ tbl_seq db1 = tbl_seq db + 1 /\
  tbl_rows (step_db (mkEnv cfg t no_faults) (reading s (JNum v2)) db1) =
  tbl_rows db ++ [mkRow (tbl_seq db + 2) s v2 t].
Proof.
  intros Hs Hnul Hno. pose proof (latest_none_of_no_recent s t _ Hno) as Hnone.
  assert (tbl_rows (step_db (mkEnv cfg t (fun op => match op with OpCommit => true | _ => false end))
                      (reading s (JNum v1)) db) = tbl_rows db /\
          tbl_seq (step_db (mkEnv cfg t (fun op => match op with OpCommit => true | _ => false end))
                      (reading s (JNum v1)) db) = tbl_seq db + 1) as [Hr1 Hs1].
  { run_reading. by rewrite Hnone. }
  simpl. split_and!; [done|done|].
  remember (step_db _ (reading s (JNum v1)) db) as db1 eqn:Hdb1.
  clear Hdb1. run_reading. rewrite Hr1, Hnone. cbn. rewrite Hs1, Hr1.
  by replace (tbl_seq db + 1 + 1) with (tbl_seq db + 2) by lia.
Qed.

Lemma failed_insert_consumes_id_witness :
  let E1 := mkEnv cfg_ex 0 (fun op => match op with OpCommit => true | _ => false end) in
  let db1 := step_db E1 (reading "tank-3" (JNum 1)) db_ex in
  tbl_rows db1 = tbl_rows db_ex /\ tbl_seq db1 = tbl_seq db_ex + 1 /\
  tbl_rows (step_db (mkEnv cfg_ex 0 no_faults) (reading "tank-3" (JNum 2)) db1) =
  tbl_rows db_ex ++ [mkRow (tbl_seq db_ex + 2) "tank-3" 2 0].
Proof.
  apply failed_insert_consumes_id; [discriminate|reflexivity|].
  intros r Hr Hs. apply list_elem_of_In in Hr. simpl in Hr.
  destruct Hr as [<-|[<-|[]]]; discriminate.
Defined.

(** ** What the text column holds *)

(** A sensor name as the handler lets it reach the [sensor_id] column:
    non-empty (validation) and without NUL (psycopg2). *)
Definition name_ok (s : string) : Prop := s <> "" /\ has_nul s = false.

Lemma reconcile_spec_names s v now rs rs' :
  name_ok s -> Forall (fun r => name_ok (row_sensor r)) rs -> reconcile_spec s v now rs rs' ->
  Forall (fun r => name_ok (row_sensor r)) rs'.
Proof.
  intros Hs Hall [r _|id _ _].
  - apply Forall_map. eapply Forall_impl; [exact Hall|]. intros x Hx. by case_decide.
  - apply Forall_app. split; [done|]. by constructor.
Qed.

(** C24 (type of the stored data).  In every table a fresh database
    reaches, through any requests with any failures, every row's
    [sensor_id] is a non-empty string without NUL: whatever payload
    reaches the handler, nothing else is ever written to the column. *)
Theorem reachable_sensor_names `{LatestSelectLawful} db :
  reachable db -> Forall (fun r => name_ok (row_sensor r)) (tbl_rows db).
Proof.
  intros Hr.
  enough (table_wf db /\ Forall (fun r => name_ok (row_sensor r)) (tbl_rows db)) by tauto.
  induction Hr as [|E rq db _ [Hwf IH]]; [split; [split; constructor|constructor]|].
  split; [by apply serve_preserves_wf|]. unfold step_db.
  destruct (serve_outcome E rq db Hwf) as [[-> | (s & v & Hrd & Hspec)] _]; [done|].
  apply (reconcile_spec_names s v (e_now E) (tbl_rows db)); [|done|done].
  by apply (request_reading_name rq s v).
Qed.

Lemma reachable_sensor_names_witness :
  reachable (step_db (env_at 0) (reading "tank-1" (JNum 42)) (mkTable [] 0)) /\
  Forall (fun r => name_ok (row_sensor r))
    (tbl_rows (step_db (env_at 0) (reading "tank-1" (JNum 42)) (mkTable [] 0))).
Proof.
  assert (reachable (step_db (env_at 0) (reading "tank-1" (JNum 42)) (mkTable [] 0))) as Hr.
  { constructor. constructor. }
  split; [exact Hr|]. apply (reachable_sensor_names _ Hr).
Defined.
