(* ===== verification/Race.v ===== *)
(** * Concurrent requests: the select-then-write race

    [app.run] serves requests on threads, each with its own connection
    and transaction (src/server.py, lines 52-92).  The statements of
    different transactions interleave; each statement is atomic in the
    database, and under PostgreSQL's READ COMMITTED a SELECT sees the
    committed rows and the transaction's own writes.  A [thread] is the
    core of one handler stopped between two statements: its reading, its
    phase and its uncommitted writes.  [thread_step] runs the next
    statement with the operations of [Server.v] ([execute_select],
    [execute_update], [execute_insert], [commit]), and [run_sched] runs a
    schedule of thread indices against the shared committed table.  Spec
    section 5 describes the race: two readings of a sensor in one window
    can both find no row and both insert.  [interleavings] lists every
    schedule of two handlers and [racy] the ones where each SELECT runs
    before the other's COMMIT.  Each thread carries the failures of its
    own connection ([th_faults]); a statement that raises ends the
    thread without a commit, as its rollback does. *)

From stdpp Require Import base list strings sets.
From Stdlib Require Import ZArith Lia.
From S2P Require Import Prelude Mimetype Json Literal Table Server Trace.

Open Scope Z_scope.

(** Where a handler is: before the SELECT, before the write (with the id
    the SELECT found), before the commit, or finished. *)
Inductive phase : Type :=
| PSelect
| PWrite (found : option Z)
| PCommit
| PDone.

(** A thread carries the failures its own connection meets. *)
Record thread : Type := mkThread {
  th_sensor : string;
  th_value : Z;
  th_now : Z;
  th_faults : dbop -> bool;
  th_phase : phase;
  th_tx : list write
}.

Record sys : Type := mkSys {
  sys_db : table;
  sys_threads : list thread
}.

(** The handler's world as the thread's statements see it: its open
    connection and cursor, its transaction, the shared committed table. *)
Definition thread_world (db : table) (th : thread) : world :=
  mkWorld db ConnOpen (th_tx th) (Some CurOpen) [].

Definition advance (th : thread) (ph : phase) (tx : list write) : thread :=
  mkThread (th_sensor th) (th_value th) (th_now th) (th_faults th) ph tx.

(** The next statement of a thread; a statement that raises ends the
    thread's work on the database: its transaction is never committed,
    which is what its rollback does. *)
Definition thread_step `{LatestSelect} (db : table) (th : thread) : table * thread :=
  let E := mkEnv cfg_ex (th_now th) (th_faults th) in
  let w := thread_world db th in
  match th_phase th with
  | PSelect =>
      let '(r, w') := execute_select E (JStr (th_sensor th)) (th_now th - minute) w in
      (w_db w', advance th (match r with inr found => PWrite found | inl _ => PDone end) (w_tx w'))
  | PWrite (Some rid) =>
      let '(r, w') := execute_update E (JNum (th_value th)) (th_now th) rid w in
      (w_db w', advance th (match r with inr _ => PCommit | inl _ => PDone end) (w_tx w'))
  | PWrite None =>
      let '(r, w') := execute_insert E (JStr (th_sensor th)) (JNum (th_value th)) (th_now th) w in
      (w_db w', advance th (match r with inr _ => PCommit | inl _ => PDone end) (w_tx w'))
  | PCommit =>
      let '(_, w') := commit E w in (w_db w', advance th PDone (w_tx w'))
  | PDone => (db, th)
  end.

(** Run the threads in the order of the schedule; an index with no
    thread is skipped. *)
Fixpoint run_sched `{LatestSelect} (sched : list nat) (st : sys) : sys :=
  match sched with
  | [] => st
  | i :: rest =>
      match sys_threads st !! i with
      | Some th =>
          let '(db', th') := thread_step (sys_db st) th in
          run_sched rest (mkSys db' (<[i:=th']> (sys_threads st)))
      | None => run_sched rest st
      end
  end.

(** Handlers that have not started, one per reading, each with the
    failures of its connection. *)
Definition start_with (db : table) (readings : list (string * Z * Z * (dbop -> bool))) : sys :=
  mkSys db (map (fun '(s, v, t, f) => mkThread s v t f PSelect []) readings).

(** Handlers that meet no failure. *)
Definition start (db : table) (readings : list (string * Z * Z)) : sys :=
  start_with db (map (fun '(s, v, t) => (s, v, t, no_faults)) readings).

(** ** Lemmas *)

Lemma latest_single `{LatestSelectLawful} s t rs r :
  no_recent s t rs -> t - minute <= row_ts r -> row_sensor r = s ->
  latest_select s (t - minute) (rs ++ [r]) = Some r.
Proof.
  intros Hno Hr Hs. pose proof (latest_select_is_latest s (t - minute) (rs ++ [r])) as Hl.
  destruct (latest_select s (t - minute) (rs ++ [r])) as [r'|].
  - destruct Hl as ([Hin| ->]%elem_of_snoc & Hw & _); [|done].
    apply in_window_true in Hw as [Hs' Hge]. specialize (Hno r' Hin Hs'). lia.
  - exfalso. assert (in_window s (t - minute) r = true) as Hw by (by apply in_window_true).
    rewrite Hl in Hw; [done|]. apply elem_of_snoc. by right.
Qed.

Lemma update_absent rid v t rs :
  (forall x, x ∈ rs -> row_id x <> rid) -> map (update_row rid v t) rs = rs.
Proof.
  intros Hfr. induction rs as [|x rs IH]; [done|]. rewrite map_cons. f_equal.
  - unfold update_row. destruct (Z.eqb_spec (row_id x) rid); [|done].
    exfalso. by apply (Hfr x); [set_solver|].
  - apply IH. intros y Hy. apply Hfr. set_solver.
Qed.

Lemma rows_wf_fresh seq rs : rows_wf seq rs -> forall x, x ∈ rs -> row_id x <> seq + 1.
Proof.
  intros [_ Hall] x Hx. rewrite Forall_forall in Hall. specialize (Hall x Hx). lia.
Qed.

(** Unfold the threads' statements. *)
Ltac run_threads :=
  unfold start, start_with, run_sched, thread_step, thread_world, advance, execute_select,
    execute_update, execute_insert, commit, fail_if, esm_bind, gets, modify, ret, raise;
  repeat first [ progress cbn -[adapt_text adapt_numeric]
               | rewrite adapt_numeric_num
               | rewrite adapt_text_ok by assumption ].

(** Settle every SELECT of a two-reading run: with no row of the sensor
    in either window it finds nothing, or the other reading's committed
    row; then compute the commits. *)
Ltac settle_selects Hno Hno2 :=
  repeat first
   [ rewrite (latest_none_of_no_recent _ _ _ Hno)
   | rewrite (latest_none_of_no_recent _ _ _ Hno2)
   | rewrite (latest_single _ _ _ _ Hno) by (simpl; unfold minute in *; lia || done)
   | rewrite (latest_single _ _ _ _ Hno2) by (simpl; unfold minute in *; lia || done)
   | rewrite map_app, update_absent by (by apply rows_wf_fresh)
   | rewrite Z.eqb_refl
   | progress cbn ].

(** Settle the statements of two threads, splitting on the failures of
    a thread's own connection as they are met. *)
Ltac race_run Hno Hno2 :=
  run_threads; settle_selects Hno Hno2;
  repeat match goal with
  | H : ?f OpCommit = true |- _ => rewrite H
  | |- context [?f ?op] =>
      lazymatch type of op with
      | dbop => is_var f; destruct (f op) eqn:?; run_threads; settle_selects Hno Hno2
      end
  end;
  settle_selects Hno Hno2.

Lemma rows_wf_above seq rs i : rows_wf seq rs -> seq < i -> forall x, x ∈ rs -> row_id x <> i.
Proof.
  intros [_ Hall] Hi x Hx. rewrite Forall_forall in Hall. specialize (Hall x Hx). lia.
Qed.

Lemma run_sched_app `{LatestSelect} s1 s2 st : run_sched (s1 ++ s2) st = run_sched s2 (run_sched s1 st).
Proof.
  revert st. induction s1 as [|i s1 IH]; intros st; [done|]. simpl.
  destruct (sys_threads st !! i); [case_match|]; apply IH.
Qed.

(** ** Properties *)

(** ** Every interleaving of two readings *)

(** The schedules that run [a] statements of thread 0 and [b] of
    thread 1, in every order. *)
Fixpoint interleavings (a b : nat) {struct a} : list (list nat) :=
  match a with
  | O => [repeat 1%nat b]
  | S a' =>
      (fix go (b : nat) : list (list nat) :=
         match b with
         | O => [repeat 0%nat a]
         | S b' => map (cons 0%nat) (interleavings a' b) ++ map (cons 1%nat) (go b')
         end) b
  end.

(** The position of the [k]-th statement of thread [i] in a schedule. *)
Fixpoint occ_index (i k : nat) (l : list nat) : nat :=
  match l with
  | [] => 0
  | j :: l' =>
      if Nat.eqb i j then (match k with O => 0 | S k' => S (occ_index i k' l') end)
      else S (occ_index i k l')
  end.

(** Each thread's SELECT (its first statement) runs before the other's
    COMMIT (its third). *)
Definition racy (l : list nat) : bool :=
  (occ_index 0 0 l <? occ_index 1 2 l)%nat && (occ_index 1 0 l <? occ_index 0 2 l)%nat.

(** C19 (every interleaving of two readings).  Of the twenty schedules of
    two handlers' statements (SELECT, write, COMMIT each) for readings of
    one sensor at most a minute apart, on a well-formed table with no row
    of the sensor in either window, each one appends new rows of the
    sensor stamped inside the window: one row exactly when the schedule is
    not [racy], and two rows (a duplicate) when each SELECT runs before the
    other handler's COMMIT.  Only the two serial schedules are not racy. *)
Theorem every_interleaving_classified `{LatestSelectLawful} db s v1 v2 t1 t2 sched :
  has_nul s = false -> table_wf db -> no_recent s t1 (tbl_rows db) -> t1 <= t2 <= t1 + minute ->
  sched ∈ interleavings 3 3 ->
  exists fresh,
    tbl_rows (sys_db (run_sched sched (start db [(s, v1, t1); (s, v2, t2)]))) =
      tbl_rows db ++ fresh /\
    Forall (fun r => row_sensor r = s /\ t1 <= row_ts r <= t2) fresh /\
    length fresh = (if racy sched then 2 else 1)%nat.
Proof.
  intros Hnul Hwf Hno Ht Hs.
  assert (no_recent s t2 (tbl_rows db)) as Hno2.
  { eapply no_recent_later; [|exact Hno]. lia. }
  vm_compute in Hs. repeat (apply elem_of_cons in Hs as [->|Hs]); [..|by apply elem_of_nil in Hs];
  run_threads; settle_selects Hno Hno2; unfold update_row; cbn; rewrite ?Z.eqb_refl; cbn;
  (eexists; split; [rewrite <-?app_assoc; reflexivity|split; [|reflexivity]]);
  repeat (apply Forall_cons; split; [split; [done|simpl; lia]|]); by apply Forall_nil.
Qed.

Lemma every_interleaving_classified_witness :
  exists fresh,
    tbl_rows (sys_db (run_sched [1; 0; 1; 1; 0; 0]%nat
                        (start db_ex [("tank-3", 10, 0); ("tank-3", 11, 30000000)]))) =
      tbl_rows db_ex ++ fresh /\
    Forall (fun r => row_sensor r = "tank-3" /\ 0 <= row_ts r <= 30000000) fresh /\
    length fresh = (if racy [1; 0; 1; 1; 0; 0]%nat then 2 else 1)%nat.
Proof.
  apply every_interleaving_classified; [reflexivity|..].
  - decide_by_eval.
  - intros r Hr Hs. apply list_elem_of_In in Hr. simpl in Hr.
    destruct Hr as [<-|[<-|[]]]; discriminate.
  - vm_compute. split; discriminate.
  - decide_by_eval.
Defined.

(** C23 (a failing handler does not disturb a concurrent one).  Two
    readings of one sensor at most a minute apart, on a well-formed table
    with no row of the sensor in either window, where the first
    handler's connection fails at its COMMIT (and at any other statement
    its faults choose): under each of the twenty interleavings the table
    ends with exactly one new row, the second reading's, under an id
    above the sequence, so fresh.  The failed handler's writes are never
    seen, and only its id is consumed. *)
Theorem failed_commit_isolated `{LatestSelectLawful} db s v1 v2 t1 t2 f sched :
  has_nul s = false -> table_wf db -> no_recent s t1 (tbl_rows db) -> t1 <= t2 <= t1 + minute ->
  f OpCommit = true -> sched ∈ interleavings 3 3 ->
  exists id,
    tbl_rows (sys_db (run_sched sched (start_with db [(s, v1, t1, f); (s, v2, t2, no_faults)]))) =
      tbl_rows db ++ [mkRow id s v2 t2] /\
    forall x, x ∈ tbl_rows db -> row_id x <> id.
Proof.
  intros Hnul Hwf Hno Ht Hc Hs.
  assert (no_recent s t2 (tbl_rows db)) as Hno2.
  { eapply no_recent_later; [|exact Hno]. lia. }
  vm_compute in Hs. repeat (apply elem_of_cons in Hs as [->|Hs]); [..|by apply elem_of_nil in Hs];
  race_run Hno Hno2; unfold update_row; cbn; rewrite ?Z.eqb_refl; cbn;
  (eexists; split; [rewrite <-?app_assoc; reflexivity|apply (rows_wf_above _ _ _ Hwf); lia]).
Qed.

Lemma failed_commit_isolated_witness :
  exists id,
    tbl_rows (sys_db (run_sched [0; 1; 0; 1; 0; 1]%nat
      (start_with db_ex [("tank-3", 10, 0, fun op => match op with OpCommit => true | _ => false end);
                         ("tank-3", 11, 30000000, no_faults)]))) =
      tbl_rows db_ex ++ [mkRow id "tank-3" 11 30000000] /\
    forall x, x ∈ tbl_rows db_ex -> row_id x <> id.
Proof.
  apply failed_commit_isolated.
  - reflexivity.
  - decide_by_eval.
  - intros r Hr Hs. apply list_elem_of_In in Hr. simpl in Hr.
    destruct Hr as [<-|[<-|[]]]; discriminate.
  - vm_compute. split; discriminate.
  - reflexivity.
  - decide_by_eval.
Defined.
