(* ===== verification/RaceMany.v ===== *)
(** * The race of many readings

    [Race.v] classifies the interleavings of two handlers.  This file
    runs any number [n] of handlers serving readings of one sensor
    ([start] of [Race.v], each thread with its own connection, without
    failures) under the schedule where every handler runs its SELECT,
    then every handler its write, then every handler its COMMIT: the
    schedule [seq 0 n ++ seq 0 n ++ seq 0 n] of thread indices.  A
    schedule that runs the same statement of each thread in turn is a
    [phase]; [run_sched_phase] computes a phase from the effect of one
    statement on one thread.  With no row of the sensor in any reading's
    window, no SELECT finds a row and each handler inserts: the table
    ends with [n] new rows of the sensor, with the consecutive ids the
    sequence gives, which is the duplication of spec section 5 for any
    number of concurrent readings. *)

From stdpp Require Import base list strings sets.
From Stdlib Require Import ZArith Lia.
From S2P Require Import Prelude Mimetype Json Literal Table Server Trace Race.

Open Scope Z_scope.

(** The rows the [n] handlers insert, in the order of their threads:
    thread [j] takes the id [nextval] gives after [j] earlier inserts. *)
Definition inserted_rows (seq0 : Z) (s : string) (readings : list (Z * Z)) : list row :=
  imap (fun j '(v, t) => mkRow (seq0 + Z.of_nat j + 1) s v t) readings.

(** The schedule of [n] handlers: all SELECTs, all writes, all commits. *)
Definition phased_sched (n : nat) : list nat := seq 0 n ++ seq 0 n ++ seq 0 n.

Definition readings_of (s : string) (readings : list (Z * Z)) : list (string * Z * Z) :=
  map (fun '(v, t) => (s, v, t)) readings.

(** The threads of the readings, all at phase [ph], thread [j] with
    the transaction [tx j v t]. *)
Definition phase_threads (s : string) (ph : phase) (tx : nat -> Z -> Z -> list write)
    (readings : list (Z * Z)) : list thread :=
  imap (fun j '(v, t) => mkThread s v t no_faults ph (tx j v t)) readings.

(** ** One phase of a schedule *)

Section Phase.
Context `{LatestSelect}.

(** [F j] is what the statement does to thread [j], [D j] the
    committed table before thread [j] runs it. *)
Variable F : nat -> thread -> thread.
Variable D : nat -> table.
Variable ths : list thread.
Hypothesis Hstep : forall j th, ths !! j = Some th -> thread_step (D j) th = (D (S j), F j th).

Lemma run_sched_phase j : (j <= length ths)%nat ->
  run_sched (seq 0 j) (mkSys (D 0) ths) = mkSys (D j) (imap F (take j ths) ++ drop j ths).
Proof.
  induction j as [|j IH]; intros Hj; [by rewrite take_0, drop_0|].
  rewrite seq_S, run_sched_app, IH by lia. simpl.
  assert (is_Some (ths !! j)) as [th Hl] by (apply lookup_lt_is_Some_2; lia).
  assert (length (imap F (take j ths)) = j) as Hlen by (rewrite length_imap, length_take; lia).
  rewrite lookup_app_r, Hlen, Nat.sub_diag, lookup_drop, Nat.add_0_r, Hl by lia. simpl.
  rewrite (Hstep j th Hl), insert_app_r_alt, Hlen, Nat.sub_diag by lia.
  rewrite (drop_S ths th j Hl), (take_S_r ths j th Hl), imap_app, length_take. simpl.
  assert (Nat.min j (length ths) + 0 = j)%nat as -> by lia. by rewrite <-app_assoc.
Qed.

Lemma run_sched_phase_all :
  run_sched (seq 0 (length ths)) (mkSys (D 0) ths) = mkSys (D (length ths)) (imap F ths).
Proof.
  rewrite run_sched_phase by lia. by rewrite take_ge, drop_ge, app_nil_r by lia.
Qed.
End Phase.

(** ** The statements of one thread without failures *)

Lemma step_select_none `{LatestSelectLawful} db th :
  th_phase th = PSelect -> th_faults th = no_faults -> has_nul (th_sensor th) = false ->
  no_recent (th_sensor th) (th_now th) (apply_log (tbl_rows db) (th_tx th)) ->
  thread_step db th = (db, advance th (PWrite None) (th_tx th)).
Proof.
  intros Hp Hf Hn Hno. unfold thread_step. rewrite Hp, Hf.
  unfold thread_world, execute_select, fail_if, esm_bind, gets, ret. rewrite adapt_text_ok by done.
  cbn. by rewrite (latest_none_of_no_recent _ _ _ Hno).
Qed.

Lemma step_insert `{LatestSelect} db th :
  th_phase th = PWrite None -> th_faults th = no_faults -> has_nul (th_sensor th) = false ->
  thread_step db th =
  (mkTable (tbl_rows db) (tbl_seq db + 1),
   advance th PCommit
     (th_tx th ++ [WInsert (mkRow (tbl_seq db + 1) (th_sensor th) (th_value th) (th_now th))])).
Proof.
  intros Hp Hf Hn. unfold thread_step. rewrite Hp, Hf.
  unfold thread_world, execute_insert, fail_if, esm_bind, modify, ret.
  by rewrite adapt_text_ok, adapt_numeric_num by done.
Qed.

Lemma step_commit `{LatestSelect} db th :
  th_phase th = PCommit -> th_faults th = no_faults ->
  thread_step db th = (mkTable (apply_log (tbl_rows db) (th_tx th)) (tbl_seq db), advance th PDone []).
Proof.
  intros Hp Hf. unfold thread_step. rewrite Hp, Hf.
  by unfold thread_world, commit, fail_if, esm_bind, modify, ret.
Qed.

(** ** The three phases *)

Lemma imap_imap {A B C} (f : nat -> B -> C) (g : nat -> A -> B) (l : list A) :
  imap f (imap g l) = imap (fun j x => f j (g j x)) l.
Proof.
  revert f g. induction l as [|x l IH]; intros f g; [done|].
  rewrite !imap_cons, IH. done.
Qed.

Lemma start_phase_threads db s readings :
  start db (readings_of s readings) = mkSys db (phase_threads s PSelect (fun _ _ _ => []) readings).
Proof.
  unfold start, start_with, readings_of, phase_threads. f_equal.
  rewrite !map_map, <-imap_const. apply imap_ext. by intros j [v t] _.
Qed.

Lemma phase_threads_lookup s ph tx readings j th :
  phase_threads s ph tx readings !! j = Some th ->
  exists v t, readings !! j = Some (v, t) /\ th = mkThread s v t no_faults ph (tx j v t).
Proof.
  unfold phase_threads. rewrite list_lookup_imap.
  destruct (readings !! j) as [[v t]|]; simpl; [|done]. intros [= <-]. eauto.
Qed.

Lemma phase_threads_step s ph ph' tx tx' readings (F : nat -> thread -> thread) :
  (forall j v t, F j (mkThread s v t no_faults ph (tx j v t)) =
                 mkThread s v t no_faults ph' (tx' j v t)) ->
  imap F (phase_threads s ph tx readings) = phase_threads s ph' tx' readings.
Proof.
  intros HF. unfold phase_threads. rewrite imap_imap. apply imap_ext. intros j [v t] _. apply HF.
Qed.

Lemma length_phase_threads s ph tx readings :
  length (phase_threads s ph tx readings) = length readings.
Proof. apply length_imap. Qed.

Lemma inserted_rows_lookup seq0 s readings j v t :
  readings !! j = Some (v, t) ->
  inserted_rows seq0 s readings !! j = Some (mkRow (seq0 + Z.of_nat j + 1) s v t).
Proof. intros Hl. unfold inserted_rows. by rewrite list_lookup_imap, Hl. Qed.

Section Phases.
Context `{LatestSelectLawful}.
Variable db : table.
Variable s : string.
Variable readings : list (Z * Z).
Hypothesis Hnul : has_nul s = false.
Hypothesis Hno : Forall (fun '(v, t) => no_recent s t (tbl_rows db)) readings.

Let n := length readings.
Let seq0 := tbl_seq db.
Let ins_tx := fun j v t => [WInsert (mkRow (seq0 + Z.of_nat j + 1) s v t)].

Lemma selects_phase :
  run_sched (seq 0 n) (start db (readings_of s readings)) =
  mkSys db (phase_threads s (PWrite None) (fun _ _ _ => []) readings).
Proof.
  rewrite start_phase_threads. subst n. rewrite <-(length_phase_threads s PSelect (fun _ _ _ => [])).
  rewrite (run_sched_phase_all (fun _ th => advance th (PWrite None) (th_tx th)) (fun _ => db)).
  - f_equal. by apply phase_threads_step.
  - intros j th (v & t & Hl & ->)%phase_threads_lookup.
    apply step_select_none; try done. cbn.
    exact (Forall_lookup_1 _ _ _ _ Hno Hl).
Qed.

Lemma inserts_phase :
  run_sched (seq 0 n) (mkSys db (phase_threads s (PWrite None) (fun _ _ _ => []) readings)) =
  mkSys (mkTable (tbl_rows db) (seq0 + Z.of_nat n)) (phase_threads s PCommit ins_tx readings).
Proof.
  replace db with (mkTable (tbl_rows db) (seq0 + Z.of_nat 0)) at 1
    by (subst seq0; destruct db; simpl; f_equal; lia).
  subst n. rewrite <-(length_phase_threads s (PWrite None) (fun _ _ _ => [])).
  rewrite (run_sched_phase_all
    (fun j th => advance th PCommit
       (th_tx th ++ [WInsert (mkRow (seq0 + Z.of_nat j + 1) (th_sensor th) (th_value th) (th_now th))]))
    (fun j => mkTable (tbl_rows db) (seq0 + Z.of_nat j))).
  - f_equal. by apply phase_threads_step.
  - intros j th (v & t & Hl & ->)%phase_threads_lookup.
    rewrite step_insert by done. cbn.
    replace (seq0 + Z.of_nat (S j)) with (seq0 + Z.of_nat j + 1) by lia. reflexivity.
Qed.

Lemma commits_phase :
  run_sched (seq 0 n)
    (mkSys (mkTable (tbl_rows db) (seq0 + Z.of_nat n)) (phase_threads s PCommit ins_tx readings)) =
  mkSys (mkTable (tbl_rows db ++ inserted_rows seq0 s readings) (seq0 + Z.of_nat n))
    (phase_threads s PDone (fun _ _ _ => []) readings).
Proof.
  set (D := fun j => mkTable (tbl_rows db ++ take j (inserted_rows seq0 s readings)) (seq0 + Z.of_nat n)).
  replace (mkTable (tbl_rows db) (seq0 + Z.of_nat n)) with (D 0%nat)
    by (subst D; simpl; by rewrite app_nil_r).
  replace (mkTable (tbl_rows db ++ inserted_rows seq0 s readings) (seq0 + Z.of_nat n))
    with (D (length (phase_threads s PCommit ins_tx readings)))
    by (subst D; simpl; rewrite length_phase_threads, take_ge; [done|];
        unfold inserted_rows; rewrite length_imap; lia).
  subst n. rewrite <-(length_phase_threads s PCommit ins_tx).
  rewrite (run_sched_phase_all (fun _ th => advance th PDone []) D).
  - f_equal. by apply phase_threads_step.
  - intros j th (v & t & Hl & ->)%phase_threads_lookup.
    rewrite step_commit by done. subst D. cbn. f_equal.
    by rewrite (take_S_r _ j _ (inserted_rows_lookup seq0 s readings j v t Hl)), app_assoc.
Qed.
End Phases.

(** ** Properties *)

(** C27 (the race of [n] readings).  For any number [n] of concurrent
    readings of one sensor without a NUL, on a table with no row of the
    sensor in any reading's window, the schedule where every handler
    runs its SELECT before any handler writes, and every handler writes
    before any commits, leaves the committed table with [n] new rows of
    the sensor, one per reading with its value and time, under the ids
    [seq + 1], ..., [seq + n] that [nextval] hands out.  With two
    readings or more inside the window of a time [now], the spec's
    one-live-row invariant fails at [now] (spec section 5). *)
Theorem phased_race_duplicates `{LatestSelectLawful} db s readings now :
  has_nul s = false -> Forall (fun '(v, t) => no_recent s t (tbl_rows db)) readings ->
  let db' := sys_db (run_sched (phased_sched (length readings)) (start db (readings_of s readings))) in
  db' = mkTable (tbl_rows db ++ inserted_rows (tbl_seq db) s readings)
                (tbl_seq db + Z.of_nat (length readings)) /\
  ((2 <= length readings)%nat -> Forall (fun '(v, t) => now - minute <= t) readings ->
   ~ one_live now (tbl_rows db')).
Proof.
  intros Hnul Hno db'.
  assert (db' = mkTable (tbl_rows db ++ inserted_rows (tbl_seq db) s readings)
                (tbl_seq db + Z.of_nat (length readings))) as Hdb.
  { subst db'. unfold phased_sched. rewrite !run_sched_app.
    rewrite selects_phase, inserts_phase, commits_phase by done. reflexivity. }
  split; [done|]. intros Hn Hw Hone. rewrite Hdb in Hone. simpl in Hone.
  destruct readings as [|[v0 t0] [|[v1 t1] rest]]; simpl in Hn; [lia|lia|].
  apply Forall_cons in Hw as [Hw0 [Hw1 _]%Forall_cons].
  unfold inserted_rows in Hone. rewrite !imap_cons in Hone.
  assert (mkRow (tbl_seq db + 0 + 1) s v0 t0 = mkRow (tbl_seq db + 1 + 1) s v1 t1) as Heq.
  { apply Hone; [set_solver|set_solver|done|done|done]. }
  injection Heq. lia.
Qed.

Lemma phased_race_duplicates_witness :
  let db' := sys_db (run_sched (phased_sched 3)
    (start db_ex (readings_of "tank-3" [(10, 0); (11, 20000000); (12, 40000000)]))) in
  db' = mkTable (tbl_rows db_ex ++ [mkRow 3 "tank-3" 10 0; mkRow 4 "tank-3" 11 20000000;
                                    mkRow 5 "tank-3" 12 40000000]) 5 /\
  ((2 <= 3)%nat -> Forall (fun '(v, t) => 40000000 - minute <= t)
                     [(10, 0); (11, 20000000); (12, 40000000)] ->
   ~ one_live 40000000 (tbl_rows db')).
Proof.
  apply (phased_race_duplicates db_ex "tank-3" [(10, 0); (11, 20000000); (12, 40000000)]).
  - reflexivity.
  - repeat constructor; intros r Hr Hs; apply list_elem_of_In in Hr; simpl in Hr;
      destruct Hr as [<-|[<-|[]]]; discriminate.
Defined.
