(* ===== verification/Bootstrap.v ===== *)
(** * The process entry point

    Lines 115-120 of src/server.py run the application when the file is
    executed: [port = int(os.environ.get("PORT", 5000))], then
    [app.run(host='0.0.0.0', port=port, debug=False)].  This file models
    Python's [int()] of a string (surrounding whitespace, a sign, decimal
    digits with single underscores between them, [ValueError] otherwise),
    the default when [PORT] is not set, and the bind of the listening
    socket, which raises [OverflowError] for a port outside 0-65535 and
    [OSError] for a port the system refuses (in use, or privileged).
    What the system refuses is an input, [avail], as the environment of
    the process gives it.  The result is the configuration the server
    listens with, or the exception that stops the process before it
    serves anything. *)

From stdpp Require Import base list strings.
From Stdlib Require Import ZArith Lia Ascii.
From Stdlib Require Import DecimalString.
From S2P Require Import Prelude Mimetype Literal.

#[local] Set Warnings "-register-all".

Open Scope Z_scope.

(** ** Python's [int()] of a [str] *)

(** Decimal digits after the value [acc]; [after_digit] says whether
    the previous character was a digit, which an underscore, the end of
    the number and trailing whitespace require. *)
Fixpoint py_digits (acc : Z) (after_digit : bool) (s : string) : option Z :=
  match s with
  | EmptyString => if after_digit then Some acc else None
  | String c s' =>
      match digit_value c with
      | Some d => py_digits (10 * acc + d) true s'
      | None =>
          if after_digit && Ascii.eqb c "_" then py_digits acc false s'
          else if after_digit && py_space c && all_space s' then Some acc
          else None
      end
  end.

(** [int(s)] in base 10: [None] is [ValueError]. *)
Definition py_int_str (s : string) : option Z :=
  match lstrip s with
  | String "-"%char r => option_map Z.opp (py_digits 0 false r)
  | String "+"%char r => py_digits 0 false r
  | r => py_digits 0 false r
  end.

(** ** Lines 115-120 *)

(** The exceptions that stop the process before it serves. *)
Inductive boot_error : Type :=
| PortValueError
| PortOverflow
| PortOSError.

(** The arguments of [app.run]. *)
Record boot_config : Type := mkBoot {
  b_host : string;
  b_port : Z;
  b_debug : bool
}.

(** [int(os.environ.get("PORT", 5000))] (line 118): the default is the
    [int] 5000, which [int()] returns as it is. *)
Definition port_of_env (env_port : option string) : boot_error + Z :=
  match env_port with
  | None => inr 5000
  | Some s => match py_int_str s with Some z => inr z | None => inl PortValueError end
  end.

(** [socket.bind((host, port))] inside [app.run]: [OverflowError]
    outside 0-65535, [OSError] ([EADDRINUSE], [EACCES]) when the system
    refuses the port, [avail p] telling whether it accepts it; 0 asks
    the system for a free port. *)
Definition bind_port (avail : Z -> bool) (p : Z) : boot_error + Z :=
  if (0 <=? p) && (p <=? 65535) then (if avail p then inr p else inl PortOSError)
  else inl PortOverflow.

(** Lines 115-120, when the file is run as [__main__]. *)
Definition main (avail : Z -> bool) (env_port : option string) : boot_error + boot_config :=
  match port_of_env env_port with
  | inl e => inl e
  | inr p =>
      match bind_port avail p with
      | inl e => inl e
      | inr p' => inr (mkBoot "0.0.0.0" p' false)
      end
  end.

(** ** Properties *)

(** C22 (bounds of the listening port).  For every value of [PORT] and
    every answer of the system to the bind, the entry point does one of
    four things.  It runs the application on host [0.0.0.0], without the
    debugger, on the port 5000 when [PORT] is not set and [int(PORT)]
    otherwise, only when that port is within 0-65535 and the system
    accepts it.  Or it stops with [ValueError] because [PORT] is not the
    text of an integer; with [OverflowError] because the integer is
    outside 0-65535; or with [OSError] because the system refuses a port
    within 0-65535. *)
Theorem main_cases avail env_port :
  match main avail env_port with
  | inr cfg => b_host cfg = "0.0.0.0" /\ b_debug cfg = false /\
               (env_port = None -> b_port cfg = 5000) /\
               (forall s, env_port = Some s -> py_int_str s = Some (b_port cfg)) /\
               0 <= b_port cfg <= 65535 /\ avail (b_port cfg) = true
  | inl PortValueError => exists s, env_port = Some s /\ py_int_str s = None
  | inl PortOverflow => exists p, port_of_env env_port = inr p /\ (p < 0 \/ 65535 < p)
  | inl PortOSError =>
      exists p, port_of_env env_port = inr p /\ 0 <= p <= 65535 /\ avail p = false
  end.
Proof.
  unfold main. destruct (port_of_env env_port) as [e|p] eqn:He.
  - destruct env_port as [s|]; simpl in He; [|done].
    destruct (py_int_str s) eqn:Hs; simplify_eq. eauto.
  - unfold bind_port. destruct ((0 <=? p) && (p <=? 65535)) eqn:Hr.
    + apply andb_true_iff in Hr as [?%Z.leb_le ?%Z.leb_le].
      destruct (avail p) eqn:Ha; [|exists p; split_and!; (done || lia)].
      simpl. split_and!; try done; try lia.
      * intros ->. simpl in He. by simplify_eq.
      * intros s ->. simpl in He. destruct (py_int_str s); by simplify_eq.
    + exists p. split; [done|]. apply andb_false_iff in Hr as [?%Z.leb_gt|?%Z.leb_gt]; lia.
Qed.
